(** * Bitboard attack generation: a shallow embedding of
      [chess_bitboard_helpers.py] and [chess_board.py]

    Bitboards are [np.uint64] scalars.  They are embedded as integers of
    [Z] in the range [0, 2^64); every NumPy operation is written with its
    wrap-around made explicit (module [Np]).  Squares are Python integers,
    embedded as unbounded [Z]; [%] on them is Python's floor modulus, which
    is [Z.modulo] for the positive divisor 8.

    The scalar semantics is that of NumPy 1.18 to 1.26, for which the code
    was written: [np.uint64(n)] of a negative Python integer wraps around
    modulo 2^64, and a shift by 64 bits or more yields 0.  The ray and jump
    functions rely on both: an index that leaves the board becomes a shift
    that sets no bit. *)

From Stdlib Require Import String Ascii DecimalString.
From Stdlib Require Import ZArith List Bool Lia Sorted.
From Equations Require Import Equations.
Import ListNotations.

Local Open Scope Z_scope.

(** ** NumPy unsigned 64-bit scalars *)

Module Np.

Definition modulus : Z := 2 ^ 64.

(** [np.uint64(n)] for a Python integer [n]: the value is reduced modulo
    2^64, so a negative square index becomes a huge shift count. *)
Definition uint64 (n : Z) : Z := n mod modulus.

(** [a << b] on uint64 scalars: bits shifted past position 63 are lost,
    and a shift count of 64 or more yields 0. *)
Definition shl (a b : Z) : Z :=
  if b <? 64 then (Z.shiftl a b) mod modulus else 0.

(** [a >> b] on uint64 scalars. *)
Definition shr (a b : Z) : Z :=
  if b <? 64 then Z.shiftr a b else 0.

(** [~a] on a uint64 scalar. *)
Definition inv (a : Z) : Z := (Z.lnot a) mod modulus.

(** The values a uint64 scalar can take. *)
Definition is_uint64 (a : Z) : Prop := 0 <= a < modulus.

End Np.

(** ** Constants of [chess_constants] *)

(** Modelled from the spec: the module [chess_constants] is imported by both
    source files but is not among them.  [HOT] is its one-bit mask,
    [np.uint64(1)]. *)
Definition HOT : Z := 1.

(** Modelled from the spec: the class [File] of [chess_constants], which is
    not among the source files.  [File.A] .. [File.H] are the sets of square
    indices of each file under the rank-major numbering
    square = rank*8 + file; the code tests membership in them with [in] and
    unites them with [|].  [File.hexA] .. [File.hexH] are the eight file
    masks, one bitboard per file. *)
Module File.

Definition squares_of_file (f : Z) : list Z :=
  map (fun r => r * 8 + f) [0; 1; 2; 3; 4; 5; 6; 7].

Definition A : list Z := squares_of_file 0.
Definition B : list Z := squares_of_file 1.
Definition C : list Z := squares_of_file 2.
Definition D : list Z := squares_of_file 3.
Definition E : list Z := squares_of_file 4.
Definition F : list Z := squares_of_file 5.
Definition G : list Z := squares_of_file 6.
Definition H : list Z := squares_of_file 7.

Definition hexA : Z := 0x0101010101010101.
Definition hexB : Z := 0x0202020202020202.
Definition hexC : Z := 0x0404040404040404.
Definition hexD : Z := 0x0808080808080808.
Definition hexE : Z := 0x1010101010101010.
Definition hexF : Z := 0x2020202020202020.
Definition hexG : Z := 0x4040404040404040.
Definition hexH : Z := 0x8080808080808080.

End File.

(** Python's [x in s] on a set of integers, and the set union [s | t]. *)
Definition py_in (x : Z) (s : list Z) : bool := existsb (Z.eqb x) s.
Definition py_union (s t : list Z) : list Z := s ++ t.

(** ** Bit operations *)

(** [np.uint64(bitboard | np.uint64(1) << np.uint64(bit))] *)
Definition set_bit (bitboard bit : Z) : Z :=
  Np.uint64 (Z.lor bitboard (Np.shl (Np.uint64 1) (Np.uint64 bit))).

(** [bitboard & ~(np.uint64(1) << np.uint64(bit))] *)
Definition clear_bit (bitboard bit : Z) : Z :=
  Z.land bitboard (Np.inv (Np.shl (Np.uint64 1) (Np.uint64 bit))).

(** ** Python control flow *)

(** [for x in xs: acc = body(acc, x)] *)
Definition for_in {A B : Type} (xs : list B) (body : A -> B -> A) (acc : A) : A :=
  fold_left body xs acc.

(** Pattern matching on a value while remembering where it came from. *)
Definition inspect {A : Type} (x : A) : { y : A | x = y } := exist _ x eq_refl.

Section While.

Context {St : Type}.
Variable cond : St -> bool.
Variable body : St -> St.
Variable measure : St -> nat.
Hypothesis decreases :
  forall s, cond s = true -> (measure (body s) < measure s)%nat.

(** [while cond(s): s = body(s)], total because [measure] decreases. *)
Equations while (s : St) : St by wf (measure s) lt :=
  while s with inspect (cond s) => {
    | exist _ true Hc => while (body s)
    | exist _ false _ => s }.

End While.

(** [range(64)] *)
Definition range64 : list Z := map Z.of_nat (seq 0 64).

(** Truth value of a uint64 scalar in an [if]. *)
Definition truthy (a : Z) : bool := negb (a =? 0).

(** ** The knight *)

(** The five [get_*_squares] functions scan [range(64)] and append to a list
    each square whose bit is set in the bitboard: the list they return is
    the scanned range filtered by the test. *)

Definition get_knight_squares (bitboard : Z) : list Z :=
  filter
    (fun square =>
       truthy (Z.land bitboard (Np.shl (Np.uint64 1) (Np.uint64 square))))
    range64.

Definition gen_knight_attack (square : Z) : Z :=
  for_in [6; 10; 15; 17; -6; -10; -15; -17]
    (fun attack_bitboard shift =>
       let attack_bitboard :=
         Z.lor attack_bitboard (set_bit attack_bitboard (square + shift)) in
       let attack_bitboard :=
         if py_in square (py_union File.A File.B)
         then Z.land attack_bitboard
                (Np.inv (Np.uint64 (Z.lor File.hexG File.hexH)))
         else attack_bitboard in
       if py_in square (py_union File.G File.H)
       then Z.land attack_bitboard
              (Np.inv (Np.uint64 (Z.lor File.hexA File.hexB)))
       else attack_bitboard)
    (Np.uint64 0).

Definition make_knight_attack (bitboard : Z) : Z :=
  for_in (get_knight_squares bitboard)
    (fun knight_attack square => Z.lor knight_attack (gen_knight_attack square))
    (Np.uint64 0).

(** ** The king *)

Definition get_king_squares (bitboard : Z) : list Z :=
  filter
    (fun square =>
       truthy (Z.land bitboard (Np.shl (Np.uint64 1) (Np.uint64 square))))
    range64.

Definition gen_king_attack (square : Z) : Z :=
  let attack_bb := Np.uint64 0 in
  let attack_bb :=
    for_in [8; -8]
      (fun attack_bb i => Z.lor attack_bb (Np.shl HOT (Np.uint64 (square + i))))
      attack_bb in
  let attack_bb :=
    for_in [1; 9; -7]
      (fun attack_bb i =>
         Z.lor attack_bb
           (Z.land (Np.shl HOT (Np.uint64 (square + i)))
                   (Np.inv (Np.uint64 File.hexA))))
      attack_bb in
  let attack_bb :=
    for_in [-1; -9; 7]
      (fun attack_bb i =>
         Z.lor attack_bb
           (Z.land (Np.shl HOT (Np.uint64 (square + i)))
                   (Np.inv (Np.uint64 File.hexH))))
      attack_bb in
  attack_bb.

Definition make_king_attack (bitboard : Z) : Z :=
  for_in (get_king_squares bitboard)
    (fun king_attack square => Z.lor king_attack (gen_king_attack square))
    (Np.uint64 0).

(** ** Rays *)

(** The state of a ray loop: the accumulated bitboard and the running
    [from_square]. *)
Definition ray_state : Type := Z * Z.

(** [bitboard |= HOT << np.uint64(from_square); from_square += delta] *)
Definition mark_and_step (delta : Z) (st : ray_state) : ray_state :=
  (Z.lor (fst st) (Np.shl HOT (Np.uint64 (snd st))), snd st + delta).

(** [bitboard |= HOT << np.uint64(from_square)] *)
Definition mark (st : ray_state) : ray_state :=
  (Z.lor (fst st) (Np.shl HOT (Np.uint64 (snd st))), snd st).

(** [not from_square % 8 == 0] *)
Definition not_file_a (st : ray_state) : bool := negb (snd st mod 8 =? 0).

(** [not from_square % 8 == 0 and from_square not in f] *)
Definition not_file_a_and_not_in (f : list Z) (st : ray_state) : bool :=
  negb (snd st mod 8 =? 0) && negb (py_in (snd st) f).

(** Loop variants: the residue of the square modulo 8 when the step lowers
    it by one, the residue of its opposite when the step raises it. *)
Definition residue_down (st : ray_state) : nat := Z.to_nat (snd st mod 8).
Definition residue_up (st : ray_state) : nat := Z.to_nat ((- snd st) mod 8).

Lemma west_decreases (st : ray_state) :
  not_file_a st = true ->
  (residue_down (mark_and_step (-1) st) < residue_down st)%nat.
Proof.
  destruct st as [bb sq]; unfold not_file_a, residue_down; simpl.
  intros Hc; apply negb_true_iff, Z.eqb_neq in Hc.
  apply Z2Nat.inj_lt; Z.div_mod_to_equations; lia.
Qed.

Lemma east_decreases (st : ray_state) :
  not_file_a st = true ->
  (residue_up (mark_and_step 1 st) < residue_up st)%nat.
Proof.
  destruct st as [bb sq]; unfold not_file_a, residue_up; simpl.
  intros Hc; apply negb_true_iff, Z.eqb_neq in Hc.
  apply Z2Nat.inj_lt; Z.div_mod_to_equations; lia.
Qed.

Lemma southeast_decreases (st : ray_state) :
  not_file_a_and_not_in File.H st = true ->
  (residue_up (mark_and_step (-7) st) < residue_up st)%nat.
Proof.
  destruct st as [bb sq]; unfold not_file_a_and_not_in, residue_up; simpl.
  intros Hc; apply andb_true_iff in Hc; destruct Hc as [Hc _].
  apply negb_true_iff, Z.eqb_neq in Hc.
  apply Z2Nat.inj_lt; Z.div_mod_to_equations; lia.
Qed.

Lemma northwest_decreases (st : ray_state) :
  not_file_a_and_not_in File.A st = true ->
  (residue_down (mark_and_step 7 st) < residue_down st)%nat.
Proof.
  destruct st as [bb sq]; unfold not_file_a_and_not_in, residue_down; simpl.
  intros Hc; apply andb_true_iff in Hc; destruct Hc as [Hc _].
  apply negb_true_iff, Z.eqb_neq in Hc.
  apply Z2Nat.inj_lt; Z.div_mod_to_equations; lia.
Qed.

Lemma southwest_decreases (st : ray_state) :
  not_file_a st = true ->
  (residue_down (mark_and_step (-9) st) < residue_down st)%nat.
Proof.
  destruct st as [bb sq]; unfold not_file_a, residue_down; simpl.
  intros Hc; apply negb_true_iff, Z.eqb_neq in Hc.
  apply Z2Nat.inj_lt; Z.div_mod_to_equations; lia.
Qed.

Lemma northeast_decreases (st : ray_state) :
  not_file_a st = true ->
  (residue_up (mark_and_step 9 st) < residue_up st)%nat.
Proof.
  destruct st as [bb sq]; unfold not_file_a, residue_up; simpl.
  intros Hc; apply negb_true_iff, Z.eqb_neq in Hc.
  apply Z2Nat.inj_lt; Z.div_mod_to_equations; lia.
Qed.

Definition get_south_ray (bitboard from_square : Z) : Z :=
  let original_from_square := from_square in
  let bitboard :=
    for_in [0; -8; -16; -24; -32; -40; -48; -56]
      (fun bitboard i => Z.lor bitboard (set_bit bitboard (from_square + i)))
      bitboard in
  clear_bit bitboard original_from_square.

Definition get_north_ray (bitboard from_square : Z) : Z :=
  let original_from_square := from_square in
  let bitboard :=
    for_in [0; 8; 16; 24; 32; 40; 48; 56]
      (fun bitboard i => Z.lor bitboard (set_bit bitboard (from_square + i)))
      bitboard in
  clear_bit bitboard original_from_square.

(** The same two functions with their calls of [set_bit] logged: the loop
    state carries, beside the bitboard, the list of the indices handed to
    [set_bit], in the order of the calls.  The loops have no test and no
    [break]: they call [set_bit] once for each offset of the range. *)
Definition get_south_ray_calls (bitboard from_square : Z) : Z * list Z :=
  let original_from_square := from_square in
  let st :=
    for_in [0; -8; -16; -24; -32; -40; -48; -56]
      (fun st i =>
         (Z.lor (fst st) (set_bit (fst st) (from_square + i)),
          snd st ++ [from_square + i]))
      (bitboard, []) in
  (clear_bit (fst st) original_from_square, snd st).

Definition get_north_ray_calls (bitboard from_square : Z) : Z * list Z :=
  let original_from_square := from_square in
  let st :=
    for_in [0; 8; 16; 24; 32; 40; 48; 56]
      (fun st i =>
         (Z.lor (fst st) (set_bit (fst st) (from_square + i)),
          snd st ++ [from_square + i]))
      (bitboard, []) in
  (clear_bit (fst st) original_from_square, snd st).

Definition get_west_ray (bitboard from_square : Z) : Z :=
  let original_from_square := from_square in
  let st := (bitboard, from_square) in
  let st :=
    if snd st mod 8 =? 0 then mark_and_step (-1) st
    else mark (while not_file_a (mark_and_step (-1)) residue_down
                 west_decreases st) in
  clear_bit (fst st) original_from_square.

Definition get_east_ray (bitboard from_square : Z) : Z :=
  let original_from_square := from_square in
  let st := (bitboard, from_square) in
  let st := if snd st mod 8 =? 0 then mark_and_step 1 st else st in
  let st := while not_file_a (mark_and_step 1) residue_up east_decreases st in
  clear_bit (fst st) original_from_square.

Definition get_southeast_ray (bitboard from_square : Z) : Z :=
  let original_from_square := from_square in
  let st := (bitboard, from_square) in
  let st :=
    if (snd st mod 8 =? 0) && negb (py_in (snd st) File.H)
    then mark_and_step (-7) st else st in
  let st := while (not_file_a_and_not_in File.H) (mark_and_step (-7))
              residue_up southeast_decreases st in
  let st := mark st in
  clear_bit (fst st) original_from_square.

Definition get_northwest_ray (bitboard from_square : Z) : Z :=
  let original_from_square := from_square in
  let st := (bitboard, from_square) in
  let st :=
    if (snd st mod 8 =? 0) && negb (py_in (snd st) File.A)
    then mark_and_step 7 st else st in
  let st := while (not_file_a_and_not_in File.A) (mark_and_step 7)
              residue_down northwest_decreases st in
  let st := mark st in
  clear_bit (fst st) original_from_square.

Definition get_southwest_ray (bitboard from_square : Z) : Z :=
  let original_from_square := from_square in
  let st := (bitboard, from_square) in
  let st :=
    if snd st mod 8 =? 0 then mark_and_step (-9) st
    else mark (while not_file_a (mark_and_step (-9)) residue_down
                 southwest_decreases st) in
  clear_bit (fst st) original_from_square.

Definition get_northeast_ray (bitboard from_square : Z) : Z :=
  let original_from_square := from_square in
  let st := (bitboard, from_square) in
  let st := if snd st mod 8 =? 0 then mark_and_step 9 st else st in
  let st := while not_file_a (mark_and_step 9) residue_up
              northeast_decreases st in
  clear_bit (fst st) original_from_square.

(** ** The bishop *)

Definition get_bishop_squares (bitboard : Z) : list Z :=
  filter
    (fun square =>
       truthy (Z.land bitboard (Np.shl (Np.uint64 1) (Np.uint64 square))))
    range64.

Definition gen_bishop_attack (from_square : Z) : Z :=
  let attack_bb := Np.uint64 0 in
  let original_square := from_square in
  let attack_bb := get_northeast_ray attack_bb from_square in
  let attack_bb := get_southwest_ray attack_bb from_square in
  let attack_bb := get_northwest_ray attack_bb from_square in
  let attack_bb := get_southeast_ray attack_bb from_square in
  clear_bit attack_bb original_square.

Definition make_bishop_attack (bitboard : Z) : Z :=
  for_in (get_bishop_squares bitboard)
    (fun bishop_attack square => Z.lor bishop_attack (gen_bishop_attack square))
    (Np.uint64 0).

(** ** The rook *)

Definition get_rook_squares (bitboard : Z) : list Z :=
  filter
    (fun square =>
       truthy (Z.land bitboard (Np.shl (Np.uint64 1) (Np.uint64 square))))
    range64.

Definition gen_rook_attack_row (square : Z) : Z :=
  let attack_bb := Np.uint64 0 in
  let attack_bb := get_north_ray attack_bb square in
  let attack_bb := get_south_ray attack_bb square in
  clear_bit attack_bb square.

Definition gen_rook_attack_file (square : Z) : Z :=
  let attack_bb := Np.uint64 0 in
  let attack_bb := get_east_ray attack_bb square in
  let attack_bb := get_west_ray attack_bb square in
  clear_bit attack_bb square.

Definition make_rook_attack (bitboard : Z) : Z :=
  for_in (get_rook_squares bitboard)
    (fun rook_attack square =>
       Z.lor rook_attack
         (Z.lor (gen_rook_attack_file square) (gen_rook_attack_row square)))
    (Np.uint64 0).

(** ** The queen *)

Definition get_queen_squares (bitboard : Z) : list Z :=
  filter
    (fun square =>
       truthy (Z.land bitboard (Np.shl (Np.uint64 1) (Np.uint64 square))))
    range64.

Definition gen_queen_attack (square : Z) : Z :=
  Z.lor (Z.lor (gen_bishop_attack square) (gen_rook_attack_row square))
        (gen_rook_attack_file square).

Definition make_queen_attack (bitboard : Z) : Z :=
  for_in (get_queen_squares bitboard)
    (fun queen_attack square => Z.lor queen_attack (gen_queen_attack square))
    (Np.uint64 0).

(** ** The board adapter, [class Board] *)

(** The part of the external engine ([chess.Board]) that the adapter reads:
    the occupancy of each colour, [occupied_co = [black, white]], and the
    occupancy of each piece kind.  The engine keeps every mask within 64
    bits ([Engine_wf]); on such masks the conversion
    [np.array(..., dtype=np.uint64)] changes nothing. *)
Record Engine : Type := mkEngine {
  occupied_co : Z * Z;
  pawns : Z;
  rooks : Z;
  knights : Z;
  bishops : Z;
  queens : Z;
  kings : Z
}.

Definition Engine_wf (e : Engine) : Prop :=
  Forall Np.is_uint64
    [fst (occupied_co e); snd (occupied_co e); pawns e; rooks e; knights e;
     bishops e; queens e; kings e].

(** The attributes of a [Board] object once it has been synchronized. *)
Record Board : Type := mkBoard {
  board : Engine;
  black_pawn_bitboard : Z;
  black_rook_bitboard : Z;
  black_knight_bitboard : Z;
  black_bishop_bitboard : Z;
  black_queen_bitboard : Z;
  black_king_bitboard : Z;
  white_pawn_bitboard : Z;
  white_rook_bitboard : Z;
  white_knight_bitboard : Z;
  white_bishop_bitboard : Z;
  white_queen_bitboard : Z;
  white_king_bitboard : Z;
  white_knight_attacks_bitboard : Z;
  black_knight_attacks_bitboard : Z;
  white_bishop_attacks_bitboard : Z;
  black_bishop_attacks_bitboard : Z;
  white_rook_attacks_bitboard : Z;
  black_rook_attacks_bitboard : Z;
  white_queen_attacks_bitboard : Z;
  black_queen_attacks_bitboard : Z;
  white_king_attacks_bitboard : Z;
  black_king_attacks_bitboard : Z
}.

(** *** Properties *)

Definition white_pieces (self : Board) : Z :=
  Z.lor (Z.lor (Z.lor (Z.lor (Z.lor (white_pawn_bitboard self)
    (white_knight_bitboard self)) (white_bishop_bitboard self))
    (white_rook_bitboard self)) (white_queen_bitboard self))
    (white_king_bitboard self).

Definition black_pieces (self : Board) : Z :=
  Z.lor (Z.lor (Z.lor (Z.lor (Z.lor (black_pawn_bitboard self)
    (black_knight_bitboard self)) (black_bishop_bitboard self))
    (black_rook_bitboard self)) (black_queen_bitboard self))
    (black_king_bitboard self).

Definition empty_squares (self : Board) : Z :=
  Np.inv (Z.lor (white_pieces self) (black_pieces self)).

Definition occupied_squares (self : Board) : Z :=
  Z.lor (white_pieces self) (black_pieces self).

Definition white_pawn_east_attacks (self : Board) : Z :=
  Z.land (Np.shl (white_pawn_bitboard self) (Np.uint64 9))
         (Np.inv (Np.uint64 File.hexA)).

Definition white_pawn_west_attacks (self : Board) : Z :=
  Z.land (Np.shl (white_pawn_bitboard self) (Np.uint64 7))
         (Np.inv (Np.uint64 File.hexH)).

Definition white_pawn_attacks (self : Board) : Z :=
  Z.lor (white_pawn_east_attacks self) (white_pawn_west_attacks self).

Definition black_pawn_east_attacks (self : Board) : Z :=
  Z.land (Np.shr (black_pawn_bitboard self) (Np.uint64 7))
         (Np.inv (Np.uint64 File.hexA)).

Definition black_pawn_west_attacks (self : Board) : Z :=
  Z.land (Np.shr (black_pawn_bitboard self) (Np.uint64 9))
         (Np.inv (Np.uint64 File.hexH)).

Definition black_pawn_attacks (self : Board) : Z :=
  Z.lor (black_pawn_east_attacks self) (black_pawn_west_attacks self).

Definition white_knight_attacks (self : Board) : Z :=
  make_knight_attack (white_knight_bitboard self).
Definition black_knight_attacks (self : Board) : Z :=
  make_knight_attack (black_knight_bitboard self).
Definition white_bishop_attacks (self : Board) : Z :=
  make_bishop_attack (white_bishop_bitboard self).
Definition black_bishop_attacks (self : Board) : Z :=
  make_bishop_attack (black_bishop_bitboard self).
Definition white_rook_attacks (self : Board) : Z :=
  make_rook_attack (white_rook_bitboard self).
Definition black_rook_attacks (self : Board) : Z :=
  make_rook_attack (black_rook_bitboard self).
Definition white_queen_attacks (self : Board) : Z :=
  make_queen_attack (white_queen_bitboard self).
Definition black_queen_attacks (self : Board) : Z :=
  make_queen_attack (black_queen_bitboard self).
Definition white_king_attacks (self : Board) : Z :=
  make_king_attack (white_king_bitboard self).
Definition black_king_attacks (self : Board) : Z :=
  make_king_attack (black_king_bitboard self).

(** *** Synchronization with the engine *)

(** How a method call ends: it returns, leaving the object as [self], or an
    exception propagates out of it, leaving the object as [self]. *)
Inductive outcome : Type :=
| Returned (self : Board)
| Raised (self : Board).

(** [Board.update_board]: the twelve masks [colour & kind] are read from the
    engine and stored, then the ten attack fields are recomputed from the
    stored masks through the properties.  The body has no test and no
    [raise]; it ends by falling off its last assignment. *)
Definition update_board (self : Board) : outcome :=
  let '(black, white) := occupied_co (board self) in
  let bit_boards :=
    map Np.uint64
      [ Z.land black (pawns (board self));
        Z.land black (rooks (board self));
        Z.land black (knights (board self));
        Z.land black (bishops (board self));
        Z.land black (queens (board self));
        Z.land black (kings (board self));
        Z.land white (pawns (board self));
        Z.land white (rooks (board self));
        Z.land white (knights (board self));
        Z.land white (bishops (board self));
        Z.land white (queens (board self));
        Z.land white (kings (board self)) ] in
  let item (k : nat) := nth k bit_boards 0 in
  let self :=
    mkBoard (board self)
      (item 0%nat) (item 1%nat) (item 2%nat) (item 3%nat) (item 4%nat)
      (item 5%nat) (item 6%nat) (item 7%nat) (item 8%nat) (item 9%nat)
      (item 10%nat) (item 11%nat)
      (white_knight_attacks_bitboard self) (black_knight_attacks_bitboard self)
      (white_bishop_attacks_bitboard self) (black_bishop_attacks_bitboard self)
      (white_rook_attacks_bitboard self) (black_rook_attacks_bitboard self)
      (white_queen_attacks_bitboard self) (black_queen_attacks_bitboard self)
      (white_king_attacks_bitboard self) (black_king_attacks_bitboard self) in
  let self :=
    mkBoard (board self)
      (black_pawn_bitboard self) (black_rook_bitboard self)
      (black_knight_bitboard self) (black_bishop_bitboard self)
      (black_queen_bitboard self) (black_king_bitboard self)
      (white_pawn_bitboard self) (white_rook_bitboard self)
      (white_knight_bitboard self) (white_bishop_bitboard self)
      (white_queen_bitboard self) (white_king_bitboard self)
      (white_knight_attacks self) (black_knight_attacks self)
      (white_bishop_attacks self) (black_bishop_attacks self)
      (white_rook_attacks self) (black_rook_attacks self)
      (white_queen_attacks self) (black_queen_attacks self)
      (white_king_attacks self) (black_king_attacks self) in
  Returned self.

(** ** Vocabulary of the specification *)

(** Square [j] is a member of the set a bitboard represents. *)
Definition member (j : Z) (bb : Z) : Prop := Z.testbit bb j = true.

Definition on_board (j : Z) : Prop := 0 <= j <= 63.

(** Rank-major numbering: square = rank * 8 + file. *)
Definition file_of (sq : Z) : Z := sq mod 8.
Definition rank_of (sq : Z) : Z := sq / 8.

(** The shape shared by the five [make_*_attack] functions, for a per-square
    attack mask [gen]. *)
Definition aggregate (gen : Z -> Z) (bitboard : Z) : Z :=
  for_in (get_knight_squares bitboard)
    (fun attack square => Z.lor attack (gen square))
    (Np.uint64 0).

(** The squares of a bitboard, lowest first. *)
Definition squares_of (bb : Z) : list Z := filter (Z.testbit bb) range64.

(** The eight compass directions with their file and rank steps. *)
Inductive Direction : Type :=
| North | South | East | West
| NorthEast | NorthWest | SouthEast | SouthWest.

Definition file_step (d : Direction) : Z :=
  match d with
  | North | South => 0
  | East | NorthEast | SouthEast => 1
  | West | NorthWest | SouthWest => -1
  end.

Definition rank_step (d : Direction) : Z :=
  match d with
  | East | West => 0
  | North | NorthEast | NorthWest => 1
  | South | SouthEast | SouthWest => -1
  end.

(** [j] lies on the true ray from [s] in direction [d]: it is on the board
    and is reached from [s] by [k >= 1] steps, each changing the file and
    the rank by the direction's steps.  Files and ranks are those of squares
    of the board, so such a ray never crosses an edge. *)
Definition on_ray (d : Direction) (s j : Z) : Prop :=
  on_board j /\
  exists k, 1 <= k /\
    file_of j = file_of s + k * file_step d /\
    rank_of j = rank_of s + k * rank_step d.

Definition on_rayb (d : Direction) (s j : Z) : bool :=
  (0 <=? j) && (j <=? 63) &&
  existsb (fun k =>
             (file_of j =? file_of s + k * file_step d) &&
             (rank_of j =? rank_of s + k * rank_step d))
          [1; 2; 3; 4; 5; 6; 7].

(** The ray function of each direction. *)
Definition get_ray (d : Direction) : Z -> Z -> Z :=
  match d with
  | North => get_north_ray
  | South => get_south_ray
  | East => get_east_ray
  | West => get_west_ray
  | NorthEast => get_northeast_ray
  | NorthWest => get_northwest_ray
  | SouthEast => get_southeast_ray
  | SouthWest => get_southwest_ray
  end.

Definition all_directions : list Direction :=
  [North; South; East; West; NorthEast; NorthWest; SouthEast; SouthWest].

(** The ray cast from [s] on the empty board is a 64-bit value whose squares
    are those of the true ray: a decidable check, run on every square. *)
Definition ray_table_ok (d : Direction) (s : Z) : bool :=
  let r := get_ray d 0 s in
  (0 <=? r) && (r <? Np.modulus) &&
  forallb (fun j => Bool.eqb (Z.testbit r j) (on_rayb d s j)) range64.

(** The occupancies of the six piece kinds the engine reports for a colour. *)
Definition reported (colour : Z) (e : Engine) : list Z :=
  [ Z.land colour (pawns e); Z.land colour (rooks e);
    Z.land colour (knights e); Z.land colour (bishops e);
    Z.land colour (queens e); Z.land colour (kings e) ].

Fixpoint pairwise_disjoint (l : list Z) : bool :=
  match l with
  | [] => true
  | a :: l' => forallb (fun b => Z.land a b =? 0) l' && pairwise_disjoint l'
  end.

(** Some square is claimed by two piece kinds of one colour. *)
Definition overlapping (e : Engine) : Prop :=
  pairwise_disjoint (reported (fst (occupied_co e)) e) = false \/
  pairwise_disjoint (reported (snd (occupied_co e)) e) = false.

(** An engine state in which a white pawn and a white rook both claim
    square 0, and an adapter whose snapshot was taken on an empty board. *)
Definition doubled_engine : Engine := mkEngine (0, 1) 1 1 0 0 0 0.

Definition stale_board : Board :=
  mkBoard doubled_engine 0 0 0 0 0 0 0 0 0 0 0 0 0 0 0 0 0 0 0 0 0 0.

(** The vertical stepping as the specification words it: the stepping stops
    as soon as the index would reach 64 or go below 0, so every index the
    loop steps to is a square of the board. *)
Definition stops_at_edge (calls : list Z) : Prop := Forall on_board calls.

(** Pawn attacks as the specification words them: a square is attacked when
    the square 9 (resp. 7) below it holds a pawn and it is not on file A
    (resp. H); for black, the square 7 (resp. 9) above it. *)
Definition spec_white_pawn_attack (occupancy j : Z) : Prop :=
  on_board j /\
  ((member (j - 9) occupancy /\ file_of j <> 0) \/
   (member (j - 7) occupancy /\ file_of j <> 7)).

Definition spec_black_pawn_attack (occupancy j : Z) : Prop :=
  on_board j /\
  ((member (j + 7) occupancy /\ file_of j <> 0) \/
   (member (j + 9) occupancy /\ file_of j <> 7)).

(** ** Vocabulary of the further properties *)

(** An adapter holding a white pawn on e2 (square 12) and a black pawn on
    d7 (square 51). *)
Definition two_pawns_engine : Engine :=
  mkEngine (2251799813685248, 4096) 2251799813689344 0 0 0 0 0.

Definition two_pawns_board : Board :=
  mkBoard two_pawns_engine
    2251799813685248 0 0 0 0 0
    4096 0 0 0 0 0
    0 0 0 0 0 0 0 0 0 0.

(** The file and rank distances between two squares. *)
Definition file_distance (s j : Z) : Z := Z.abs (file_of j - file_of s).
Definition rank_distance (s j : Z) : Z := Z.abs (rank_of j - rank_of s).

(** A knight's leap: one file and two ranks away, or two files and one
    rank. *)
Definition knight_move (s j : Z) : Prop :=
  (file_distance s j = 1 /\ rank_distance s j = 2) \/
  (file_distance s j = 2 /\ rank_distance s j = 1).

Definition knight_moveb (s j : Z) : bool :=
  ((file_distance s j =? 1) && (rank_distance s j =? 2)) ||
  ((file_distance s j =? 2) && (rank_distance s j =? 1)).

(** A king's step: another square at most one file and one rank away. *)
Definition king_move (s j : Z) : Prop :=
  j <> s /\ file_distance s j <= 1 /\ rank_distance s j <= 1.

Definition king_moveb (s j : Z) : bool :=
  negb (j =? s) && (file_distance s j <=? 1) && (rank_distance s j <=? 1).

(** The mask of every square is a 64-bit value whose squares are those the
    relation allows: a decidable check, run on every square. *)
Definition attack_table_ok (gen : Z -> Z) (rel : Z -> Z -> bool) : bool :=
  forallb
    (fun s =>
       let r := gen s in
       (0 <=? r) && (r <? Np.modulus) &&
       forallb (fun j => Bool.eqb (Z.testbit r j) (rel s j)) range64)
    range64.

(** The rook mask of a square, as [make_rook_attack] unites it. *)
Definition gen_rook_attack (square : Z) : Z :=
  Z.lor (gen_rook_attack_file square) (gen_rook_attack_row square).

(** The number of squares of a bitboard. *)
Definition count_squares (bb : Z) : nat := length (squares_of bb).


(** The snapshot an adapter holds after synchronizing with engine [e]: the
    twelve masks [colour & kind] and the aggregated attacks of each. *)
Definition synced (e : Engine) : Board :=
  let black := fst (occupied_co e) in
  let white := snd (occupied_co e) in
  mkBoard e
    (Z.land black (pawns e)) (Z.land black (rooks e))
    (Z.land black (knights e)) (Z.land black (bishops e))
    (Z.land black (queens e)) (Z.land black (kings e))
    (Z.land white (pawns e)) (Z.land white (rooks e))
    (Z.land white (knights e)) (Z.land white (bishops e))
    (Z.land white (queens e)) (Z.land white (kings e))
    (make_knight_attack (Z.land white (knights e)))
    (make_knight_attack (Z.land black (knights e)))
    (make_bishop_attack (Z.land white (bishops e)))
    (make_bishop_attack (Z.land black (bishops e)))
    (make_rook_attack (Z.land white (rooks e)))
    (make_rook_attack (Z.land black (rooks e)))
    (make_queen_attack (Z.land white (queens e)))
    (make_queen_attack (Z.land black (queens e)))
    (make_king_attack (Z.land white (kings e)))
    (make_king_attack (Z.land black (kings e))).

(** The squares the engine reports as holding a piece of some kind. *)
Definition any_kind (e : Engine) : Z :=
  Z.lor (Z.lor (Z.lor (Z.lor (Z.lor (pawns e) (knights e)) (bishops e))
                      (rooks e)) (queens e)) (kings e).

(** The twenty-two bitboards an adapter stores. *)
Definition stored_bitboards (self : Board) : list Z :=
  [ black_pawn_bitboard self; black_rook_bitboard self;
    black_knight_bitboard self; black_bishop_bitboard self;
    black_queen_bitboard self; black_king_bitboard self;
    white_pawn_bitboard self; white_rook_bitboard self;
    white_knight_bitboard self; white_bishop_bitboard self;
    white_queen_bitboard self; white_king_bitboard self;
    white_knight_attacks_bitboard self; black_knight_attacks_bitboard self;
    white_bishop_attacks_bitboard self; black_bishop_attacks_bitboard self;
    white_rook_attacks_bitboard self; black_rook_attacks_bitboard self;
    white_queen_attacks_bitboard self; black_queen_attacks_bitboard self;
    white_king_attacks_bitboard self; black_king_attacks_bitboard self ].


(** ** Conversion of bitboards to arrays *)

(** [v.astype(np.uint8)] on one element. *)
Definition np_uint8 (v : Z) : Z := v mod 256.

(** [8 * np.arange(7, -1, -1, dtype=np.uint64)] *)
Definition byte_shifts : list Z :=
  map (fun k => Np.uint64 (8 * k)) [7; 6; 5; 4; 3; 2; 1; 0].

(** [np.unpackbits(bytes, bitorder="little")]: the eight bits of each byte,
    lowest first, one after the other. *)
Definition unpackbits_little (bytes : list Z) : list Z :=
  flat_map
    (fun byte => map (fun i => Z.b2z (Z.testbit byte i)) [0; 1; 2; 3; 4; 5; 6; 7])
    bytes.

(** [flat.reshape(rows, cols)] *)
Fixpoint reshape (rows cols : nat) (flat : list Z) : list (list Z) :=
  match rows with
  | O => []
  | S rows' => firstn cols flat :: reshape rows' cols (skipn cols flat)
  end.

(** [flat.reshape(-1, 8, 8)], for [boards] boards. *)
Fixpoint reshape_boards (boards : nat) (flat : list Z) : list (list (list Z)) :=
  match boards with
  | O => []
  | S boards' =>
      reshape 8 8 (firstn 64 flat) :: reshape_boards boards' (skipn 64 flat)
  end.

Definition bitboard_to_array (bit_board : Z) : list (list Z) :=
  let set := byte_shifts in
  let bit := map (fun shift => np_uint8 (Np.shr bit_board shift)) set in
  let bit := unpackbits_little bit in
  reshape 8 8 bit.

Definition bitboards_to_array (bit_boards : list Z) : list (list (list Z)) :=
  let set := byte_shifts in
  let bit :=
    map (fun bit_board => map (fun shift => np_uint8 (Np.shr bit_board shift)) set)
        bit_boards in
  let bit := unpackbits_little (concat bit) in
  reshape_boards (Nat.div (length bit) 64) bit.

(** The entry [array[r][f]] of an array, for indices within it. *)
Definition cell (array : list (list Z)) (r f : Z) : Z :=
  nth (Z.to_nat f) (nth (Z.to_nat r) array []) 0.

(** An 8 by 8 array. *)
Definition well_shaped {A : Type} (array : list (list A)) : Prop :=
  length array = 8%nat /\ Forall (fun row => length row = 8%nat) array.

(** ** Printing *)

(** The exceptions the printing functions can raise. *)
Inductive exception : Type := IndexError | KeyError.

(** A computation that writes to the standard output and returns a value or
    raises: it maps the text written so far to the text written after it
    and its result. *)
Definition py (A : Type) : Type := string -> string * (exception + A).

Definition ret {A : Type} (a : A) : py A := fun out => (out, inr a).

Definition raise {A : Type} (e : exception) : py A := fun out => (out, inl e).

Definition bind {A B : Type} (m : py A) (k : A -> py B) : py B :=
  fun out =>
    match m out with
    | (out', inl e) => (out', inl e)
    | (out', inr a) => k a out'
    end.

Declare Scope py_scope.
Delimit Scope py_scope with py.
Notation "x <- m ;; k" := (bind m (fun x => k))
  (at level 61, m at next level, right associativity) : py_scope.
Notation "m ;; k" := (bind m (fun _ => k))
  (at level 61, right associativity) : py_scope.

Definition newline : string := String (ascii_of_nat 10) EmptyString.

(** [print(text, end=end_)] *)
Definition print_end (text end_ : string) : py unit :=
  fun out => ((out ++ text ++ end_)%string, inr tt).

(** [print(text)] *)
Definition print (text : string) : py unit := print_end text newline.

(** [str(n)] of an integer. *)
Definition str (n : Z) : string := NilZero.string_of_int (Z.to_int n).

(** [for x in xs: body(x)] *)
Fixpoint for_each {B : Type} (xs : list B) (body : B -> py unit) : py unit :=
  match xs with
  | [] => ret tt
  | x :: xs' => (body x ;; for_each xs' body)%py
  end.

(** [for x in xs: acc = body(acc, x)], where the body can print and raise. *)
Fixpoint fold_each {A B : Type} (xs : list B) (body : A -> B -> py A) (acc : A)
  : py A :=
  match xs with
  | [] => ret acc
  | x :: xs' => (acc' <- body acc x ;; fold_each xs' body acc')%py
  end.

(** [l[i]] for an index [i >= 0]: [IndexError] past the end. *)
Definition getitem {A : Type} (l : list A) (i : Z) : py A :=
  match nth_error l (Z.to_nat i) with
  | Some a => ret a
  | None => raise IndexError
  end.

(** [l[i] = v] for an index within the list. *)
Fixpoint list_set {A : Type} (l : list A) (i : nat) (v : A) : list A :=
  match l, i with
  | [], _ => []
  | _ :: l', O => v :: l'
  | a :: l', S i' => a :: list_set l' i' v
  end.

(** [range(8)] *)
Definition range8 : list Z := [0; 1; 2; 3; 4; 5; 6; 7].

(** [print_bitboard], whose argument is indexed as an 8 by 8 array
    [bitboard[rank][file]]. *)
Definition print_bitboard (bitboard : list (list Z)) : py unit :=
  (print "   a b c d e f g h" ;;
   print "  -----------------" ;;
   for_each range8
     (fun rank =>
        print_end (str (8 - rank)) " | " ;;
        for_each range8
          (fun file =>
             let square := rank * 8 + file in
             row <- getitem bitboard rank ;;
             piece <- getitem row file ;;
             if piece =? 1 then print_end "p" " " else print_end "." " ") ;;
        print "|") ;;
   print "  -----------------")%py.

(** The dictionary [piece_symbols], and [piece_symbols[key]]. *)
Definition piece_symbols : list (Z * string) :=
  [ (0, "p"); (1, "n"); (2, "b"); (3, "r"); (4, "q"); (5, "k");
    (6, "P"); (7, "N"); (8, "B"); (9, "R"); (10, "Q"); (11, "K") ]%string.

Definition dict_get (d : list (Z * string)) (key : Z) : py string :=
  match find (fun kv => fst kv =? key) d with
  | Some kv => ret (snd kv)
  | None => raise KeyError
  end.

(** [enumerate(xs)] *)
Definition enumerate {A : Type} (xs : list A) : list (Z * A) :=
  combine (map Z.of_nat (seq 0 (length xs))) xs.

(** [main_board[rank][file] = v]; the rows of [main_board] are separate
    lists, so only one cell changes. *)
Definition setitem2 (main_board : list (list string)) (rank file : Z)
  (v : string) : list (list string) :=
  list_set main_board (Z.to_nat rank)
    (list_set (nth (Z.to_nat rank) main_board []) (Z.to_nat file) v).

Definition print_entire_board (bitboards : list (list (list Z))) : py unit :=
  (let main_board := repeat (repeat "."%string 8) 8 in
   main_board <-
     fold_each (enumerate bitboards)
       (fun main_board bit_board =>
          fold_each range8
            (fun main_board rank =>
               fold_each range8
                 (fun main_board file =>
                    row <- getitem (snd bit_board) rank ;;
                    piece <- getitem row file ;;
                    if piece =? 1
                    then symbol <- dict_get piece_symbols (fst bit_board) ;;
                         ret (setitem2 main_board rank file symbol)
                    else ret main_board)
                 main_board)
            main_board)
       main_board ;;
   print "   a b c d e f g h" ;;
   print "  -----------------" ;;
   for_each range8
     (fun rank =>
        print_end (str (8 - rank)) " | " ;;
        for_each range8
          (fun file =>
             row <- getitem main_board rank ;;
             symbol <- getitem row file ;;
             print_end symbol " ") ;;
        print "|"))%py.


(** *** The text of a board dump *)

(** The strings of a list, one after the other. *)
Definition join (parts : list string) : string :=
  fold_right String.append EmptyString parts.

(** One printed row: its label [8 - rank], the eight glyphs each followed
    by a space, and the closing bar. *)
Definition row_text (glyph : Z -> Z -> string) (rank : Z) : string :=
  (str (8 - rank) ++ " | "
   ++ join (map (fun file => glyph rank file ++ " ") range8)
   ++ "|" ++ newline)%string.

Definition header_text : string :=
  ("   a b c d e f g h" ++ newline ++ "  -----------------" ++ newline)%string.

Definition footer_text : string := ("  -----------------" ++ newline)%string.

Definition rows_text (glyph : Z -> Z -> string) : string :=
  join (map (row_text glyph) range8).

(** The glyph [print_bitboard] shows for an entry of the array. *)
Definition pawn_glyph (entry : Z) : string :=
  if entry =? 1 then "p"%string else "."%string.

(** The symbol of the key of a board, where the dictionary has one. *)
Definition symbol_of (key : Z) : string :=
  match find (fun kv => fst kv =? key) piece_symbols with
  | Some kv => snd kv
  | None => "."%string
  end.

(** The glyph [print_entire_board] shows for a cell: the symbol of the last
    board of the list that has a 1 there, a dot when none has. *)
Definition top_symbol (bitboards : list (list (list Z))) (rank file : Z)
  : string :=
  fold_left
    (fun glyph bit_board =>
       if cell (snd bit_board) rank file =? 1
       then symbol_of (fst bit_board) else glyph)
    (enumerate bitboards) "."%string.

(** Some entry of an 8 by 8 array is 1. *)
Definition has_piece (array : list (list Z)) : bool :=
  existsb (fun rank => existsb (fun file => cell array rank file =? 1) range8)
          range8.

(** Some board whose position in the list is 12 or more has a piece. *)
Definition has_unnamed_piece (bitboards : list (list (list Z))) : bool :=
  existsb (fun bit_board => (12 <=? fst bit_board) && has_piece (snd bit_board))
          (enumerate bitboards).


(** The entry [main_board[r][f]] of a table of symbols. *)
Definition scell (main_board : list (list string)) (r f : Z) : string :=
  nth (Z.to_nat f) (nth (Z.to_nat r) main_board []) EmptyString.

(** Painting the symbol of [key] on the cells where [array] has a 1. *)
Definition paint (key : Z) (array : list (list Z))
  (main_board : list (list string)) : list (list string) :=
  fold_left
    (fun main_board rank =>
       fold_left
         (fun main_board file =>
            if cell array rank file =? 1
            then setitem2 main_board rank file (symbol_of key)
            else main_board)
         range8 main_board)
    range8 main_board.


(** One board of the list handled without an error: painted when its key
    has a symbol, passed over when it has none. *)
Definition paint_step (main_board : list (list string))
  (bit_board : Z * list (list Z)) : list (list string) :=
  if 12 <=? fst bit_board then main_board
  else paint (fst bit_board) (snd bit_board) main_board.


(** * Properties *)

(** ** The loop equation *)

Section WhileFacts.

Context {St : Type}.
Variable cond : St -> bool.
Variable body : St -> St.
Variable measure : St -> nat.
Hypothesis decreases :
  forall s, cond s = true -> (measure (body s) < measure s)%nat.

(** One turn of the loop: test, then run the body and go on, or stop. *)
Lemma while_step (s : St) :
  while cond body measure decreases s
  = if cond s then while cond body measure decreases (body s) else s.
Proof.
  rewrite while_equation_1.
  generalize (inspect (cond s)); intros [b E].
  destruct b; simpl; rewrite E; reflexivity.
Qed.

(** The loop ends with its test false. *)
Lemma while_exit (s : St) :
  cond (while cond body measure decreases s) = false.
Proof.
  remember (measure s) as n eqn:Hn. revert s Hn.
  induction n as [n IH] using lt_wf_ind. intros s Hn.
  rewrite while_step. destruct (cond s) eqn:Hc.
  - apply (IH (measure (body s))); [| reflexivity].
    subst n. apply decreases, Hc.
  - exact Hc.
Qed.

End WhileFacts.

(** ** Bits of the uint64 operations *)

Section Bits.

Lemma modulus_eq : Np.modulus = 2 ^ 64.
Proof. reflexivity. Qed.

Lemma testbit_uint64 (a j : Z) :
  Z.testbit (Np.uint64 a) j = (j <? 64) && Z.testbit a j.
Proof.
  unfold Np.uint64; rewrite modulus_eq.
  destruct (Z.ltb_spec j 64) as [Hj | Hj]; cbn [andb orb negb].
  - destruct (Z.ltb_spec j 0) as [Hn | Hn].
    + now rewrite !Z.testbit_neg_r.
    + apply Z.mod_pow2_bits_low; lia.
  - apply Z.mod_pow2_bits_high; lia.
Qed.

Lemma uint64_range (a : Z) : Np.is_uint64 (Np.uint64 a).
Proof. unfold Np.is_uint64, Np.uint64. apply Z.mod_pos_bound. reflexivity. Qed.

Lemma uint64_small (a : Z) : Np.is_uint64 a -> Np.uint64 a = a.
Proof. intros Ha. apply Z.mod_small. exact Ha. Qed.

(** The mask [1 << np.uint64(sq)] has bit [sq] when [sq] is a square of
    the board and is empty otherwise: a negative index wraps to a shift
    count above 63. *)
Lemma testbit_one_shl (sq j : Z) :
  64 - Np.modulus <= sq < Np.modulus ->
  Z.testbit (Np.shl 1 (Np.uint64 sq)) j = (j =? sq) && (0 <=? sq) && (sq <? 64).
Proof.
  rewrite modulus_eq. intros Hsq. unfold Np.shl.
  destruct (Z.leb_spec 0 sq) as [Hp | Hn].
  - rewrite uint64_small by (unfold Np.is_uint64; rewrite modulus_eq; lia).
    destruct (Z.ltb_spec sq 64) as [Hlt | Hge].
    + rewrite Z.shiftl_1_l.
      change ((2 ^ sq) mod Np.modulus) with (Np.uint64 (2 ^ sq)).
      rewrite testbit_uint64, Z.pow2_bits_eqb by lia.
      rewrite (Z.eqb_sym sq j).
      destruct (Z.eqb_spec j sq) as [-> | Hne]; cbn [andb orb negb].
      * destruct (Z.ltb_spec sq 64); [reflexivity | lia].
      * now rewrite andb_false_r.
    + rewrite Z.testbit_0_l. now rewrite !andb_false_r.
  - assert (Hw : Np.uint64 sq = sq + 2 ^ 64).
    { unfold Np.uint64. rewrite modulus_eq.
      symmetry. apply (Z.mod_unique_pos sq (2 ^ 64) (-1)); lia. }
    rewrite Hw.
    destruct (Z.ltb_spec (sq + 2 ^ 64) 64) as [Hlt | Hge]; [lia |].
    rewrite Z.testbit_0_l. now rewrite andb_false_r.
Qed.

Lemma one_shl_range (sq : Z) : Np.is_uint64 (Np.shl 1 sq).
Proof.
  unfold Np.shl. destruct (sq <? 64).
  - apply uint64_range.
  - unfold Np.is_uint64. rewrite modulus_eq. lia.
Qed.

Lemma testbit_inv (a j : Z) :
  Z.testbit (Np.inv a) j = (0 <=? j) && (j <? 64) && negb (Z.testbit a j).
Proof.
  unfold Np.inv. change ((Z.lnot a) mod Np.modulus) with (Np.uint64 (Z.lnot a)).
  rewrite testbit_uint64.
  destruct (Z.leb_spec 0 j) as [Hj | Hj]; cbn [andb orb negb].
  - now rewrite Z.lnot_spec by assumption.
  - rewrite (Z.testbit_neg_r (Z.lnot a)) by assumption. apply andb_false_r.
Qed.

Lemma testbit_set_bit (bb sq j : Z) :
  64 - Np.modulus <= sq < Np.modulus ->
  Z.testbit (set_bit bb sq) j =
  (j <? 64) && (Z.testbit bb j || (j =? sq) && (0 <=? sq) && (sq <? 64)).
Proof.
  intros Hsq. unfold set_bit.
  rewrite testbit_uint64, Z.lor_spec.
  change (Np.uint64 1) with 1. now rewrite testbit_one_shl.
Qed.

Lemma testbit_clear_bit (bb sq j : Z) :
  64 - Np.modulus <= sq < Np.modulus ->
  Z.testbit (clear_bit bb sq) j =
  Z.testbit bb j && ((0 <=? j) && (j <? 64) &&
                     negb ((j =? sq) && (0 <=? sq) && (sq <? 64))).
Proof.
  intros Hsq. unfold clear_bit.
  rewrite Z.land_spec, testbit_inv.
  change (Np.uint64 1) with 1. now rewrite testbit_one_shl.
Qed.

Lemma testbit_high (a j : Z) :
  Np.is_uint64 a -> 64 <= j -> Z.testbit a j = false.
Proof.
  intros Ha Hj. rewrite <- (uint64_small a Ha), testbit_uint64.
  destruct (Z.ltb_spec j 64); [lia | reflexivity].
Qed.

Lemma square_is_index (s : Z) :
  0 <= s <= 63 -> 64 - Np.modulus <= s < Np.modulus.
Proof. rewrite modulus_eq. lia. Qed.

End Bits.

(** ** Setting and clearing a bit *)

(** C7: for every 64-bit bitboard [bb] and every square [s] of the board,
    [clear_bit(set_bit(bb, s), s) == bb & ~(1 << s)]; bit [s] of the result
    is clear and every other bit is the bit of [bb]. *)
Theorem clear_bit_set_bit (bb s : Z) :
  Np.is_uint64 bb -> 0 <= s <= 63 ->
  clear_bit (set_bit bb s) s = Z.land bb (Np.inv (Np.shl 1 (Np.uint64 s))) /\
  Z.testbit (clear_bit (set_bit bb s) s) s = false /\
  (forall j, j <> s ->
             Z.testbit (clear_bit (set_bit bb s) s) j = Z.testbit bb j).
Proof.
  intros Hbb Hs. pose proof (square_is_index s Hs) as Hi.
  assert (Hbit : forall j,
             Z.testbit (clear_bit (set_bit bb s) s) j =
             Z.testbit bb j && negb (j =? s)).
  { intros j. rewrite testbit_clear_bit, testbit_set_bit by assumption.
    destruct (Z.leb_spec 0 s), (Z.ltb_spec s 64); try lia.
    rewrite !andb_true_r.
    destruct (Z.eqb_spec j s) as [-> | Hne]; cbn [andb orb negb].
    - now rewrite !andb_false_r.
    - rewrite !andb_true_r, orb_false_r.
      destruct (Z.ltb_spec j 64) as [Hlt | Hge]; cbn [andb orb negb].
      + destruct (Z.leb_spec 0 j); cbn [andb orb negb].
        * now destruct (Z.testbit bb j).
        * now rewrite Z.testbit_neg_r by assumption.
      + now rewrite testbit_high by assumption. }
  split; [| split].
  - apply Z.bits_inj'. intros j Hj.
    rewrite Hbit, Z.land_spec, testbit_inv, testbit_one_shl by assumption.
    destruct (Z.leb_spec 0 s), (Z.ltb_spec s 64); try lia.
    rewrite !andb_true_r.
    destruct (Z.leb_spec 0 j); try lia; cbn [andb orb negb].
    destruct (Z.ltb_spec j 64) as [Hlt | Hge]; cbn [andb orb negb]; [reflexivity |].
    now rewrite testbit_high by assumption.
  - rewrite Hbit, Z.eqb_refl. apply andb_false_r.
  - intros j Hne. rewrite Hbit.
    destruct (Z.eqb_spec j s); [contradiction | apply andb_true_r].
Qed.

Lemma clear_bit_set_bit_witness :
  clear_bit (set_bit 5 1) 1 = Z.land 5 (Np.inv (Np.shl 1 (Np.uint64 1))) /\
  Z.testbit (clear_bit (set_bit 5 1) 1) 1 = false /\
  (forall j, j <> 1 ->
             Z.testbit (clear_bit (set_bit 5 1) 1) j = Z.testbit 5 j).
Proof.
  apply (clear_bit_set_bit 5 1).
  - unfold Np.is_uint64; rewrite modulus_eq; lia.
  - lia.
Defined.

(** ** Enumerating the board *)

Lemma in_range64 (j : Z) : In j range64 <-> 0 <= j <= 63.
Proof.
  unfold range64. rewrite in_map_iff. split.
  - intros [n [<- Hn]]. apply in_seq in Hn. lia.
  - intros Hj. exists (Z.to_nat j). split; [lia | apply in_seq; lia].
Qed.

(** A boolean fact checked on the 64 squares holds of every square. *)
Lemma forall_squares (P : Z -> bool) :
  forallb P range64 = true -> forall j, 0 <= j <= 63 -> P j = true.
Proof.
  intros Hall j Hj. rewrite forallb_forall in Hall.
  apply Hall, in_range64, Hj.
Qed.

Lemma member_squares_of (a j : Z) :
  Np.is_uint64 a -> (member j a <-> In j (squares_of a)).
Proof.
  intros Ha. unfold squares_of, member. rewrite filter_In, in_range64. split.
  - intros Hm. split; [| exact Hm].
    destruct (Z.ltb_spec j 0) as [Hn | Hn].
    + rewrite Z.testbit_neg_r in Hm by assumption. discriminate.
    + destruct (Z.ltb_spec 63 j) as [Hh | Hh]; [| lia].
      rewrite testbit_high in Hm by (assumption || lia). discriminate.
  - intros [_ Hm]. exact Hm.
Qed.

(** ** File masks *)

Lemma testbit_hexA (j : Z) :
  0 <= j <= 63 -> Z.testbit File.hexA j = (file_of j =? 0).
Proof.
  intros Hj. apply eqb_prop.
  apply (forall_squares
           (fun j => Bool.eqb (Z.testbit File.hexA j) (file_of j =? 0)));
    [vm_compute; reflexivity | exact Hj].
Qed.

Lemma testbit_hexH (j : Z) :
  0 <= j <= 63 -> Z.testbit File.hexH j = (file_of j =? 7).
Proof.
  intros Hj. apply eqb_prop.
  apply (forall_squares
           (fun j => Bool.eqb (Z.testbit File.hexH j) (file_of j =? 7)));
    [vm_compute; reflexivity | exact Hj].
Qed.

(** ** Jump pieces at the corner *)

(** C4: the knight attack mask of square 0 is the bitboard with bits 10 and
    17 set and no other bit set. *)
Theorem gen_knight_attack_corner :
  gen_knight_attack 0 = Z.lor (Z.shiftl 1 10) (Z.shiftl 1 17) /\
  squares_of (gen_knight_attack 0) = [10; 17] /\
  (forall j, member j (gen_knight_attack 0) <-> j = 10 \/ j = 17).
Proof.
  assert (Hv : gen_knight_attack 0 = 132096) by (vm_compute; reflexivity).
  assert (Hs : squares_of (gen_knight_attack 0) = [10; 17])
    by (vm_compute; reflexivity).
  split; [rewrite Hv; reflexivity | split; [exact Hs |]].
  intros j. rewrite member_squares_of, Hs.
  - simpl. intuition congruence.
  - rewrite Hv. unfold Np.is_uint64. rewrite modulus_eq. lia.
Qed.

(** C5: the king attack mask of square 0 is the bitboard with bits 1, 8 and
    9 set and no other bit set. *)
Theorem gen_king_attack_corner :
  gen_king_attack 0 =
    Z.lor (Z.lor (Z.shiftl 1 1) (Z.shiftl 1 8)) (Z.shiftl 1 9) /\
  squares_of (gen_king_attack 0) = [1; 8; 9] /\
  (forall j, member j (gen_king_attack 0) <-> j = 1 \/ j = 8 \/ j = 9).
Proof.
  assert (Hv : gen_king_attack 0 = 770) by (vm_compute; reflexivity).
  assert (Hs : squares_of (gen_king_attack 0) = [1; 8; 9])
    by (vm_compute; reflexivity).
  split; [rewrite Hv; reflexivity | split; [exact Hs |]].
  intros j. rewrite member_squares_of, Hs.
  - simpl. intuition congruence.
  - rewrite Hv. unfold Np.is_uint64. rewrite modulus_eq. lia.
Qed.

(** ** Pawn attacks *)

Lemma testbit_shl_const (bb n j : Z) :
  0 <= n < 64 ->
  Z.testbit (Np.shl bb (Np.uint64 n)) j = (j <? 64) && Z.testbit bb (j - n).
Proof.
  intros Hn. unfold Np.shl.
  rewrite uint64_small by (unfold Np.is_uint64; rewrite modulus_eq; lia).
  destruct (Z.ltb_spec n 64); [| lia].
  change ((Z.shiftl bb n) mod Np.modulus) with (Np.uint64 (Z.shiftl bb n)).
  rewrite testbit_uint64.
  destruct (Z.ltb_spec j 0) as [Hj | Hj].
  - rewrite (Z.testbit_neg_r _ j), (Z.testbit_neg_r _ (j - n)) by lia.
    reflexivity.
  - now rewrite Z.shiftl_spec by assumption.
Qed.

Lemma testbit_shr_const (bb n j : Z) :
  0 <= n < 64 -> 0 <= j ->
  Z.testbit (Np.shr bb (Np.uint64 n)) j = Z.testbit bb (j + n).
Proof.
  intros Hn Hj. unfold Np.shr.
  rewrite uint64_small by (unfold Np.is_uint64; rewrite modulus_eq; lia).
  destruct (Z.ltb_spec n 64); [| lia].
  now rewrite Z.shiftr_spec by assumption.
Qed.

(** Membership in a bitboard with one file masked off. *)
Lemma member_masked (bb mask j f : Z) :
  (forall i, 0 <= i <= 63 -> Z.testbit mask i = (file_of i =? f)) ->
  Np.is_uint64 mask ->
  (member j (Z.land bb (Np.inv (Np.uint64 mask))) <->
   on_board j /\ member j bb /\ file_of j <> f).
Proof.
  intros Hmask Hu. unfold member, on_board.
  rewrite uint64_small, Z.land_spec, testbit_inv by assumption.
  destruct (Z.leb_spec 0 j) as [H0 | H0], (Z.ltb_spec j 64) as [H1 | H1];
    cbn [andb]; rewrite ?andb_false_r;
    try (split; [discriminate | intros [? _]; lia]).
  rewrite Hmask by lia.
  destruct (Z.eqb_spec (file_of j) f) as [He | He], (Z.testbit bb j);
    cbn [andb negb]; split; try discriminate; try tauto;
    intros; repeat split; (lia || tauto || assumption).
Qed.

(** C8: the white pawn attack mask is the occupancy shifted left by 9 with
    file A masked off, united with the occupancy shifted left by 7 with
    file H masked off; the black pawn attack mask is the occupancy shifted
    right by 7 with file A masked off, united with the occupancy shifted
    right by 9 with file H masked off.  Both as equations between bitboards
    and square by square, in the words of the specification. *)
Theorem pawn_attacks_are_masked_shifts (self : Board) :
  white_pawn_attacks self
  = Z.lor (Z.land (Np.shl (white_pawn_bitboard self) 9) (Np.inv File.hexA))
          (Z.land (Np.shl (white_pawn_bitboard self) 7) (Np.inv File.hexH)) /\
  black_pawn_attacks self
  = Z.lor (Z.land (Np.shr (black_pawn_bitboard self) 7) (Np.inv File.hexA))
          (Z.land (Np.shr (black_pawn_bitboard self) 9) (Np.inv File.hexH)) /\
  (forall j, member j (white_pawn_attacks self) <->
             spec_white_pawn_attack (white_pawn_bitboard self) j) /\
  (forall j, member j (black_pawn_attacks self) <->
             spec_black_pawn_attack (black_pawn_bitboard self) j).
Proof.
  split; [reflexivity | split; [reflexivity |]].
  assert (HA : Np.is_uint64 File.hexA)
    by (unfold Np.is_uint64; rewrite modulus_eq; vm_compute; split; congruence).
  assert (HH : Np.is_uint64 File.hexH)
    by (unfold Np.is_uint64; rewrite modulus_eq; vm_compute; split; congruence).
  split; intros j.
  - unfold white_pawn_attacks, white_pawn_east_attacks, white_pawn_west_attacks,
      spec_white_pawn_attack.
    unfold member at 1. rewrite Z.lor_spec, orb_true_iff.
    fold (member j (Z.land (Np.shl (white_pawn_bitboard self) (Np.uint64 9))
                           (Np.inv (Np.uint64 File.hexA)))).
    fold (member j (Z.land (Np.shl (white_pawn_bitboard self) (Np.uint64 7))
                           (Np.inv (Np.uint64 File.hexH)))).
    rewrite (member_masked _ _ j 0 testbit_hexA HA).
    rewrite (member_masked _ _ j 7 testbit_hexH HH).
    unfold member, on_board. rewrite !testbit_shl_const by lia.
    destruct (Z.ltb_spec j 64); cbn [andb]; intuition (discriminate || lia).
  - unfold black_pawn_attacks, black_pawn_east_attacks, black_pawn_west_attacks,
      spec_black_pawn_attack.
    unfold member at 1. rewrite Z.lor_spec, orb_true_iff.
    fold (member j (Z.land (Np.shr (black_pawn_bitboard self) (Np.uint64 7))
                           (Np.inv (Np.uint64 File.hexA)))).
    fold (member j (Z.land (Np.shr (black_pawn_bitboard self) (Np.uint64 9))
                           (Np.inv (Np.uint64 File.hexH)))).
    rewrite (member_masked _ _ j 0 testbit_hexA HA).
    rewrite (member_masked _ _ j 7 testbit_hexH HH).
    unfold member, on_board.
    split.
    + intros [[Hb [Hm Hf]] | [Hb [Hm Hf]]];
        rewrite testbit_shr_const in Hm by lia; tauto.
    + intros [Hb [[Hm Hf] | [Hm Hf]]]; [left | right];
        rewrite testbit_shr_const by lia; tauto.
Qed.

(** ** Aggregation over an occupancy *)

Lemma truthy_land_bit (bb sq : Z) :
  0 <= sq <= 63 ->
  truthy (Z.land bb (Np.shl (Np.uint64 1) (Np.uint64 sq))) = Z.testbit bb sq.
Proof.
  intros Hsq. pose proof (square_is_index sq Hsq) as Hi.
  change (Np.uint64 1) with 1. unfold truthy.
  destruct (Z.testbit bb sq) eqn:Hb.
  - apply negb_true_iff, Z.eqb_neq. intros Hz.
    assert (Hc : Z.testbit (Z.land bb (Np.shl 1 (Np.uint64 sq))) sq = true).
    { rewrite Z.land_spec, Hb, testbit_one_shl by assumption.
      rewrite Z.eqb_refl.
      destruct (Z.leb_spec 0 sq), (Z.ltb_spec sq 64); (reflexivity || lia). }
    rewrite Hz, Z.testbit_0_l in Hc. discriminate.
  - apply negb_false_iff, Z.eqb_eq, Z.bits_inj'. intros j Hj.
    rewrite Z.land_spec, testbit_one_shl, Z.testbit_0_l by assumption.
    destruct (Z.eqb_spec j sq) as [-> | Hne]; cbn [andb].
    + rewrite Hb. reflexivity.
    + apply andb_false_r.
Qed.

(** The scan of [range(64)] returns the squares of the occupancy, lowest
    first. *)
Lemma get_squares_spec (bitboard : Z) :
  get_knight_squares bitboard = squares_of bitboard.
Proof.
  unfold get_knight_squares, squares_of.
  apply filter_ext_in. intros sq Hsq.
  apply truthy_land_bit, in_range64, Hsq.
Qed.

Section Aggregate.

(** The per-square attack mask of a piece kind. *)
Variable gen : Z -> Z.

Lemma testbit_union_over (l : list Z) (acc j : Z) :
  Z.testbit (for_in l (fun attack square => Z.lor attack (gen square)) acc) j
  = Z.testbit acc j || existsb (fun sq => Z.testbit (gen sq) j) l.
Proof.
  unfold for_in. revert acc.
  induction l as [| x l IH]; intros acc; simpl.
  - now rewrite orb_false_r.
  - rewrite IH, Z.lor_spec. now rewrite orb_assoc.
Qed.

Lemma existsb_filter (p q : Z -> bool) (l : list Z) :
  existsb q (filter p l) = existsb (fun x => p x && q x) l.
Proof.
  induction l as [| x l IH]; simpl; [reflexivity |].
  destruct (p x); simpl; now rewrite IH.
Qed.

Lemma existsb_orb (p q : Z -> bool) (l : list Z) :
  existsb (fun x => p x || q x) l = existsb p l || existsb q l.
Proof.
  induction l as [| x l IH]; simpl; [reflexivity |].
  rewrite IH. destruct (p x), (q x), (existsb p l); reflexivity.
Qed.

Lemma existsb_pointwise (p q : Z -> bool) (l : list Z) :
  (forall x, p x = q x) -> existsb p l = existsb q l.
Proof.
  intros Hpq. induction l as [| x l IH]; simpl; [reflexivity |].
  now rewrite Hpq, IH.
Qed.

(** A square is attacked by the aggregate exactly when some occupied
    square attacks it. *)
Lemma testbit_aggregate (bitboard j : Z) :
  Z.testbit (aggregate gen bitboard) j
  = existsb (fun sq => Z.testbit bitboard sq && Z.testbit (gen sq) j) range64.
Proof.
  unfold aggregate. rewrite testbit_union_over, get_squares_spec.
  change (Np.uint64 0) with 0. rewrite Z.testbit_0_l. cbn [orb].
  unfold squares_of. apply existsb_filter.
Qed.

Lemma aggregate_union (a b : Z) :
  aggregate gen (Z.lor a b) = Z.lor (aggregate gen a) (aggregate gen b).
Proof.
  apply Z.bits_inj. intros j.
  rewrite Z.lor_spec, !testbit_aggregate, <- existsb_orb.
  apply existsb_pointwise. intros sq. rewrite Z.lor_spec.
  destruct (Z.testbit a sq), (Z.testbit b sq), (Z.testbit (gen sq) j);
    reflexivity.
Qed.

Lemma aggregate_empty : aggregate gen 0 = 0.
Proof.
  apply Z.bits_inj. intros j.
  rewrite testbit_aggregate, Z.testbit_0_l.
  generalize range64. intros l.
  induction l as [| x l IH]; simpl; [reflexivity |].
  now rewrite Z.testbit_0_l.
Qed.

End Aggregate.


Lemma make_knight_is_aggregate (bb : Z) :
  make_knight_attack bb = aggregate gen_knight_attack bb.
Proof. unfold make_knight_attack, aggregate. reflexivity. Qed.

Lemma make_bishop_is_aggregate (bb : Z) :
  make_bishop_attack bb = aggregate gen_bishop_attack bb.
Proof.
  unfold make_bishop_attack, aggregate, get_bishop_squares, get_knight_squares.
  reflexivity.
Qed.

Lemma make_rook_is_aggregate (bb : Z) :
  make_rook_attack bb
  = aggregate (fun square => Z.lor (gen_rook_attack_file square)
                                   (gen_rook_attack_row square)) bb.
Proof.
  unfold make_rook_attack, aggregate, get_rook_squares, get_knight_squares.
  reflexivity.
Qed.

Lemma make_queen_is_aggregate (bb : Z) :
  make_queen_attack bb = aggregate gen_queen_attack bb.
Proof.
  unfold make_queen_attack, aggregate, get_queen_squares, get_knight_squares.
  reflexivity.
Qed.

Lemma make_king_is_aggregate (bb : Z) :
  make_king_attack bb = aggregate gen_king_attack bb.
Proof.
  unfold make_king_attack, aggregate, get_king_squares, get_knight_squares.
  reflexivity.
Qed.

(** C10: each attack aggregator is a union homomorphism on occupancy
    bitboards, [make_X_attack(a | b) == make_X_attack(a) | make_X_attack(b)],
    and maps the empty occupancy to the empty attack mask; the functions are
    total, no case of them raises. *)
Theorem make_attack_union_homomorphism (a b : Z) :
  (make_knight_attack (Z.lor a b)
   = Z.lor (make_knight_attack a) (make_knight_attack b) /\
   make_knight_attack 0 = 0) /\
  (make_bishop_attack (Z.lor a b)
   = Z.lor (make_bishop_attack a) (make_bishop_attack b) /\
   make_bishop_attack 0 = 0) /\
  (make_rook_attack (Z.lor a b)
   = Z.lor (make_rook_attack a) (make_rook_attack b) /\
   make_rook_attack 0 = 0) /\
  (make_queen_attack (Z.lor a b)
   = Z.lor (make_queen_attack a) (make_queen_attack b) /\
   make_queen_attack 0 = 0) /\
  (make_king_attack (Z.lor a b)
   = Z.lor (make_king_attack a) (make_king_attack b) /\
   make_king_attack 0 = 0).
Proof.
  split; [split | split; [split | split; [split | split; [split | split]]]].
  - rewrite (make_knight_is_aggregate (Z.lor a b)),
      (make_knight_is_aggregate a), (make_knight_is_aggregate b).
    apply aggregate_union.
  - rewrite (make_knight_is_aggregate 0). apply aggregate_empty.
  - rewrite (make_bishop_is_aggregate (Z.lor a b)),
      (make_bishop_is_aggregate a), (make_bishop_is_aggregate b).
    apply aggregate_union.
  - rewrite (make_bishop_is_aggregate 0). apply aggregate_empty.
  - rewrite (make_rook_is_aggregate (Z.lor a b)),
      (make_rook_is_aggregate a), (make_rook_is_aggregate b).
    apply aggregate_union.
  - rewrite (make_rook_is_aggregate 0). apply aggregate_empty.
  - rewrite (make_queen_is_aggregate (Z.lor a b)),
      (make_queen_is_aggregate a), (make_queen_is_aggregate b).
    apply aggregate_union.
  - rewrite (make_queen_is_aggregate 0). apply aggregate_empty.
  - rewrite (make_king_is_aggregate (Z.lor a b)),
      (make_king_is_aggregate a), (make_king_is_aggregate b).
    apply aggregate_union.
  - rewrite (make_king_is_aggregate 0). apply aggregate_empty.
Qed.

(** ** Ray loops accumulate into the bitboard *)

Lemma clear_bit_lor (a b s : Z) :
  clear_bit (Z.lor a b) s = Z.lor (clear_bit a s) (clear_bit b s).
Proof. unfold clear_bit. apply Z.land_lor_distr_l. Qed.

Section RayLoop.

Variable cond : ray_state -> bool.
Variable delta : Z.
Variable measure : ray_state -> nat.
Hypothesis decreases :
  forall st, cond st = true ->
             (measure (mark_and_step delta st) < measure st)%nat.

(** The loop test and the variant look at the square only. *)
Hypothesis cond_square : forall bb bb' sq, cond (bb, sq) = cond (bb', sq).
Hypothesis measure_square :
  forall bb bb' sq, measure (bb, sq) = measure (bb', sq).

Let loop := while cond (mark_and_step delta) measure decreases.

(** Running the loop on an accumulator [bb] visits the squares it visits
    on the empty accumulator and adds their bits to [bb]. *)
Lemma while_accumulates (sq bb : Z) :
  loop (bb, sq) = (Z.lor bb (fst (loop (0, sq))), snd (loop (0, sq))).
Proof.
  remember (measure (0, sq)) as n eqn:Hn.
  revert sq bb Hn.
  induction n as [n IH] using lt_wf_ind. intros sq bb Hn.
  unfold loop.
  rewrite (while_step cond (mark_and_step delta) measure decreases (bb, sq)).
  rewrite (while_step cond (mark_and_step delta) measure decreases (0, sq)).
  rewrite (cond_square bb 0 sq).
  destruct (cond (0, sq)) eqn:Hc.
  - pose proof (decreases (0, sq) Hc) as Hlt.
    unfold mark_and_step in *. cbn [fst snd] in *.
    rewrite (measure_square _ 0 (sq + delta)) in Hlt.
    fold loop.
    rewrite (IH (measure (0, sq + delta)) ltac:(lia) (sq + delta)
               (Z.lor bb (Np.shl HOT (Np.uint64 sq))) eq_refl).
    rewrite (IH (measure (0, sq + delta)) ltac:(lia) (sq + delta)
               (Z.lor 0 (Np.shl HOT (Np.uint64 sq))) eq_refl).
    cbn [fst snd]. rewrite Z.lor_0_l, Z.lor_assoc. reflexivity.
  - cbn [fst snd]. now rewrite Z.lor_0_r.
Qed.

Lemma while_accumulates_state (st : ray_state) :
  loop st = (Z.lor (fst st) (fst (loop (0, snd st))), snd (loop (0, snd st))).
Proof. destruct st as [bb sq]. apply while_accumulates. Qed.

End RayLoop.

Lemma lor_set_bit (bb x : Z) :
  Z.lor bb (set_bit bb x) = Z.lor bb (Np.shl 1 (Np.uint64 x)).
Proof.
  apply Z.bits_inj. intros j. unfold set_bit.
  rewrite !Z.lor_spec, testbit_uint64, Z.lor_spec.
  change (Np.uint64 1) with 1.
  destruct (Z.testbit bb j); cbn [orb]; [reflexivity |].
  destruct (Z.ltb_spec j 64) as [Hj | Hj]; cbn [andb]; [reflexivity |].
  symmetry. apply testbit_high; [apply one_shl_range | assumption].
Qed.

Ltac ray_algebra :=
  cbn [fst snd mark mark_and_step];
  rewrite ?clear_bit_lor;
  change (clear_bit 0 ?s) with 0;
  rewrite ?Z.lor_0_l, ?Z.lor_assoc; reflexivity.

Ltac accumulate cond delta measure decreases st :=
  rewrite (while_accumulates_state cond delta measure decreases
             (fun _ _ _ => eq_refl) (fun _ _ _ => eq_refl) st).

(** Each ray function returns its accumulator, origin bit cleared, united
    with the ray it casts on the empty board. *)
Lemma north_accumulates (bb s : Z) :
  get_north_ray bb s = Z.lor (clear_bit bb s) (get_north_ray 0 s).
Proof.
  unfold get_north_ray, for_in. cbn [fold_left].
  rewrite !lor_set_bit. ray_algebra.
Qed.

Lemma south_accumulates (bb s : Z) :
  get_south_ray bb s = Z.lor (clear_bit bb s) (get_south_ray 0 s).
Proof.
  unfold get_south_ray, for_in. cbn [fold_left].
  rewrite !lor_set_bit. ray_algebra.
Qed.

Lemma west_accumulates (bb s : Z) :
  get_west_ray bb s = Z.lor (clear_bit bb s) (get_west_ray 0 s).
Proof.
  unfold get_west_ray. cbn [fst snd].
  destruct (s mod 8 =? 0).
  - ray_algebra.
  - accumulate not_file_a (-1) residue_down west_decreases (bb, s).
    ray_algebra.
Qed.

Lemma east_accumulates (bb s : Z) :
  get_east_ray bb s = Z.lor (clear_bit bb s) (get_east_ray 0 s).
Proof.
  unfold get_east_ray. cbn [fst snd].
  destruct (s mod 8 =? 0).
  - accumulate not_file_a 1 residue_up east_decreases
      (mark_and_step 1 (bb, s)).
    accumulate not_file_a 1 residue_up east_decreases
      (mark_and_step 1 (0, s)).
    ray_algebra.
  - accumulate not_file_a 1 residue_up east_decreases (bb, s).
    ray_algebra.
Qed.

Lemma southeast_accumulates (bb s : Z) :
  get_southeast_ray bb s = Z.lor (clear_bit bb s) (get_southeast_ray 0 s).
Proof.
  unfold get_southeast_ray. cbn [fst snd].
  destruct ((s mod 8 =? 0) && negb (py_in s File.H)).
  - accumulate (not_file_a_and_not_in File.H) (-7) residue_up
      southeast_decreases (mark_and_step (-7) (bb, s)).
    accumulate (not_file_a_and_not_in File.H) (-7) residue_up
      southeast_decreases (mark_and_step (-7) (0, s)).
    ray_algebra.
  - accumulate (not_file_a_and_not_in File.H) (-7) residue_up
      southeast_decreases (bb, s).
    ray_algebra.
Qed.

Lemma northwest_accumulates (bb s : Z) :
  get_northwest_ray bb s = Z.lor (clear_bit bb s) (get_northwest_ray 0 s).
Proof.
  unfold get_northwest_ray. cbn [fst snd].
  destruct ((s mod 8 =? 0) && negb (py_in s File.A)).
  - accumulate (not_file_a_and_not_in File.A) 7 residue_down
      northwest_decreases (mark_and_step 7 (bb, s)).
    accumulate (not_file_a_and_not_in File.A) 7 residue_down
      northwest_decreases (mark_and_step 7 (0, s)).
    ray_algebra.
  - accumulate (not_file_a_and_not_in File.A) 7 residue_down
      northwest_decreases (bb, s).
    ray_algebra.
Qed.

Lemma southwest_accumulates (bb s : Z) :
  get_southwest_ray bb s = Z.lor (clear_bit bb s) (get_southwest_ray 0 s).
Proof.
  unfold get_southwest_ray. cbn [fst snd].
  destruct (s mod 8 =? 0).
  - ray_algebra.
  - accumulate not_file_a (-9) residue_down southwest_decreases (bb, s).
    ray_algebra.
Qed.

Lemma northeast_accumulates (bb s : Z) :
  get_northeast_ray bb s = Z.lor (clear_bit bb s) (get_northeast_ray 0 s).
Proof.
  unfold get_northeast_ray. cbn [fst snd].
  destruct (s mod 8 =? 0).
  - accumulate not_file_a 9 residue_up northeast_decreases
      (mark_and_step 9 (bb, s)).
    accumulate not_file_a 9 residue_up northeast_decreases
      (mark_and_step 9 (0, s)).
    ray_algebra.
  - accumulate not_file_a 9 residue_up northeast_decreases (bb, s).
    ray_algebra.
Qed.

Lemma ray_accumulates (d : Direction) (bb s : Z) :
  get_ray d bb s = Z.lor (clear_bit bb s) (get_ray d 0 s).
Proof.
  destruct d; cbn [get_ray].
  - apply north_accumulates.
  - apply south_accumulates.
  - apply east_accumulates.
  - apply west_accumulates.
  - apply northeast_accumulates.
  - apply northwest_accumulates.
  - apply southeast_accumulates.
  - apply southwest_accumulates.
Qed.

(** ** The rays of the empty board, square by square *)

Lemma ray_table :
  forallb (fun d => forallb (ray_table_ok d) range64) all_directions = true.
Proof. vm_compute. reflexivity. Qed.

Lemma in_all_directions (d : Direction) : In d all_directions.
Proof. destruct d; simpl; tauto. Qed.

Lemma ray_table_at (d : Direction) (s : Z) :
  on_board s -> ray_table_ok d s = true.
Proof.
  intros Hs. pose proof ray_table as Ht.
  rewrite forallb_forall in Ht. specialize (Ht d (in_all_directions d)).
  rewrite forallb_forall in Ht. apply Ht, in_range64, Hs.
Qed.

Lemma ray_uint64 (d : Direction) (s : Z) :
  on_board s -> Np.is_uint64 (get_ray d 0 s).
Proof.
  intros Hs. pose proof (ray_table_at d s Hs) as Ht.
  unfold ray_table_ok in Ht. cbv zeta in Ht.
  apply andb_true_iff in Ht. destruct Ht as [Ht _].
  apply andb_true_iff in Ht. destruct Ht as [Hlo Hhi].
  apply Z.leb_le in Hlo. apply Z.ltb_lt in Hhi. split; assumption.
Qed.

Lemma on_rayb_on_board (d : Direction) (s j : Z) :
  on_rayb d s j = true -> on_board j.
Proof.
  unfold on_rayb, on_board. intros H.
  apply andb_true_iff in H. destruct H as [H _].
  apply andb_true_iff in H. destruct H as [H0 H1].
  apply Z.leb_le in H0. apply Z.leb_le in H1. lia.
Qed.

Lemma testbit_ray (d : Direction) (s j : Z) :
  on_board s -> Z.testbit (get_ray d 0 s) j = on_rayb d s j.
Proof.
  intros Hs.
  destruct (Z.ltb_spec j 0) as [Hn | Hn].
  - rewrite Z.testbit_neg_r by assumption.
    destruct (on_rayb d s j) eqn:Hr; [| reflexivity].
    apply on_rayb_on_board in Hr. unfold on_board in Hr. lia.
  - destruct (Z.ltb_spec 63 j) as [Hh | Hh].
    + rewrite (testbit_high _ j (ray_uint64 d s Hs)) by lia.
      destruct (on_rayb d s j) eqn:Hr; [| reflexivity].
      apply on_rayb_on_board in Hr. unfold on_board in Hr. lia.
    + pose proof (ray_table_at d s Hs) as Ht.
      unfold ray_table_ok in Ht. cbv zeta in Ht.
      apply andb_true_iff in Ht. destruct Ht as [_ Ht].
      rewrite forallb_forall in Ht.
      apply eqb_prop, Ht, in_range64. lia.
Qed.

(** ** True rays *)

Lemma file_rank_bounds (s : Z) :
  on_board s ->
  0 <= file_of s <= 7 /\ 0 <= rank_of s <= 7 /\ s = rank_of s * 8 + file_of s.
Proof.
  unfold on_board, file_of, rank_of. intros Hs.
  pose proof (Z.div_mod s 8 ltac:(lia)).
  pose proof (Z.mod_pos_bound s 8 ltac:(lia)).
  repeat split; try lia.
Qed.

Lemma on_rayb_spec (d : Direction) (s j : Z) :
  on_board s -> (on_rayb d s j = true <-> on_ray d s j).
Proof.
  intros Hs. unfold on_rayb, on_ray. split.
  - intros H. apply andb_true_iff in H. destruct H as [Hb Hk].
    apply andb_true_iff in Hb. destruct Hb as [H0 H1].
    apply Z.leb_le in H0. apply Z.leb_le in H1.
    split; [unfold on_board; lia |].
    apply existsb_exists in Hk. destruct Hk as [k [Hin Hk]].
    apply andb_true_iff in Hk. destruct Hk as [Hf Hr].
    apply Z.eqb_eq in Hf. apply Z.eqb_eq in Hr.
    exists k. repeat split; try assumption.
    simpl in Hin. lia.
  - intros [Hj [k [Hk [Hf Hr]]]].
    destruct (file_rank_bounds s Hs) as [Hfs [Hrs _]].
    destruct (file_rank_bounds j Hj) as [Hfj [Hrj _]].
    unfold on_board in Hj.
    apply andb_true_iff. split.
    + apply andb_true_iff. split; [apply Z.leb_le | apply Z.leb_le]; lia.
    + apply existsb_exists. exists k. split.
      * assert (Hk7 : k <= 7) by (destruct d; cbn [file_step rank_step] in *; lia).
        simpl. lia.
      * apply andb_true_iff. split; apply Z.eqb_eq; assumption.
Qed.

(** Membership in the ray cast into any accumulator. *)
Lemma member_ray (d : Direction) (bb s j : Z) :
  on_board s ->
  (member j (get_ray d bb s) <-> member j (clear_bit bb s) \/ on_ray d s j).
Proof.
  intros Hs. rewrite <- (on_rayb_spec d s j Hs).
  rewrite (ray_accumulates d bb s). unfold member.
  rewrite Z.lor_spec, orb_true_iff, (testbit_ray d s j Hs). reflexivity.
Qed.

Lemma member_clear_bit (bb s j : Z) :
  on_board s ->
  (member j (clear_bit bb s) <-> member j bb /\ on_board j /\ j <> s).
Proof.
  intros Hs. unfold member, on_board in *.
  rewrite testbit_clear_bit by (apply square_is_index; lia).
  destruct (Z.testbit bb j), (Z.leb_spec 0 j), (Z.ltb_spec j 64),
    (Z.eqb_spec j s), (Z.leb_spec 0 s), (Z.ltb_spec s 64);
    cbn [andb negb]; split; try discriminate; try lia;
    try (intros [? [? ?]]; (discriminate || lia));
    intros _; repeat split; lia.
Qed.

Lemma member_empty (j : Z) : ~ member j 0.
Proof. unfold member. rewrite Z.testbit_0_l. discriminate. Qed.

(** A step along a ray changes the square: the origin is not on its rays. *)
Lemma on_ray_not_origin (d : Direction) (s : Z) : ~ on_ray d s s.
Proof.
  intros [_ [k [Hk [Hf Hr]]]].
  destruct d; cbn [file_step rank_step] in *; lia.
Qed.

Lemma on_ray_north (s j : Z) :
  on_board s ->
  (on_ray North s j <-> s < j <= 63 /\ exists k, j = s + 8 * k).
Proof.
  intros Hs. unfold on_ray. cbn [file_step rank_step]. split.
  - intros [Hj [k [Hk [Hf Hr]]]].
    destruct (file_rank_bounds s Hs) as [_ [_ Es]].
    destruct (file_rank_bounds j Hj) as [_ [_ Ej]].
    unfold on_board in Hj. split; [lia | exists k; lia].
  - intros [Hj [k Ek]]. split; [unfold on_board in *; lia |].
    exists k. unfold file_of, rank_of. subst j.
    repeat split; try lia; Z.div_mod_to_equations; lia.
Qed.

Lemma on_ray_south (s j : Z) :
  on_board s ->
  (on_ray South s j <-> 0 <= j < s /\ exists k, j = s - 8 * k).
Proof.
  intros Hs. unfold on_ray. cbn [file_step rank_step]. split.
  - intros [Hj [k [Hk [Hf Hr]]]].
    destruct (file_rank_bounds s Hs) as [_ [_ Es]].
    destruct (file_rank_bounds j Hj) as [_ [_ Ej]].
    unfold on_board in Hj. split; [lia | exists k; lia].
  - intros [Hj [k Ek]]. split; [unfold on_board in *; lia |].
    exists k. unfold file_of, rank_of. subst j.
    repeat split; try lia; Z.div_mod_to_equations; lia.
Qed.

(** [get_ray] at each direction. *)
Lemma get_ray_north (bb s : Z) : get_ray North bb s = get_north_ray bb s.
Proof. cbn [get_ray]. reflexivity. Qed.
Lemma get_ray_south (bb s : Z) : get_ray South bb s = get_south_ray bb s.
Proof. cbn [get_ray]. reflexivity. Qed.
Lemma get_ray_east (bb s : Z) : get_ray East bb s = get_east_ray bb s.
Proof. cbn [get_ray]. reflexivity. Qed.
Lemma get_ray_west (bb s : Z) : get_ray West bb s = get_west_ray bb s.
Proof. cbn [get_ray]. reflexivity. Qed.
Lemma get_ray_northeast (bb s : Z) :
  get_ray NorthEast bb s = get_northeast_ray bb s.
Proof. cbn [get_ray]. reflexivity. Qed.
Lemma get_ray_northwest (bb s : Z) :
  get_ray NorthWest bb s = get_northwest_ray bb s.
Proof. cbn [get_ray]. reflexivity. Qed.
Lemma get_ray_southeast (bb s : Z) :
  get_ray SouthEast bb s = get_southeast_ray bb s.
Proof. cbn [get_ray]. reflexivity. Qed.
Lemma get_ray_southwest (bb s : Z) :
  get_ray SouthWest bb s = get_southwest_ray bb s.
Proof. cbn [get_ray]. reflexivity. Qed.

(** ** Ray casting *)

(** C1: ray casting never wraps around board edges.  For every origin
    square of the board, each of the eight ray functions returns exactly the
    on-board squares of the true ray from the origin in its direction; the
    rays heading east stay on files right of the origin (they end at file H)
    and the rays heading west on files left of it (they end at file A).
    From corner square 0 the northeast ray has exactly 7 squares and the
    south, west, southwest, southeast and northwest rays are empty. *)
Theorem rays_never_wrap (s : Z) :
  on_board s ->
  (forall d, Np.is_uint64 (get_ray d 0 s)) /\
  (forall d j, member j (get_ray d 0 s) <-> on_ray d s j) /\
  (forall d j, member j (get_ray d 0 s) ->
     on_board j /\
     (file_step d = 1 -> file_of s < file_of j <= 7) /\
     (file_step d = -1 -> 0 <= file_of j < file_of s)) /\
  squares_of (get_northeast_ray 0 0) = [9; 18; 27; 36; 45; 54; 63] /\
  length (squares_of (get_northeast_ray 0 0)) = 7%nat /\
  get_south_ray 0 0 = 0 /\ get_west_ray 0 0 = 0 /\
  get_southwest_ray 0 0 = 0 /\ get_southeast_ray 0 0 = 0 /\
  get_northwest_ray 0 0 = 0.
Proof.
  intros Hs.
  assert (Hmem : forall d j, member j (get_ray d 0 s) <-> on_ray d s j).
  { intros d j. rewrite (member_ray d 0 s j Hs).
    change (clear_bit 0 s) with 0. pose proof (member_empty j). tauto. }
  split; [intros d; apply ray_uint64, Hs |].
  split; [exact Hmem |].
  split.
  { intros d j Hm. apply Hmem in Hm. destruct Hm as [Hj [k [Hk [Hf Hr]]]].
    destruct (file_rank_bounds j Hj) as [Hfj _].
    destruct (file_rank_bounds s Hs) as [Hfs _].
    split; [exact Hj |]. split; intros Hd; rewrite Hd in Hf; lia. }
  repeat (split; [vm_compute; reflexivity |]).
  vm_compute; reflexivity.
Qed.

Lemma rays_never_wrap_witness :
  on_board 0 /\
  (member 9 (get_ray NorthEast 0 0) <-> on_ray NorthEast 0 9).
Proof.
  assert (H0 : on_board 0) by (unfold on_board; lia).
  split; [exact H0 |].
  pose proof (rays_never_wrap 0 H0) as H.
  destruct H as [_ [H _]]. apply H.
Defined.

(** The logged loop computes what the plain loop computes and calls
    [set_bit] once for each offset, whatever the indices are. *)
Lemma vertical_calls (from_square : Z) (offsets : list Z) (bb : Z)
  (log : list Z) :
  for_in offsets
    (fun st i =>
       (Z.lor (fst st) (set_bit (fst st) (from_square + i)),
        snd st ++ [from_square + i]))
    (bb, log)
  = (for_in offsets
       (fun bitboard i => Z.lor bitboard (set_bit bitboard (from_square + i)))
       bb,
     log ++ map (fun i => from_square + i) offsets).
Proof.
  unfold for_in. revert bb log.
  induction offsets as [| i offsets IH]; intros bb log;
    cbn [fold_left map fst snd].
  - rewrite app_nil_r. reflexivity.
  - rewrite IH, <- app_assoc. reflexivity.
Qed.

Lemma north_calls (bb s : Z) :
  fst (get_north_ray_calls bb s) = get_north_ray bb s /\
  snd (get_north_ray_calls bb s)
  = map (fun k => s + 8 * k) [0; 1; 2; 3; 4; 5; 6; 7].
Proof.
  unfold get_north_ray_calls, get_north_ray. cbv zeta.
  rewrite (vertical_calls s [0; 8; 16; 24; 32; 40; 48; 56] bb []).
  cbn [fst snd app map]. split; reflexivity.
Qed.

Lemma south_calls (bb s : Z) :
  fst (get_south_ray_calls bb s) = get_south_ray bb s /\
  snd (get_south_ray_calls bb s)
  = map (fun k => s - 8 * k) [0; 1; 2; 3; 4; 5; 6; 7].
Proof.
  unfold get_south_ray_calls, get_south_ray. cbv zeta.
  rewrite (vertical_calls s [0; -8; -16; -24; -32; -40; -48; -56] bb []).
  cbn [fst snd app map]. split; [reflexivity |].
  repeat (f_equal; try lia).
Qed.

(** A call of [set_bit] with an index off the board sets no bit. *)
Lemma set_bit_skips (bb idx : Z) :
  Np.is_uint64 bb -> 64 - Np.modulus <= idx < Np.modulus -> ~ on_board idx ->
  set_bit bb idx = bb.
Proof.
  intros Hbb Hi Hoff. apply Z.bits_inj. intros j.
  rewrite testbit_set_bit by exact Hi.
  assert (Hb : (0 <=? idx) && (idx <? 64) = false).
  { unfold on_board in Hoff.
    destruct (Z.leb_spec 0 idx), (Z.ltb_spec idx 64); try reflexivity. lia. }
  rewrite <- andb_assoc, Hb, andb_false_r, orb_false_r.
  destruct (Z.ltb_spec j 64) as [Hl | Hh]; cbn [andb]; [reflexivity |].
  symmetry. apply (testbit_high bb j Hbb Hh).
Qed.

(** C2, amended: for every origin square [s] of the board, the north ray is
    exactly the set of squares strictly north of [s] on its file, [s + 8],
    [s + 16], ... up to 63, and the south ray exactly the squares strictly
    south of it, [s - 8], [s - 16], ... down to 0.  No bit outside [0, 63]
    is set: the results are 64-bit values, and a ray cast into an
    accumulator leaves the other squares of the accumulator as they are.
    The stepping does not stop at the edge of the board: each loop always
    calls [set_bit] eight times, with the indices [s], [s + 8], ...,
    [s + 56] (north) and [s], [s - 8], ..., [s - 56] (south), on the board
    or off it; a call with an index off the board returns the 64-bit
    bitboard it was given, which is why the result is that of a stepping
    that stops. *)
Theorem vertical_rays (s : Z) :
  on_board s ->
  (forall j, member j (get_north_ray 0 s) <->
             s < j <= 63 /\ exists k, j = s + 8 * k) /\
  (forall j, member j (get_south_ray 0 s) <->
             0 <= j < s /\ exists k, j = s - 8 * k) /\
  Np.is_uint64 (get_north_ray 0 s) /\
  Np.is_uint64 (get_south_ray 0 s) /\
  (forall bb j, member j (get_north_ray bb s) <->
                (member j bb /\ on_board j /\ j <> s) \/
                (s < j <= 63 /\ exists k, j = s + 8 * k)) /\
  (forall bb j, member j (get_south_ray bb s) <->
                (member j bb /\ on_board j /\ j <> s) \/
                (0 <= j < s /\ exists k, j = s - 8 * k)) /\
  (forall bb, fst (get_north_ray_calls bb s) = get_north_ray bb s /\
              snd (get_north_ray_calls bb s)
              = map (fun k => s + 8 * k) [0; 1; 2; 3; 4; 5; 6; 7]) /\
  (forall bb, fst (get_south_ray_calls bb s) = get_south_ray bb s /\
              snd (get_south_ray_calls bb s)
              = map (fun k => s - 8 * k) [0; 1; 2; 3; 4; 5; 6; 7]) /\
  (forall bb acc idx,
     Np.is_uint64 acc ->
     In idx (snd (get_north_ray_calls bb s)) \/
     In idx (snd (get_south_ray_calls bb s)) ->
     ~ on_board idx -> set_bit acc idx = acc).
Proof.
  intros Hs.
  assert (HN : forall bb j, member j (get_north_ray bb s) <->
                (member j bb /\ on_board j /\ j <> s) \/
                (s < j <= 63 /\ exists k, j = s + 8 * k)).
  { intros bb j. rewrite <- (on_ray_north s j Hs).
    rewrite <- (member_clear_bit bb s j Hs).
    rewrite <- (get_ray_north bb s). exact (member_ray North bb s j Hs). }
  assert (HS : forall bb j, member j (get_south_ray bb s) <->
                (member j bb /\ on_board j /\ j <> s) \/
                (0 <= j < s /\ exists k, j = s - 8 * k)).
  { intros bb j. rewrite <- (on_ray_south s j Hs).
    rewrite <- (member_clear_bit bb s j Hs).
    rewrite <- (get_ray_south bb s). exact (member_ray South bb s j Hs). }
  split; [| split; [| split; [| split; [| split; [| split; [| split;
    [| split]]]]]]].
  - intros j. rewrite (HN 0 j). pose proof (member_empty j). tauto.
  - intros j. rewrite (HS 0 j). pose proof (member_empty j). tauto.
  - rewrite <- (get_ray_north 0 s). exact (ray_uint64 North s Hs).
  - rewrite <- (get_ray_south 0 s). exact (ray_uint64 South s Hs).
  - exact HN.
  - exact HS.
  - intros bb. apply north_calls.
  - intros bb. apply south_calls.
  - intros bb acc idx Hacc Hin Hoff.
    destruct (north_calls bb s) as [_ Hnorth].
    destruct (south_calls bb s) as [_ Hsouth].
    rewrite Hnorth, Hsouth in Hin. cbn [map In] in Hin.
    apply (set_bit_skips acc idx Hacc); [| exact Hoff].
    unfold on_board in Hs. rewrite modulus_eq. lia.
Qed.

Lemma vertical_rays_witness :
  on_board 28 /\
  (member 44 (get_north_ray 0 28) <->
   28 < 44 <= 63 /\ exists k, 44 = 28 + 8 * k).
Proof.
  assert (H0 : on_board 28) by (unfold on_board; lia).
  split; [exact H0 |].
  pose proof (vertical_rays 28 H0) as H.
  destruct H as [H _]. apply H.
Defined.

(** C2 as first worded fails at the origin 28: the north loop goes on to
    the indices 68, 76 and 84 and the south loop to -4, -12, -20 and -28,
    so neither stepping stops when the index would reach 64 or go below
    0. *)
Lemma vertical_stepping_counterexample :
  on_board 28 /\
  snd (get_north_ray_calls 0 28) = [28; 36; 44; 52; 60; 68; 76; 84] /\
  snd (get_south_ray_calls 0 28) = [28; 20; 12; 4; -4; -12; -20; -28] /\
  ~ stops_at_edge (snd (get_north_ray_calls 0 28)) /\
  ~ stops_at_edge (snd (get_south_ray_calls 0 28)).
Proof.
  assert (Hn : snd (get_north_ray_calls 0 28)
               = [28; 36; 44; 52; 60; 68; 76; 84])
    by (vm_compute; reflexivity).
  assert (Hs : snd (get_south_ray_calls 0 28)
               = [28; 20; 12; 4; -4; -12; -20; -28])
    by (vm_compute; reflexivity).
  split; [unfold on_board; lia |].
  split; [exact Hn | split; [exact Hs |]].
  unfold stops_at_edge. rewrite Hn, Hs.
  split; intros Hall; rewrite Forall_forall in Hall.
  - assert (H68 : on_board 68) by (apply Hall; cbn [In]; lia).
    unfold on_board in H68. lia.
  - assert (H4 : on_board (-4)) by (apply Hall; cbn [In]; lia).
    unfold on_board in H4. lia.
Qed.

(** ** Sliding pieces *)

Lemma on_ray_elsewhere (d : Direction) (s j : Z) :
  on_ray d s j -> on_board j /\ j <> s.
Proof.
  intros Hr. split; [exact (proj1 Hr) |].
  intros ->. exact (on_ray_not_origin d s Hr).
Qed.

(** The bishop mask of a square is the union of its four diagonal rays. *)
Lemma member_bishop (s j : Z) :
  on_board s ->
  (member j (gen_bishop_attack s) <->
   on_ray NorthEast s j \/ on_ray SouthWest s j \/
   on_ray NorthWest s j \/ on_ray SouthEast s j).
Proof.
  intros Hs. unfold gen_bishop_attack. cbv zeta. change (Np.uint64 0) with 0.
  rewrite <- (get_ray_northeast 0 s).
  rewrite <- (get_ray_southwest (get_ray NorthEast 0 s) s).
  rewrite <- (get_ray_northwest (get_ray SouthWest _ s) s).
  rewrite <- (get_ray_southeast (get_ray NorthWest _ s) s).
  rewrite (member_clear_bit _ s j Hs).
  rewrite (member_ray SouthEast _ s j Hs), (member_clear_bit _ s j Hs).
  rewrite (member_ray NorthWest _ s j Hs), (member_clear_bit _ s j Hs).
  rewrite (member_ray SouthWest _ s j Hs), (member_clear_bit _ s j Hs).
  rewrite (member_ray NorthEast _ s j Hs), (member_clear_bit _ s j Hs).
  pose proof (member_empty j) as H0.
  pose proof (on_ray_elsewhere NorthEast s j) as H1.
  pose proof (on_ray_elsewhere SouthWest s j) as H2.
  pose proof (on_ray_elsewhere NorthWest s j) as H3.
  pose proof (on_ray_elsewhere SouthEast s j) as H4.
  tauto.
Qed.

(** [gen_rook_attack_row] casts the north and south rays. *)
Lemma member_rook_row (s j : Z) :
  on_board s ->
  (member j (gen_rook_attack_row s) <-> on_ray North s j \/ on_ray South s j).
Proof.
  intros Hs. unfold gen_rook_attack_row. cbv zeta. change (Np.uint64 0) with 0.
  rewrite <- (get_ray_north 0 s).
  rewrite <- (get_ray_south (get_ray North 0 s) s).
  rewrite (member_clear_bit _ s j Hs).
  rewrite (member_ray South _ s j Hs), (member_clear_bit _ s j Hs).
  rewrite (member_ray North _ s j Hs), (member_clear_bit _ s j Hs).
  pose proof (member_empty j) as H0.
  pose proof (on_ray_elsewhere North s j) as H1.
  pose proof (on_ray_elsewhere South s j) as H2.
  tauto.
Qed.

(** [gen_rook_attack_file] casts the east and west rays. *)
Lemma member_rook_file (s j : Z) :
  on_board s ->
  (member j (gen_rook_attack_file s) <-> on_ray East s j \/ on_ray West s j).
Proof.
  intros Hs. unfold gen_rook_attack_file. cbv zeta. change (Np.uint64 0) with 0.
  rewrite <- (get_ray_east 0 s).
  rewrite <- (get_ray_west (get_ray East 0 s) s).
  rewrite (member_clear_bit _ s j Hs).
  rewrite (member_ray West _ s j Hs), (member_clear_bit _ s j Hs).
  rewrite (member_ray East _ s j Hs), (member_clear_bit _ s j Hs).
  pose proof (member_empty j) as H0.
  pose proof (on_ray_elsewhere East s j) as H1.
  pose proof (on_ray_elsewhere West s j) as H2.
  tauto.
Qed.

(** Along a diagonal ray the rank and the file move by the same amount;
    along a rank or file ray one of them does not move at all. *)
Lemma diagonal_ray_deltas (d : Direction) (s j : Z) :
  file_step d <> 0 -> rank_step d <> 0 -> on_ray d s j ->
  Z.abs (rank_of j - rank_of s) = Z.abs (file_of j - file_of s) /\
  file_of j <> file_of s.
Proof.
  intros Hf Hr [_ [k [Hk [Ef Er]]]].
  destruct d; cbn [file_step rank_step] in *; lia.
Qed.

Lemma straight_ray_deltas (d : Direction) (s j : Z) :
  file_step d = 0 \/ rank_step d = 0 -> on_ray d s j ->
  Z.abs (rank_of j - rank_of s) <> Z.abs (file_of j - file_of s).
Proof.
  intros Hd [_ [k [Hk [Ef Er]]]].
  destruct d; cbn [file_step rank_step] in *; lia.
Qed.

(** C9: for every square [s] of the board, the bishop mask of [s] does not
    contain [s], and every square it contains is a square of the board on a
    true diagonal of [s]: its rank differs from that of [s] by as much as
    its file does. *)
Theorem bishop_attack_on_diagonals (s : Z) :
  on_board s ->
  ~ member s (gen_bishop_attack s) /\
  (forall j, member j (gen_bishop_attack s) ->
             on_board j /\
             Z.abs (rank_of j - rank_of s) = Z.abs (file_of j - file_of s)).
Proof.
  intros Hs. split.
  - rewrite (member_bishop s s Hs).
    intros [H | [H | [H | H]]]; exact (on_ray_not_origin _ s H).
  - intros j Hm. apply (member_bishop s j Hs) in Hm.
    destruct Hm as [H | [H | [H | H]]];
      (split; [exact (proj1 H) |
               apply (diagonal_ray_deltas _ s j) in H;
               [exact (proj1 H) | cbn; lia | cbn; lia]]).
Qed.

Lemma bishop_attack_on_diagonals_witness :
  on_board 27 /\ ~ member 27 (gen_bishop_attack 27) /\
  (forall j, member j (gen_bishop_attack 27) ->
             on_board j /\
             Z.abs (rank_of j - rank_of 27) = Z.abs (file_of j - file_of 27)).
Proof.
  assert (H0 : on_board 27) by (unfold on_board; lia).
  split; [exact H0 |].
  apply bishop_attack_on_diagonals. exact H0.
Defined.

(** C6: for every square [s] of the board, the rook mask united with the
    bishop mask is the queen mask,
    [gen_rook_attack_row(s) | gen_rook_attack_file(s) | gen_bishop_attack(s)
     == gen_queen_attack(s)],
    and the rook and bishop masks are disjoint. *)
Theorem rook_bishop_queen (s : Z) :
  on_board s ->
  Z.lor (Z.lor (gen_rook_attack_row s) (gen_rook_attack_file s))
        (gen_bishop_attack s)
  = gen_queen_attack s /\
  Z.land (Z.lor (gen_rook_attack_row s) (gen_rook_attack_file s))
         (gen_bishop_attack s)
  = 0.
Proof.
  intros Hs. split.
  - unfold gen_queen_attack.
    rewrite (Z.lor_comm (Z.lor (gen_rook_attack_row s) (gen_rook_attack_file s))).
    apply Z.lor_assoc.
  - apply Z.bits_inj. intros j. rewrite Z.testbit_0_l, Z.land_spec, Z.lor_spec.
    destruct (Z.testbit (gen_bishop_attack s) j) eqn:Hb;
      [| apply andb_false_r].
    rewrite andb_true_r.
    apply (member_bishop s j Hs) in Hb.
    assert (Hd : Z.abs (rank_of j - rank_of s) = Z.abs (file_of j - file_of s)).
    { destruct Hb as [H | [H | [H | H]]];
        apply (diagonal_ray_deltas _ s j) in H;
        (exact (proj1 H) || (cbn; lia)). }
    apply orb_false_iff. split.
    + destruct (Z.testbit (gen_rook_attack_row s) j) eqn:Hr; [| reflexivity].
      apply (member_rook_row s j Hs) in Hr.
      destruct Hr as [H | H]; apply (straight_ray_deltas _ s j) in H;
        (contradiction || (cbn; lia)).
    + destruct (Z.testbit (gen_rook_attack_file s) j) eqn:Hr; [| reflexivity].
      apply (member_rook_file s j Hs) in Hr.
      destruct Hr as [H | H]; apply (straight_ray_deltas _ s j) in H;
        (contradiction || (cbn; lia)).
Qed.

Lemma rook_bishop_queen_witness :
  on_board 0 /\
  Z.lor (Z.lor (gen_rook_attack_row 0) (gen_rook_attack_file 0))
        (gen_bishop_attack 0)
  = gen_queen_attack 0 /\
  Z.land (Z.lor (gen_rook_attack_row 0) (gen_rook_attack_file 0))
         (gen_bishop_attack 0)
  = 0.
Proof.
  assert (H0 : on_board 0) by (unfold on_board; lia).
  split; [exact H0 |].
  apply rook_bishop_queen. exact H0.
Defined.

(** ** Synchronization *)

Lemma uint64_land (a b : Z) :
  Np.is_uint64 a -> Np.uint64 (Z.land a b) = Z.land a b.
Proof.
  intros Ha. apply Z.bits_inj. intros j.
  rewrite testbit_uint64, Z.land_spec.
  destruct (Z.ltb_spec j 64) as [Hj | Hj]; cbn [andb]; [reflexivity |].
  now rewrite (testbit_high a j Ha Hj).
Qed.

(** C3, as the code has it: [update_board] makes no disjointness check.  For
    every engine state with 64-bit masks, overlapping or not, it returns
    normally, and the snapshot it leaves holds for each colour and piece
    kind the mask [colour & kind] the engine reports and for each attack
    field the aggregate attack of the new occupancy. *)
Theorem update_board_always_succeeds (self : Board) :
  Engine_wf (board self) ->
  exists self',
    update_board self = Returned self' /\
    board self' = board self /\
    black_pawn_bitboard self' = Z.land (fst (occupied_co (board self))) (pawns (board self)) /\
    black_rook_bitboard self' = Z.land (fst (occupied_co (board self))) (rooks (board self)) /\
    black_knight_bitboard self' = Z.land (fst (occupied_co (board self))) (knights (board self)) /\
    black_bishop_bitboard self' = Z.land (fst (occupied_co (board self))) (bishops (board self)) /\
    black_queen_bitboard self' = Z.land (fst (occupied_co (board self))) (queens (board self)) /\
    black_king_bitboard self' = Z.land (fst (occupied_co (board self))) (kings (board self)) /\
    white_pawn_bitboard self' = Z.land (snd (occupied_co (board self))) (pawns (board self)) /\
    white_rook_bitboard self' = Z.land (snd (occupied_co (board self))) (rooks (board self)) /\
    white_knight_bitboard self' = Z.land (snd (occupied_co (board self))) (knights (board self)) /\
    white_bishop_bitboard self' = Z.land (snd (occupied_co (board self))) (bishops (board self)) /\
    white_queen_bitboard self' = Z.land (snd (occupied_co (board self))) (queens (board self)) /\
    white_king_bitboard self' = Z.land (snd (occupied_co (board self))) (kings (board self)) /\
    white_knight_attacks_bitboard self' = make_knight_attack (white_knight_bitboard self') /\
    black_knight_attacks_bitboard self' = make_knight_attack (black_knight_bitboard self') /\
    white_bishop_attacks_bitboard self' = make_bishop_attack (white_bishop_bitboard self') /\
    black_bishop_attacks_bitboard self' = make_bishop_attack (black_bishop_bitboard self') /\
    white_rook_attacks_bitboard self' = make_rook_attack (white_rook_bitboard self') /\
    black_rook_attacks_bitboard self' = make_rook_attack (black_rook_bitboard self') /\
    white_queen_attacks_bitboard self' = make_queen_attack (white_queen_bitboard self') /\
    black_queen_attacks_bitboard self' = make_queen_attack (black_queen_bitboard self') /\
    white_king_attacks_bitboard self' = make_king_attack (white_king_bitboard self') /\
    black_king_attacks_bitboard self' = make_king_attack (black_king_bitboard self').
Proof.
  intros Hwf. unfold Engine_wf in Hwf.
  destruct self as [e]. cbn [board] in *.
  destruct e as [[black white] p r n b q k].
  cbn [occupied_co pawns rooks knights bishops queens kings fst snd] in *.
  inversion Hwf as [| ? ? Hblack Hwf1]; subst.
  inversion Hwf1 as [| ? ? Hwhite _]; subst.
  unfold update_board.
  cbn [board occupied_co pawns rooks knights bishops queens kings map nth].
  rewrite !(uint64_land black) by assumption.
  rewrite !(uint64_land white) by assumption.
  eexists. split; [reflexivity |].
  cbn [board black_pawn_bitboard black_rook_bitboard black_knight_bitboard
       black_bishop_bitboard black_queen_bitboard black_king_bitboard
       white_pawn_bitboard white_rook_bitboard white_knight_bitboard
       white_bishop_bitboard white_queen_bitboard white_king_bitboard
       white_knight_attacks_bitboard black_knight_attacks_bitboard
       white_bishop_attacks_bitboard black_bishop_attacks_bitboard
       white_rook_attacks_bitboard black_rook_attacks_bitboard
       white_queen_attacks_bitboard black_queen_attacks_bitboard
       white_king_attacks_bitboard black_king_attacks_bitboard].
  unfold white_knight_attacks, black_knight_attacks, white_bishop_attacks,
    black_bishop_attacks, white_rook_attacks, black_rook_attacks,
    white_queen_attacks, black_queen_attacks, white_king_attacks,
    black_king_attacks.
  cbn [black_pawn_bitboard black_rook_bitboard black_knight_bitboard
       black_bishop_bitboard black_queen_bitboard black_king_bitboard
       white_pawn_bitboard white_rook_bitboard white_knight_bitboard
       white_bishop_bitboard white_queen_bitboard white_king_bitboard].
  repeat (split; [reflexivity |]). reflexivity.
Qed.

Lemma doubled_engine_wf : Engine_wf (board stale_board).
Proof.
  unfold Engine_wf.
  repeat (apply Forall_cons;
          [unfold Np.is_uint64; rewrite modulus_eq; cbn; lia |]).
  apply Forall_nil.
Defined.

Lemma update_board_always_succeeds_witness :
  Engine_wf (board stale_board) /\
  exists self', update_board stale_board = Returned self'.
Proof.
  split; [exact doubled_engine_wf |].
  destruct (update_board_always_succeeds stale_board doubled_engine_wf)
    as [self' [Hret _]].
  exists self'. exact Hret.
Defined.

(** C3 fails as stated: with a white pawn and a white rook both reported on
    square 0 the engine's masks overlap, yet [update_board] raises nothing
    and replaces the snapshot, which now holds the overlapping masks. *)
Lemma update_board_overlap_counterexample :
  overlapping (board stale_board) /\
  update_board stale_board <> Raised stale_board /\
  exists self',
    update_board stale_board = Returned self' /\
    self' <> stale_board /\
    white_pawn_bitboard self' = 1 /\ white_rook_bitboard self' = 1.
Proof.
  split; [| split].
  - right. vm_compute. reflexivity.
  - intros H. vm_compute in H. discriminate H.
  - eexists. split; [vm_compute; reflexivity |].
    split; [| split; reflexivity].
    intros H. apply (f_equal white_pawn_bitboard) in H.
    vm_compute in H. discriminate H.
Qed.

(** * Further properties of the code *)

(** ** Bit operations, square by square *)

Lemma one_shl_on_board (x j : Z) :
  Z.testbit (Np.shl 1 x) j = true -> 0 <= j < 64.
Proof.
  intros Hb.
  destruct (Z.ltb_spec j 0) as [Hn | Hn].
  - rewrite Z.testbit_neg_r in Hb by assumption. discriminate.
  - destruct (Z.ltb_spec j 64) as [Hl | Hh]; [lia |].
    rewrite (testbit_high _ j (one_shl_range x) Hh) in Hb. discriminate.
Qed.

Lemma member_on_board (bb j : Z) :
  Np.is_uint64 bb -> member j bb -> on_board j.
Proof.
  unfold member, on_board. intros Hbb Hm.
  destruct (Z.ltb_spec j 0) as [Hn | Hn].
  - rewrite Z.testbit_neg_r in Hm by assumption. discriminate.
  - destruct (Z.ltb_spec j 64) as [Hl | Hh]; [lia |].
    rewrite (testbit_high bb j Hbb Hh) in Hm. discriminate.
Qed.

(** [set_bit] adds exactly the square it is given and [clear_bit] removes
    exactly that square; both return 64-bit values. *)
Theorem set_clear_membership (bb s : Z) :
  Np.is_uint64 bb -> on_board s ->
  (forall j, member j (set_bit bb s) <-> j = s \/ member j bb) /\
  (forall j, member j (clear_bit bb s) <-> j <> s /\ member j bb) /\
  Np.is_uint64 (set_bit bb s) /\ Np.is_uint64 (clear_bit bb s).
Proof.
  intros Hbb Hs. pose proof (square_is_index s Hs) as Hi.
  assert (Hc : forall j, member j (clear_bit bb s) <-> j <> s /\ member j bb).
  { intros j. rewrite (member_clear_bit bb s j Hs). split.
    - tauto.
    - intros [Hne Hm]. pose proof (member_on_board bb j Hbb Hm). tauto. }
  split; [| split; [exact Hc | split]].
  - intros j. unfold member. rewrite testbit_set_bit by assumption.
    unfold on_board in Hs.
    destruct (Z.leb_spec 0 s), (Z.ltb_spec s 64); try lia.
    rewrite !andb_true_r. split.
    + intros Hx. apply andb_true_iff in Hx. destruct Hx as [_ Hx].
      apply orb_true_iff in Hx. destruct Hx as [Hx | Hx]; [now right |].
      left. now apply Z.eqb_eq.
    + intros [-> | Hm].
      * rewrite Z.eqb_refl, orb_true_r.
        destruct (Z.ltb_spec s 64); [reflexivity | lia].
      * rewrite Hm. pose proof (member_on_board bb j Hbb Hm) as Hj.
        unfold on_board in Hj. destruct (Z.ltb_spec j 64); [reflexivity | lia].
  - apply uint64_range.
  - unfold Np.is_uint64. split.
    + unfold clear_bit. apply Z.land_nonneg. left. apply Hbb.
    + destruct (Z.ltb_spec (clear_bit bb s) Np.modulus) as [Hlt | Hge];
        [exact Hlt | exfalso].
      assert (Hpos : 0 < clear_bit bb s) by (rewrite modulus_eq in Hge; lia).
      pose proof (Z.bit_log2 _ Hpos) as Hbit.
      apply Hc in Hbit. destruct Hbit as [_ Hbit].
      apply (member_on_board bb _ Hbb) in Hbit. unfold on_board in Hbit.
      assert (64 <= Z.log2 (clear_bit bb s)); [| lia].
      apply Z.log2_le_pow2; [exact Hpos | rewrite modulus_eq in Hge; exact Hge].
Qed.

Lemma set_clear_membership_witness :
  Np.is_uint64 5 /\ on_board 1 /\
  (forall j, member j (set_bit 5 1) <-> j = 1 \/ member j 5).
Proof.
  assert (H5 : Np.is_uint64 5) by (unfold Np.is_uint64; rewrite modulus_eq; lia).
  assert (H1 : on_board 1) by (unfold on_board; lia).
  split; [exact H5 | split; [exact H1 |]].
  pose proof (set_clear_membership 5 1 H5 H1) as H.
  destruct H as [H _]. exact H.
Defined.

(** An index off the board is not rejected: a negative index (down to
    -2^63) or one of 64 and more (below 2^64) becomes a shift that moves the
    bit out of the word, and both operations give the bitboard back
    unchanged. *)
Theorem bit_ops_off_board (bb s : Z) :
  Np.is_uint64 bb ->
  64 <= s < Np.modulus \/ - 2 ^ 63 <= s < 0 ->
  set_bit bb s = bb /\ clear_bit bb s = bb.
Proof.
  intros Hbb Hs.
  assert (Hi : 64 - Np.modulus <= s < Np.modulus)
    by (rewrite modulus_eq in *; lia).
  assert (Hoff : (0 <=? s) && (s <? 64) = false).
  { destruct (Z.leb_spec 0 s), (Z.ltb_spec s 64); try reflexivity.
    rewrite modulus_eq in Hs. lia. }
  assert (Hbits : forall j, Z.testbit bb j = true -> (0 <=? j) && (j <? 64) = true).
  { intros j Hm. pose proof (member_on_board bb j Hbb Hm) as Hj.
    unfold on_board in Hj.
    destruct (Z.leb_spec 0 j), (Z.ltb_spec j 64); (reflexivity || lia). }
  split; apply Z.bits_inj; intros j.
  - rewrite testbit_set_bit by assumption.
    rewrite <- andb_assoc, Hoff, andb_false_r, orb_false_r.
    destruct (Z.testbit bb j) eqn:Hb; [| apply andb_false_r].
    apply Hbits in Hb. apply andb_true_iff in Hb. destruct Hb as [_ Hb].
    rewrite Hb. reflexivity.
  - rewrite testbit_clear_bit by assumption.
    rewrite <- (andb_assoc (j =? s)), Hoff, andb_false_r. cbn [negb].
    rewrite andb_true_r.
    destruct (Z.testbit bb j) eqn:Hb; [| reflexivity].
    apply Hbits in Hb. rewrite Hb. reflexivity.
Qed.

Lemma bit_ops_off_board_witness :
  set_bit 5 (-3) = 5 /\ clear_bit 5 (-3) = 5.
Proof.
  apply (bit_ops_off_board 5 (-3)).
  - unfold Np.is_uint64; rewrite modulus_eq; lia.
  - right. lia.
Defined.

(** Setting or clearing twice is setting or clearing once, and setting a
    square after clearing it is setting it, for every 64-bit bitboard and
    every index the conversion to uint64 accepts, on the board or off it. *)
Theorem set_clear_absorb (bb s : Z) :
  Np.is_uint64 bb -> - 2 ^ 63 <= s < Np.modulus ->
  set_bit (set_bit bb s) s = set_bit bb s /\
  clear_bit (clear_bit bb s) s = clear_bit bb s /\
  set_bit (clear_bit bb s) s = set_bit bb s.
Proof.
  intros _ _. split; [| split].
  - apply Z.bits_inj. intros j. unfold set_bit.
    rewrite !testbit_uint64, !Z.lor_spec, testbit_uint64, Z.lor_spec.
    destruct (j <? 64), (Z.testbit bb j),
      (Z.testbit (Np.shl (Np.uint64 1) (Np.uint64 s)) j); reflexivity.
  - unfold clear_bit. rewrite <- Z.land_assoc, Z.land_diag. reflexivity.
  - apply Z.bits_inj. intros j. unfold set_bit, clear_bit.
    rewrite !testbit_uint64, !Z.lor_spec, Z.land_spec, testbit_inv.
    change (Np.uint64 1) with 1.
    destruct (Z.testbit (Np.shl 1 (Np.uint64 s)) j) eqn:Hm.
    + rewrite !orb_true_r. reflexivity.
    + rewrite !orb_false_r. cbn [negb]. rewrite andb_true_r.
      destruct (Z.ltb_spec j 64) as [Hl | Hh]; cbn [andb]; [| reflexivity].
      rewrite andb_true_r.
      destruct (Z.leb_spec 0 j) as [Hp | Hn]; [apply andb_true_r |].
      rewrite (Z.testbit_neg_r bb j) by assumption. reflexivity.
Qed.

Lemma set_clear_absorb_witness :
  Np.is_uint64 5 /\ - 2 ^ 63 <= 70 < Np.modulus /\
  set_bit (clear_bit 5 70) 70 = set_bit 5 70.
Proof.
  assert (H5 : Np.is_uint64 5) by (unfold Np.is_uint64; rewrite modulus_eq; lia).
  assert (H70 : - 2 ^ 63 <= 70 < Np.modulus) by (rewrite modulus_eq; lia).
  split; [exact H5 | split; [exact H70 |]].
  pose proof (set_clear_absorb 5 70 H5 H70) as H.
  destruct H as [_ [_ H]]. exact H.
Defined.

(** ** Jump pieces on every square *)

Lemma attack_table_sound (gen : Z -> Z) (rel : Z -> Z -> bool) :
  attack_table_ok gen rel = true ->
  forall s, on_board s ->
    Np.is_uint64 (gen s) /\
    (forall j, member j (gen s) <-> on_board j /\ rel s j = true).
Proof.
  unfold attack_table_ok. intros Ht s Hs.
  rewrite forallb_forall in Ht.
  specialize (Ht s (proj2 (in_range64 s) Hs)). cbv zeta in Ht.
  apply andb_true_iff in Ht. destruct Ht as [Hr Ht].
  apply andb_true_iff in Hr. destruct Hr as [Hlo Hhi].
  apply Z.leb_le in Hlo. apply Z.ltb_lt in Hhi.
  assert (Hu : Np.is_uint64 (gen s)) by (split; assumption).
  split; [exact Hu |].
  rewrite forallb_forall in Ht.
  intros j. split.
  - intros Hm. pose proof (member_on_board _ j Hu Hm) as Hj.
    split; [exact Hj |].
    specialize (Ht j (proj2 (in_range64 j) Hj)).
    apply eqb_prop in Ht. rewrite <- Ht. exact Hm.
  - intros [Hj Hrel].
    specialize (Ht j (proj2 (in_range64 j) Hj)).
    apply eqb_prop in Ht. unfold member. rewrite Ht. exact Hrel.
Qed.

Lemma knight_moveb_spec (s j : Z) : knight_moveb s j = true <-> knight_move s j.
Proof.
  unfold knight_moveb, knight_move.
  rewrite orb_true_iff, !andb_true_iff, !Z.eqb_eq. reflexivity.
Qed.

Lemma king_moveb_spec (s j : Z) : king_moveb s j = true <-> king_move s j.
Proof.
  unfold king_moveb, king_move.
  rewrite !andb_true_iff, negb_true_iff, Z.eqb_neq, !Z.leb_le. tauto.
Qed.

Lemma knight_table : attack_table_ok gen_knight_attack knight_moveb = true.
Proof. vm_compute. reflexivity. Qed.

Lemma king_table : attack_table_ok gen_king_attack king_moveb = true.
Proof. vm_compute. reflexivity. Qed.

Lemma member_knight_exact (s j : Z) :
  on_board s ->
  (member j (gen_knight_attack s) <-> on_board j /\ knight_move s j).
Proof.
  intros Hs.
  destruct (attack_table_sound _ _ knight_table s Hs) as [_ Hm].
  rewrite (Hm j), knight_moveb_spec. reflexivity.
Qed.

Lemma member_king_exact (s j : Z) :
  on_board s ->
  (member j (gen_king_attack s) <-> on_board j /\ king_move s j).
Proof.
  intros Hs.
  destruct (attack_table_sound _ _ king_table s Hs) as [_ Hm].
  rewrite (Hm j), king_moveb_spec. reflexivity.
Qed.

(** For every square of the board the knight mask holds exactly the squares
    of the board a knight's leap away: no leap wraps around a board edge,
    and no square off the board is set. *)
Theorem gen_knight_attack_exact (s : Z) :
  on_board s ->
  Np.is_uint64 (gen_knight_attack s) /\
  (forall j, member j (gen_knight_attack s) <-> on_board j /\ knight_move s j).
Proof.
  intros Hs.
  destruct (attack_table_sound _ _ knight_table s Hs) as [Hu _].
  split; [exact Hu |].
  intros j. apply member_knight_exact, Hs.
Qed.

Lemma gen_knight_attack_exact_witness :
  on_board 63 /\
  (forall j, member j (gen_knight_attack 63) <-> on_board j /\ knight_move 63 j).
Proof.
  assert (H0 : on_board 63) by (unfold on_board; lia).
  split; [exact H0 |].
  pose proof (gen_knight_attack_exact 63 H0) as H. destruct H as [_ H]. exact H.
Defined.

(** For every square of the board the king mask holds exactly the other
    squares of the board at most one file and one rank away. *)
Theorem gen_king_attack_exact (s : Z) :
  on_board s ->
  Np.is_uint64 (gen_king_attack s) /\
  (forall j, member j (gen_king_attack s) <-> on_board j /\ king_move s j).
Proof.
  intros Hs.
  destruct (attack_table_sound _ _ king_table s Hs) as [Hu _].
  split; [exact Hu |].
  intros j. apply member_king_exact, Hs.
Qed.

Lemma gen_king_attack_exact_witness :
  on_board 7 /\
  (forall j, member j (gen_king_attack 7) <-> on_board j /\ king_move 7 j).
Proof.
  assert (H0 : on_board 7) by (unfold on_board; lia).
  split; [exact H0 |].
  pose proof (gen_king_attack_exact 7 H0) as H. destruct H as [_ H]. exact H.
Defined.

(** ** Rays cast into an accumulator *)

Lemma clear_bit_idem (bb s : Z) : clear_bit (clear_bit bb s) s = clear_bit bb s.
Proof. unfold clear_bit. rewrite <- Z.land_assoc, Z.land_diag. reflexivity. Qed.

(** Every ray function ends by clearing the origin bit. *)
Lemma clear_bit_empty_ray (d : Direction) (s : Z) :
  clear_bit (get_ray d 0 s) s = get_ray d 0 s.
Proof.
  destruct d; cbn [get_ray].
  - unfold get_north_ray. cbv zeta. apply clear_bit_idem.
  - unfold get_south_ray. cbv zeta. apply clear_bit_idem.
  - unfold get_east_ray. cbv zeta. apply clear_bit_idem.
  - unfold get_west_ray. cbv zeta. apply clear_bit_idem.
  - unfold get_northeast_ray. cbv zeta. apply clear_bit_idem.
  - unfold get_northwest_ray. cbv zeta. apply clear_bit_idem.
  - unfold get_southeast_ray. cbv zeta. apply clear_bit_idem.
  - unfold get_southwest_ray. cbv zeta. apply clear_bit_idem.
Qed.

Lemma clear_bit_ray (d : Direction) (bb s : Z) :
  clear_bit (get_ray d bb s) s = get_ray d bb s.
Proof.
  rewrite (ray_accumulates d bb s), clear_bit_lor, clear_bit_idem,
    clear_bit_empty_ray.
  reflexivity.
Qed.

(** For an origin on the board and any 64-bit accumulator, a ray function
    returns the accumulator with the origin bit cleared, united with the
    ray it casts on the empty board; casting the same ray twice is casting
    it once, and two rays from one origin can be cast in either order. *)
Theorem ray_cast_algebra (d d' : Direction) (bb s : Z) :
  Np.is_uint64 bb -> on_board s ->
  get_ray d bb s = Z.lor (clear_bit bb s) (get_ray d 0 s) /\
  get_ray d (get_ray d bb s) s = get_ray d bb s /\
  get_ray d (get_ray d' bb s) s = get_ray d' (get_ray d bb s) s.
Proof.
  intros _ _. split; [apply ray_accumulates | split].
  - rewrite (ray_accumulates d (get_ray d bb s) s), clear_bit_ray.
    rewrite (ray_accumulates d bb s), <- Z.lor_assoc, Z.lor_diag.
    reflexivity.
  - rewrite (ray_accumulates d (get_ray d' bb s) s), clear_bit_ray.
    rewrite (ray_accumulates d' (get_ray d bb s) s), clear_bit_ray.
    rewrite (ray_accumulates d' bb s), (ray_accumulates d bb s).
    rewrite <- !Z.lor_assoc.
    rewrite (Z.lor_comm (get_ray d' 0 s) (get_ray d 0 s)). reflexivity.
Qed.

Lemma ray_cast_algebra_witness :
  Np.is_uint64 5 /\ on_board 27 /\
  get_ray East (get_ray North 5 27) 27 = get_ray North (get_ray East 5 27) 27.
Proof.
  assert (H5 : Np.is_uint64 5) by (unfold Np.is_uint64; rewrite modulus_eq; lia).
  assert (H0 : on_board 27) by (unfold on_board; lia).
  split; [exact H5 | split; [exact H0 |]].
  pose proof (ray_cast_algebra East North 5 27 H5 H0) as H.
  destruct H as [_ [_ H]]. exact H.
Defined.

(** For an origin on the board, the squares of a ray cast into a 64-bit
    accumulator are the squares of the accumulator other than the origin
    and the squares of the true ray; the origin itself is never set, even
    when the accumulator held it. *)
Theorem ray_cast_membership (d : Direction) (bb s : Z) :
  Np.is_uint64 bb -> on_board s ->
  (forall j, member j (get_ray d bb s) <->
             (member j bb /\ on_board j /\ j <> s) \/ on_ray d s j) /\
  ~ member s (get_ray d bb s).
Proof.
  intros _ Hs.
  assert (Hm : forall j, member j (get_ray d bb s) <->
             (member j bb /\ on_board j /\ j <> s) \/ on_ray d s j).
  { intros j. rewrite <- (member_clear_bit bb s j Hs).
    apply member_ray, Hs. }
  split; [exact Hm |].
  intros Hin. apply Hm in Hin. destruct Hin as [[_ [_ Hne]] | Hr].
  - apply Hne. reflexivity.
  - exact (on_ray_not_origin d s Hr).
Qed.

Lemma ray_cast_membership_witness :
  Np.is_uint64 1 /\ on_board 0 /\ ~ member 0 (get_ray East 1 0).
Proof.
  assert (H1 : Np.is_uint64 1) by (unfold Np.is_uint64; rewrite modulus_eq; lia).
  assert (H0 : on_board 0) by (unfold on_board; lia).
  split; [exact H1 | split; [exact H0 |]].
  pose proof (ray_cast_membership East 1 0 H1 H0) as H.
  destruct H as [_ H]. exact H.
Defined.

(** ** Sliding pieces on every square *)

Lemma on_ray_direction_unique (d1 d2 : Direction) (s j : Z) :
  on_ray d1 s j -> on_ray d2 s j -> d1 = d2.
Proof.
  intros [_ [k1 [Hk1 [Hf1 Hr1]]]] [_ [k2 [Hk2 [Hf2 Hr2]]]].
  destruct d1, d2; cbn [file_step rank_step] in *;
    try reflexivity; exfalso; lia.
Qed.

(** For an origin on the board the bishop and rook masks are the unions of
    the rays cast one by one on the empty board, and the rays of two
    different directions share no square. *)
Theorem sliding_masks_are_ray_unions (s : Z) :
  on_board s ->
  gen_bishop_attack s
  = Z.lor (Z.lor (Z.lor (get_northeast_ray 0 s) (get_southwest_ray 0 s))
                 (get_northwest_ray 0 s))
          (get_southeast_ray 0 s) /\
  gen_rook_attack_row s = Z.lor (get_north_ray 0 s) (get_south_ray 0 s) /\
  gen_rook_attack_file s = Z.lor (get_east_ray 0 s) (get_west_ray 0 s) /\
  (forall d1 d2, d1 <> d2 -> Z.land (get_ray d1 0 s) (get_ray d2 0 s) = 0).
Proof.
  intros Hs. split; [| split; [| split]].
  - unfold gen_bishop_attack. cbv zeta. change (Np.uint64 0) with 0.
    rewrite <- (get_ray_northeast 0 s).
    rewrite <- (get_ray_southwest (get_ray NorthEast 0 s) s).
    rewrite <- (get_ray_northwest (get_ray SouthWest _ s) s).
    rewrite <- (get_ray_southeast (get_ray NorthWest _ s) s).
    rewrite <- (get_ray_southwest 0 s), <- (get_ray_northwest 0 s),
      <- (get_ray_southeast 0 s).
    rewrite clear_bit_ray.
    rewrite (ray_accumulates SouthEast (get_ray NorthWest _ s) s), clear_bit_ray.
    rewrite (ray_accumulates NorthWest (get_ray SouthWest _ s) s), clear_bit_ray.
    rewrite (ray_accumulates SouthWest (get_ray NorthEast 0 s) s), clear_bit_ray.
    reflexivity.
  - unfold gen_rook_attack_row. cbv zeta. change (Np.uint64 0) with 0.
    rewrite <- (get_ray_north 0 s).
    rewrite <- (get_ray_south (get_ray North 0 s) s), <- (get_ray_south 0 s).
    rewrite clear_bit_ray.
    rewrite (ray_accumulates South (get_ray North 0 s) s), clear_bit_ray.
    reflexivity.
  - unfold gen_rook_attack_file. cbv zeta. change (Np.uint64 0) with 0.
    rewrite <- (get_ray_east 0 s).
    rewrite <- (get_ray_west (get_ray East 0 s) s), <- (get_ray_west 0 s).
    rewrite clear_bit_ray.
    rewrite (ray_accumulates West (get_ray East 0 s) s), clear_bit_ray.
    reflexivity.
  - intros d1 d2 Hne. apply Z.bits_inj. intros j.
    rewrite Z.testbit_0_l, Z.land_spec.
    rewrite (testbit_ray d1 s j Hs), (testbit_ray d2 s j Hs).
    destruct (on_rayb d1 s j) eqn:H1; [| reflexivity].
    destruct (on_rayb d2 s j) eqn:H2; [| reflexivity].
    apply (on_rayb_spec d1 s j Hs) in H1. apply (on_rayb_spec d2 s j Hs) in H2.
    exfalso. apply Hne. exact (on_ray_direction_unique d1 d2 s j H1 H2).
Qed.

Lemma sliding_masks_are_ray_unions_witness :
  on_board 27 /\ Z.land (get_ray North 0 27) (get_ray NorthEast 0 27) = 0.
Proof.
  assert (H0 : on_board 27) by (unfold on_board; lia).
  split; [exact H0 |].
  pose proof (sliding_masks_are_ray_unions 27 H0) as H.
  destruct H as [_ [_ [_ H]]]. apply H. discriminate.
Defined.

Lemma square_of_file_rank (s j : Z) :
  on_board s -> on_board j ->
  file_of j = file_of s -> rank_of j = rank_of s -> j = s.
Proof.
  intros Hs Hj Hf Hr.
  destruct (file_rank_bounds s Hs) as [_ [_ Es]].
  destruct (file_rank_bounds j Hj) as [_ [_ Ej]]. lia.
Qed.

(** Squares on a common diagonal are joined by a diagonal ray. *)
Lemma diagonal_has_ray (s j : Z) :
  on_board s -> on_board j -> j <> s ->
  rank_distance s j = file_distance s j ->
  on_ray NorthEast s j \/ on_ray SouthWest s j \/
  on_ray NorthWest s j \/ on_ray SouthEast s j.
Proof.
  unfold rank_distance, file_distance. intros Hs Hj Hne Hd.
  assert (Hf : file_of j <> file_of s).
  { intros Hf. apply Hne. apply (square_of_file_rank s j Hs Hj Hf). lia. }
  unfold on_ray. cbn [file_step rank_step].
  destruct (Z_lt_le_dec (file_of s) (file_of j)) as [Hlt | Hge];
    destruct (Z_lt_le_dec (rank_of s) (rank_of j)) as [Hr | Hr].
  - left. split; [exact Hj |]. exists (file_of j - file_of s). lia.
  - right; right; right. split; [exact Hj |].
    exists (file_of j - file_of s). lia.
  - right; right; left. split; [exact Hj |].
    exists (file_of s - file_of j). lia.
  - right; left. split; [exact Hj |]. exists (file_of s - file_of j). lia.
Qed.

Lemma member_bishop_exact (s j : Z) :
  on_board s ->
  (member j (gen_bishop_attack s) <->
   on_board j /\ j <> s /\ rank_distance s j = file_distance s j).
Proof.
  intros Hs. rewrite (member_bishop s j Hs). split.
  - intros H.
    assert (Hd : exists d, file_step d <> 0 /\ rank_step d <> 0 /\ on_ray d s j).
    { destruct H as [H | [H | [H | H]]];
        [exists NorthEast | exists SouthWest | exists NorthWest
         | exists SouthEast]; (split; [cbn; lia | split; [cbn; lia | exact H]]). }
    destruct Hd as [d [Hf [Hr Hd]]].
    destruct (on_ray_elsewhere d s j Hd) as [Hj Hne].
    destruct (diagonal_ray_deltas d s j Hf Hr Hd) as [He _].
    unfold rank_distance, file_distance. tauto.
  - intros [Hj [Hne Hd]]. apply diagonal_has_ray; assumption.
Qed.

(** For every square of the board the bishop mask holds exactly the other
    squares of the board on its two diagonals. *)
Theorem gen_bishop_attack_exact (s : Z) :
  on_board s ->
  forall j, member j (gen_bishop_attack s) <->
            on_board j /\ j <> s /\ rank_distance s j = file_distance s j.
Proof. intros Hs j. apply member_bishop_exact, Hs. Qed.

Lemma gen_bishop_attack_exact_witness :
  on_board 0 /\
  (member 63 (gen_bishop_attack 0) <->
   on_board 63 /\ 63 <> 0 /\ rank_distance 0 63 = file_distance 0 63).
Proof.
  assert (H0 : on_board 0) by (unfold on_board; lia).
  split; [exact H0 |].
  apply (gen_bishop_attack_exact 0 H0).
Defined.

(** Squares on a common file or rank are joined by a straight ray. *)
Lemma file_has_ray (s j : Z) :
  on_board s -> on_board j -> j <> s -> file_of j = file_of s ->
  on_ray North s j \/ on_ray South s j.
Proof.
  intros Hs Hj Hne Hf.
  assert (Hr : rank_of j <> rank_of s).
  { intros Hr. apply Hne. apply (square_of_file_rank s j Hs Hj Hf Hr). }
  unfold on_ray. cbn [file_step rank_step].
  destruct (Z_lt_le_dec (rank_of s) (rank_of j)) as [Hlt | Hge].
  - left. split; [exact Hj |]. exists (rank_of j - rank_of s). lia.
  - right. split; [exact Hj |]. exists (rank_of s - rank_of j). lia.
Qed.

Lemma rank_has_ray (s j : Z) :
  on_board s -> on_board j -> j <> s -> rank_of j = rank_of s ->
  on_ray East s j \/ on_ray West s j.
Proof.
  intros Hs Hj Hne Hr.
  assert (Hf : file_of j <> file_of s).
  { intros Hf. apply Hne. apply (square_of_file_rank s j Hs Hj Hf Hr). }
  unfold on_ray. cbn [file_step rank_step].
  destruct (Z_lt_le_dec (file_of s) (file_of j)) as [Hlt | Hge].
  - left. split; [exact Hj |]. exists (file_of j - file_of s). lia.
  - right. split; [exact Hj |]. exists (file_of s - file_of j). lia.
Qed.

Lemma member_rook_row_exact (s j : Z) :
  on_board s ->
  (member j (gen_rook_attack_row s) <->
   on_board j /\ j <> s /\ file_of j = file_of s).
Proof.
  intros Hs. rewrite (member_rook_row s j Hs). split.
  - intros [H | H]; destruct (on_ray_elsewhere _ s j H) as [Hj Hne];
      destruct H as [_ [k [Hk [Hf _]]]]; cbn [file_step] in Hf;
      (split; [exact Hj | split; [exact Hne | lia]]).
  - intros [Hj [Hne Hf]]. apply file_has_ray; assumption.
Qed.

Lemma member_rook_file_exact (s j : Z) :
  on_board s ->
  (member j (gen_rook_attack_file s) <->
   on_board j /\ j <> s /\ rank_of j = rank_of s).
Proof.
  intros Hs. rewrite (member_rook_file s j Hs). split.
  - intros [H | H]; destruct (on_ray_elsewhere _ s j H) as [Hj Hne];
      destruct H as [_ [k [Hk [_ Hr]]]]; cbn [rank_step] in Hr;
      (split; [exact Hj | split; [exact Hne | lia]]).
  - intros [Hj [Hne Hr]]. apply rank_has_ray; assumption.
Qed.

(** For every square of the board, [gen_rook_attack_row] holds exactly the
    other squares of its file (it casts the north and south rays) and
    [gen_rook_attack_file] exactly the other squares of its rank (it casts
    the east and west rays). *)
Theorem gen_rook_attack_exact (s : Z) :
  on_board s ->
  (forall j, member j (gen_rook_attack_row s) <->
             on_board j /\ j <> s /\ file_of j = file_of s) /\
  (forall j, member j (gen_rook_attack_file s) <->
             on_board j /\ j <> s /\ rank_of j = rank_of s).
Proof.
  intros Hs. split; intros j.
  - apply member_rook_row_exact, Hs.
  - apply member_rook_file_exact, Hs.
Qed.

Lemma gen_rook_attack_exact_witness :
  on_board 0 /\
  (member 56 (gen_rook_attack_row 0) <->
   on_board 56 /\ 56 <> 0 /\ file_of 56 = file_of 0).
Proof.
  assert (H0 : on_board 0) by (unfold on_board; lia).
  split; [exact H0 |].
  pose proof (gen_rook_attack_exact 0 H0) as H. destruct H as [H _]. apply H.
Defined.

Lemma member_queen_exact (s j : Z) :
  on_board s ->
  (member j (gen_queen_attack s) <->
   on_board j /\ j <> s /\
   (file_of j = file_of s \/ rank_of j = rank_of s \/
    rank_distance s j = file_distance s j)).
Proof.
  intros Hs. unfold gen_queen_attack, member.
  rewrite !Z.lor_spec, !orb_true_iff.
  fold (member j (gen_bishop_attack s)).
  fold (member j (gen_rook_attack_row s)).
  fold (member j (gen_rook_attack_file s)).
  rewrite (member_rook_row_exact s j Hs), (member_rook_file_exact s j Hs).
  split.
  - intros [[Hb | Hr] | Hf].
    + apply (member_bishop s j Hs) in Hb.
      assert (Hd : exists d, file_step d <> 0 /\ rank_step d <> 0 /\ on_ray d s j).
      { destruct Hb as [H | [H | [H | H]]];
          [exists NorthEast | exists SouthWest | exists NorthWest
           | exists SouthEast];
          (split; [cbn; lia | split; [cbn; lia | exact H]]). }
      destruct Hd as [d [Hf [Hr Hd]]].
      destruct (on_ray_elsewhere d s j Hd) as [Hj Hne].
      destruct (diagonal_ray_deltas d s j Hf Hr Hd) as [He _].
      unfold rank_distance, file_distance. tauto.
    + tauto.
    + tauto.
  - intros [Hj [Hne [Hf | [Hr | Hd]]]].
    + left; right. tauto.
    + right. tauto.
    + left; left. apply (member_bishop s j Hs).
      apply diagonal_has_ray; assumption.
Qed.

(** For every square of the board the queen mask holds exactly the other
    squares of the board on its file, its rank or its diagonals. *)
Theorem gen_queen_attack_exact (s : Z) :
  on_board s ->
  forall j, member j (gen_queen_attack s) <->
            on_board j /\ j <> s /\
            (file_of j = file_of s \/ rank_of j = rank_of s \/
             rank_distance s j = file_distance s j).
Proof. intros Hs j. apply member_queen_exact, Hs. Qed.

Lemma gen_queen_attack_exact_witness :
  on_board 0 /\
  (member 7 (gen_queen_attack 0) <->
   on_board 7 /\ 7 <> 0 /\
   (file_of 7 = file_of 0 \/ rank_of 7 = rank_of 0 \/
    rank_distance 0 7 = file_distance 0 7)).
Proof.
  assert (H0 : on_board 0) by (unfold on_board; lia).
  split; [exact H0 |].
  apply (gen_queen_attack_exact 0 H0).
Defined.

(** On the empty board a rook attacks 14 squares from every square; a
    bishop attacks between 7 and 13, a queen between 21 and 27, a knight
    between 2 and 8 and a king between 3 and 8. *)
Theorem attack_counts (s : Z) :
  on_board s ->
  count_squares (gen_rook_attack s) = 14%nat /\
  (7 <= count_squares (gen_bishop_attack s) <= 13)%nat /\
  (21 <= count_squares (gen_queen_attack s) <= 27)%nat /\
  (2 <= count_squares (gen_knight_attack s) <= 8)%nat /\
  (3 <= count_squares (gen_king_attack s) <= 8)%nat.
Proof.
  intros Hs.
  pose proof
    (forall_squares
       (fun s =>
          Nat.eqb (count_squares (gen_rook_attack s)) 14 &&
          (Nat.leb 7 (count_squares (gen_bishop_attack s)) &&
           Nat.leb (count_squares (gen_bishop_attack s)) 13) &&
          (Nat.leb 21 (count_squares (gen_queen_attack s)) &&
           Nat.leb (count_squares (gen_queen_attack s)) 27) &&
          (Nat.leb 2 (count_squares (gen_knight_attack s)) &&
           Nat.leb (count_squares (gen_knight_attack s)) 8) &&
          (Nat.leb 3 (count_squares (gen_king_attack s)) &&
           Nat.leb (count_squares (gen_king_attack s)) 8))
       ltac:(vm_compute; reflexivity) s Hs) as H.
  cbv beta in H.
  repeat match goal with
         | Hx : _ && _ = true |- _ =>
             apply andb_true_iff in Hx; destruct Hx
         end.
  repeat match goal with
         | Hx : Nat.eqb _ _ = true |- _ => apply Nat.eqb_eq in Hx
         | Hx : Nat.leb _ _ = true |- _ => apply Nat.leb_le in Hx
         end.
  lia.
Qed.

Lemma attack_counts_witness :
  on_board 0 /\ count_squares (gen_rook_attack 0) = 14%nat.
Proof.
  assert (H0 : on_board 0) by (unfold on_board; lia).
  split; [exact H0 |].
  pose proof (attack_counts 0 H0) as H. destruct H as [H _]. exact H.
Defined.

(** ** Attacks go both ways *)

Lemma distance_sym (s j : Z) :
  file_distance s j = file_distance j s /\ rank_distance s j = rank_distance j s.
Proof. unfold file_distance, rank_distance. lia. Qed.

(** On the empty board every piece attacks a square exactly when it would
    attack its own square from there: the five per-square masks are
    symmetric relations on the board. *)
Theorem attacks_are_symmetric (s j : Z) :
  on_board s -> on_board j ->
  (member j (gen_knight_attack s) <-> member s (gen_knight_attack j)) /\
  (member j (gen_king_attack s) <-> member s (gen_king_attack j)) /\
  (member j (gen_bishop_attack s) <-> member s (gen_bishop_attack j)) /\
  (member j (gen_rook_attack s) <-> member s (gen_rook_attack j)) /\
  (member j (gen_queen_attack s) <-> member s (gen_queen_attack j)).
Proof.
  intros Hs Hj. destruct (distance_sym s j) as [Ef Er].
  split; [| split; [| split; [| split]]].
  - rewrite (member_knight_exact s j Hs), (member_knight_exact j s Hj).
    unfold knight_move. rewrite Ef, Er. tauto.
  - rewrite (member_king_exact s j Hs), (member_king_exact j s Hj).
    unfold king_move. rewrite Ef, Er.
    split; intros [_ [Hne H]]; (split; [assumption | split; [congruence | exact H]]).
  - rewrite (member_bishop_exact s j Hs), (member_bishop_exact j s Hj).
    rewrite Ef, Er.
    split; intros [_ [Hne H]]; (split; [assumption | split; [congruence | exact H]]).
  - unfold gen_rook_attack, member. rewrite !Z.lor_spec, !orb_true_iff.
    fold (member j (gen_rook_attack_file s)). fold (member j (gen_rook_attack_row s)).
    fold (member s (gen_rook_attack_file j)). fold (member s (gen_rook_attack_row j)).
    rewrite (member_rook_row_exact s j Hs), (member_rook_row_exact j s Hj).
    rewrite (member_rook_file_exact s j Hs), (member_rook_file_exact j s Hj).
    split; intros [[_ [Hne H]] | [_ [Hne H]]];
      [left | right | left | right];
      (split; [assumption | split; [congruence | congruence]]).
  - rewrite (member_queen_exact s j Hs), (member_queen_exact j s Hj).
    rewrite Ef, Er.
    split; intros [_ [Hne H]];
      (split; [assumption | split; [congruence |]]);
      destruct H as [H | [H | H]]; auto.
Qed.

Lemma attacks_are_symmetric_witness :
  on_board 0 /\ on_board 17 /\
  (member 17 (gen_knight_attack 0) <-> member 0 (gen_knight_attack 17)).
Proof.
  assert (H0 : on_board 0) by (unfold on_board; lia).
  assert (H1 : on_board 17) by (unfold on_board; lia).
  split; [exact H0 | split; [exact H1 |]].
  pose proof (attacks_are_symmetric 0 17 H0 H1) as H.
  destruct H as [H _]. exact H.
Defined.

(** ** The scan of the occupied squares *)

Lemma seq_sorted (a n : nat) : StronglySorted lt (seq a n).
Proof.
  revert a. induction n as [| n IH]; intros a; simpl; constructor.
  - apply IH.
  - apply Forall_forall. intros x Hx. apply in_seq in Hx. lia.
Qed.

Lemma map_of_nat_sorted (l : list nat) :
  StronglySorted lt l -> StronglySorted Z.lt (map Z.of_nat l).
Proof.
  induction 1 as [| a l Hs IH Ha]; simpl; constructor.
  - exact IH.
  - apply Forall_forall. intros z Hz. apply in_map_iff in Hz.
    destruct Hz as [n [<- Hn]]. rewrite Forall_forall in Ha.
    specialize (Ha n Hn). lia.
Qed.

Lemma filter_sorted (p : Z -> bool) (l : list Z) :
  StronglySorted Z.lt l -> StronglySorted Z.lt (filter p l).
Proof.
  induction 1 as [| a l Hs IH Ha]; simpl; [constructor |].
  destruct (p a); [| exact IH].
  constructor; [exact IH |].
  apply Forall_forall. intros z Hz. apply filter_In in Hz.
  rewrite Forall_forall in Ha. apply Ha, Hz.
Qed.

Lemma sorted_nodup (l : list Z) : StronglySorted Z.lt l -> NoDup l.
Proof.
  induction 1 as [| a l Hs IH Ha]; constructor; [| exact IH].
  intros Hin. rewrite Forall_forall in Ha. specialize (Ha a Hin). lia.
Qed.

(** For a 64-bit bitboard the five [get_*_squares] functions return the
    same list: the squares of the board whose bit is set in the bitboard,
    each once, in increasing order. *)
Theorem get_squares_exact (bitboard : Z) :
  Np.is_uint64 bitboard ->
  (forall sq, In sq (get_knight_squares bitboard) <->
              on_board sq /\ member sq bitboard) /\
  StronglySorted Z.lt (get_knight_squares bitboard) /\
  NoDup (get_knight_squares bitboard) /\
  get_bishop_squares bitboard = get_knight_squares bitboard /\
  get_rook_squares bitboard = get_knight_squares bitboard /\
  get_queen_squares bitboard = get_knight_squares bitboard /\
  get_king_squares bitboard = get_knight_squares bitboard.
Proof.
  intros _.
  assert (Hsorted : StronglySorted Z.lt (get_knight_squares bitboard)).
  { rewrite get_squares_spec. unfold squares_of. apply filter_sorted.
    unfold range64. apply map_of_nat_sorted, seq_sorted. }
  split; [| split; [exact Hsorted | split; [apply sorted_nodup, Hsorted |]]].
  - intros sq. rewrite get_squares_spec. unfold squares_of.
    rewrite filter_In, in_range64. unfold on_board, member. reflexivity.
  - unfold get_bishop_squares, get_rook_squares, get_queen_squares,
      get_king_squares, get_knight_squares.
    split; [reflexivity | split; [reflexivity | split; reflexivity]].
Qed.

Lemma get_squares_exact_witness :
  Np.is_uint64 5 /\ NoDup (get_knight_squares 5).
Proof.
  assert (H5 : Np.is_uint64 5) by (unfold Np.is_uint64; rewrite modulus_eq; lia).
  split; [exact H5 |].
  pose proof (get_squares_exact 5 H5) as H.
  destruct H as [_ [_ [H _]]]. exact H.
Defined.

(** ** What the aggregators compute *)

Lemma member_aggregate (gen : Z -> Z) (bitboard j : Z) :
  member j (aggregate gen bitboard) <->
  exists sq, on_board sq /\ member sq bitboard /\ member j (gen sq).
Proof.
  unfold member. rewrite testbit_aggregate, existsb_exists. split.
  - intros [sq [Hin Hb]]. apply andb_true_iff in Hb.
    exists sq. split; [apply in_range64, Hin | exact Hb].
  - intros [sq [Hsq [Hb Hg]]]. exists sq.
    split; [apply in_range64, Hsq | now rewrite Hb, Hg].
Qed.

(** For a 64-bit occupancy, a square is in an aggregated attack mask
    exactly when some occupied square of the board attacks it. *)
Theorem make_attack_membership (bitboard j : Z) :
  Np.is_uint64 bitboard ->
  (member j (make_knight_attack bitboard) <->
   exists sq, on_board sq /\ member sq bitboard /\
              member j (gen_knight_attack sq)) /\
  (member j (make_bishop_attack bitboard) <->
   exists sq, on_board sq /\ member sq bitboard /\
              member j (gen_bishop_attack sq)) /\
  (member j (make_rook_attack bitboard) <->
   exists sq, on_board sq /\ member sq bitboard /\
              member j (gen_rook_attack sq)) /\
  (member j (make_queen_attack bitboard) <->
   exists sq, on_board sq /\ member sq bitboard /\
              member j (gen_queen_attack sq)) /\
  (member j (make_king_attack bitboard) <->
   exists sq, on_board sq /\ member sq bitboard /\
              member j (gen_king_attack sq)).
Proof.
  intros _. split; [| split; [| split; [| split]]].
  - rewrite (make_knight_is_aggregate bitboard). apply member_aggregate.
  - rewrite (make_bishop_is_aggregate bitboard). apply member_aggregate.
  - rewrite (make_rook_is_aggregate bitboard).
    apply (member_aggregate gen_rook_attack).
  - rewrite (make_queen_is_aggregate bitboard). apply member_aggregate.
  - rewrite (make_king_is_aggregate bitboard). apply member_aggregate.
Qed.

Lemma make_attack_membership_witness :
  Np.is_uint64 5 /\
  (member 10 (make_knight_attack 5) <->
   exists sq, on_board sq /\ member sq 5 /\
              member 10 (gen_knight_attack sq)).
Proof.
  assert (H5 : Np.is_uint64 5) by (unfold Np.is_uint64; rewrite modulus_eq; lia).
  split; [exact H5 |].
  pose proof (make_attack_membership 5 10 H5) as H.
  destruct H as [H _]. exact H.
Defined.

Lemma existsb_absent (f : Z -> bool) (s : Z) (l : list Z) :
  ~ In s l -> existsb (fun sq => (sq =? s) && f sq) l = false.
Proof.
  induction l as [| x l IH]; intros Hx; [reflexivity |].
  simpl. destruct (Z.eqb_spec x s) as [-> | Hne].
  - exfalso. apply Hx. left. reflexivity.
  - cbn [andb orb]. apply IH. intros Hin. apply Hx. right. exact Hin.
Qed.

Lemma existsb_at (f : Z -> bool) (s : Z) (l : list Z) :
  NoDup l -> In s l ->
  existsb (fun sq => (sq =? s) && f sq) l = f s.
Proof.
  intros Hnd. induction Hnd as [| x l Hx Hl IH]; intros Hin; [contradiction |].
  simpl. destruct (Z.eqb_spec x s) as [-> | Hne]; cbn [andb orb].
  - rewrite (existsb_absent f s l Hx). apply orb_false_r.
  - apply IH. destruct Hin as [-> | Hin]; [contradiction | exact Hin].
Qed.

Lemma range64_nodup : NoDup range64.
Proof.
  apply sorted_nodup. unfold range64. apply map_of_nat_sorted, seq_sorted.
Qed.

Lemma testbit_single (s sq : Z) :
  on_board s -> Z.testbit (set_bit 0 s) sq = (sq =? s).
Proof.
  intros Hs. rewrite testbit_set_bit by (apply square_is_index, Hs).
  rewrite Z.testbit_0_l. cbn [orb]. unfold on_board in Hs. lia.
Qed.

Lemma aggregate_single (gen : Z -> Z) (s : Z) :
  on_board s -> aggregate gen (set_bit 0 s) = gen s.
Proof.
  intros Hs. apply Z.bits_inj. intros j. rewrite testbit_aggregate.
  rewrite (existsb_pointwise _ (fun sq => (sq =? s) && Z.testbit (gen sq) j)).
  - apply (existsb_at (fun sq => Z.testbit (gen sq) j) s range64).
    + apply range64_nodup.
    + apply in_range64, Hs.
  - intros sq. now rewrite (testbit_single s sq Hs).
Qed.

(** For an occupancy with a single piece, on a square of the board, each
    aggregator returns the per-square mask of that square. *)
Theorem make_attack_single (s : Z) :
  on_board s ->
  make_knight_attack (set_bit 0 s) = gen_knight_attack s /\
  make_bishop_attack (set_bit 0 s) = gen_bishop_attack s /\
  make_rook_attack (set_bit 0 s) = gen_rook_attack s /\
  make_queen_attack (set_bit 0 s) = gen_queen_attack s /\
  make_king_attack (set_bit 0 s) = gen_king_attack s.
Proof.
  intros Hs. split; [| split; [| split; [| split]]].
  - rewrite (make_knight_is_aggregate (set_bit 0 s)).
    apply aggregate_single, Hs.
  - rewrite (make_bishop_is_aggregate (set_bit 0 s)).
    apply aggregate_single, Hs.
  - rewrite (make_rook_is_aggregate (set_bit 0 s)).
    apply (aggregate_single gen_rook_attack), Hs.
  - rewrite (make_queen_is_aggregate (set_bit 0 s)).
    apply aggregate_single, Hs.
  - rewrite (make_king_is_aggregate (set_bit 0 s)).
    apply aggregate_single, Hs.
Qed.

Lemma make_attack_single_witness :
  on_board 0 /\ make_knight_attack (set_bit 0 0) = gen_knight_attack 0.
Proof.
  assert (H0 : on_board 0) by (unfold on_board; lia).
  split; [exact H0 |].
  pose proof (make_attack_single 0 H0) as H. destruct H as [H _]. exact H.
Defined.

(** The aggregated queen attack of a 64-bit occupancy is the aggregated
    bishop attack united with the aggregated rook attack of the same
    occupancy. *)
Theorem make_queen_is_bishop_or_rook (bitboard : Z) :
  Np.is_uint64 bitboard ->
  make_queen_attack bitboard
  = Z.lor (make_bishop_attack bitboard) (make_rook_attack bitboard).
Proof.
  intros _.
  rewrite (make_queen_is_aggregate bitboard),
    (make_bishop_is_aggregate bitboard), (make_rook_is_aggregate bitboard).
  apply Z.bits_inj. intros j.
  rewrite Z.lor_spec, !testbit_aggregate, <- existsb_orb.
  apply existsb_pointwise. intros sq. unfold gen_queen_attack.
  rewrite !Z.lor_spec.
  destruct (Z.testbit bitboard sq), (Z.testbit (gen_bishop_attack sq) j),
    (Z.testbit (gen_rook_attack_row sq) j),
    (Z.testbit (gen_rook_attack_file sq) j); reflexivity.
Qed.

Lemma make_queen_is_bishop_or_rook_witness :
  Np.is_uint64 5 /\
  make_queen_attack 5 = Z.lor (make_bishop_attack 5) (make_rook_attack 5).
Proof.
  assert (H5 : Np.is_uint64 5) by (unfold Np.is_uint64; rewrite modulus_eq; lia).
  split; [exact H5 |].
  apply (make_queen_is_bishop_or_rook 5 H5).
Defined.

Lemma uint64_of_bits (a : Z) :
  (forall j, 64 <= j -> Z.testbit a j = false) -> Np.is_uint64 a.
Proof.
  intros Hhigh.
  assert (Ha : Np.uint64 a = a).
  { apply Z.bits_inj. intros j. rewrite testbit_uint64.
    destruct (Z.ltb_spec j 64) as [Hl | Hh]; cbn [andb]; [reflexivity |].
    symmetry. apply Hhigh, Hh. }
  rewrite <- Ha. apply uint64_range.
Qed.

Lemma clear_bit_uint64 (bb s : Z) : Np.is_uint64 (clear_bit bb s).
Proof.
  apply uint64_of_bits. intros j Hj. unfold clear_bit.
  rewrite Z.land_spec, testbit_inv.
  destruct (Z.ltb_spec j 64); [lia |].
  now rewrite andb_false_r, andb_false_l, andb_false_r.
Qed.

Lemma lor_uint64 (a b : Z) :
  Np.is_uint64 a -> Np.is_uint64 b -> Np.is_uint64 (Z.lor a b).
Proof.
  intros Ha Hb. apply uint64_of_bits. intros j Hj.
  now rewrite Z.lor_spec, (testbit_high a j Ha Hj), (testbit_high b j Hb Hj).
Qed.

Lemma aggregate_uint64 (gen : Z -> Z) (bitboard : Z) :
  (forall sq, on_board sq -> Np.is_uint64 (gen sq)) ->
  Np.is_uint64 (aggregate gen bitboard).
Proof.
  intros Hgen. apply uint64_of_bits. intros j Hj.
  destruct (Z.testbit (aggregate gen bitboard) j) eqn:Hb; [| reflexivity].
  apply (member_aggregate gen bitboard j) in Hb.
  destruct Hb as [sq [Hsq [_ Hm]]].
  unfold member in Hm. rewrite (testbit_high _ j (Hgen sq Hsq) Hj) in Hm.
  discriminate.
Qed.

Lemma make_attack_uint64 (bitboard : Z) :
  Np.is_uint64 (make_knight_attack bitboard) /\
  Np.is_uint64 (make_bishop_attack bitboard) /\
  Np.is_uint64 (make_rook_attack bitboard) /\
  Np.is_uint64 (make_queen_attack bitboard) /\
  Np.is_uint64 (make_king_attack bitboard).
Proof.
  assert (Hb : forall sq, Np.is_uint64 (gen_bishop_attack sq)).
  { intros sq. unfold gen_bishop_attack. cbv zeta. apply clear_bit_uint64. }
  assert (Hr : forall sq, Np.is_uint64 (gen_rook_attack sq)).
  { intros sq. unfold gen_rook_attack, gen_rook_attack_file, gen_rook_attack_row.
    cbv zeta. apply lor_uint64; apply clear_bit_uint64. }
  split; [| split; [| split; [| split]]].
  - rewrite (make_knight_is_aggregate bitboard). apply aggregate_uint64.
    intros sq Hsq. apply (attack_table_sound _ _ knight_table sq Hsq).
  - rewrite (make_bishop_is_aggregate bitboard). apply aggregate_uint64.
    intros sq _. apply Hb.
  - rewrite (make_rook_is_aggregate bitboard).
    apply (aggregate_uint64 gen_rook_attack). intros sq _. apply Hr.
  - rewrite (make_queen_is_aggregate bitboard). apply aggregate_uint64.
    intros sq _. unfold gen_queen_attack.
    apply lor_uint64; [apply lor_uint64; [apply Hb |] |];
      [unfold gen_rook_attack_row | unfold gen_rook_attack_file];
      cbv zeta; apply clear_bit_uint64.
  - rewrite (make_king_is_aggregate bitboard). apply aggregate_uint64.
    intros sq Hsq. apply (attack_table_sound _ _ king_table sq Hsq).
Qed.

(** Every aggregated attack mask is a 64-bit value, whatever 64-bit
    occupancy it is computed from: no bit above position 63 is ever set. *)
Theorem make_attack_range (bitboard : Z) :
  Np.is_uint64 bitboard ->
  Np.is_uint64 (make_knight_attack bitboard) /\
  Np.is_uint64 (make_bishop_attack bitboard) /\
  Np.is_uint64 (make_rook_attack bitboard) /\
  Np.is_uint64 (make_queen_attack bitboard) /\
  Np.is_uint64 (make_king_attack bitboard).
Proof.
  intros _. apply make_attack_uint64.
Qed.

Lemma make_attack_range_witness :
  Np.is_uint64 5 /\ Np.is_uint64 (make_knight_attack 5).
Proof.
  assert (H5 : Np.is_uint64 5) by (unfold Np.is_uint64; rewrite modulus_eq; lia).
  split; [exact H5 |].
  pose proof (make_attack_range 5 H5) as H.
  destruct H as [H _]. exact H.
Defined.

(** ** The adapter after synchronization *)

Lemma update_board_synced (self : Board) :
  Engine_wf (board self) -> update_board self = Returned (synced (board self)).
Proof.
  intros Hwf. unfold Engine_wf in Hwf.
  destruct self as [e]. cbn [board] in *.
  destruct e as [[black white] p r n b q k].
  cbn [occupied_co pawns rooks knights bishops queens kings fst snd] in *.
  inversion Hwf as [| ? ? Hblack Hwf1]; subst.
  inversion Hwf1 as [| ? ? Hwhite _]; subst.
  unfold update_board, synced.
  cbn [board occupied_co pawns rooks knights bishops queens kings map nth
       fst snd].
  rewrite !(uint64_land black) by assumption.
  rewrite !(uint64_land white) by assumption.
  unfold white_knight_attacks, black_knight_attacks, white_bishop_attacks,
    black_bishop_attacks, white_rook_attacks, black_rook_attacks,
    white_queen_attacks, black_queen_attacks, white_king_attacks,
    black_king_attacks.
  cbn [board black_pawn_bitboard black_rook_bitboard black_knight_bitboard
       black_bishop_bitboard black_queen_bitboard black_king_bitboard
       white_pawn_bitboard white_rook_bitboard white_knight_bitboard
       white_bishop_bitboard white_queen_bitboard white_king_bitboard].
  reflexivity.
Qed.

(** Synchronization reads the engine only and is idempotent: the snapshot it
    leaves does not depend on the snapshot it replaces, and synchronizing
    again while the engine has not moved changes nothing. *)
Theorem update_board_idempotent (self other : Board) :
  Engine_wf (board self) ->
  exists self1,
    update_board self = Returned self1 /\
    board self1 = board self /\
    update_board self1 = Returned self1 /\
    (board other = board self -> update_board other = Returned self1).
Proof.
  intros Hwf. exists (synced (board self)).
  assert (Hb : board (synced (board self)) = board self) by reflexivity.
  split; [apply update_board_synced, Hwf | split; [exact Hb | split]].
  - rewrite update_board_synced; rewrite Hb; [reflexivity | exact Hwf].
  - intros Ho. rewrite update_board_synced; rewrite Ho; [reflexivity | exact Hwf].
Qed.

Lemma update_board_idempotent_witness :
  Engine_wf (board stale_board) /\
  exists self1,
    update_board stale_board = Returned self1 /\
    update_board self1 = Returned self1.
Proof.
  split; [exact doubled_engine_wf |].
  destruct (update_board_idempotent stale_board stale_board doubled_engine_wf)
    as [self1 [H1 [_ [H2 _]]]].
  exists self1. split; assumption.
Defined.

Lemma land_uint64 (a b : Z) : Np.is_uint64 a -> Np.is_uint64 (Z.land a b).
Proof. intros Ha. rewrite <- (uint64_land a b Ha). apply uint64_range. Qed.

(** After synchronization every stored occupancy and attack bitboard is a
    64-bit value. *)
Theorem update_board_stores_uint64 (self : Board) :
  Engine_wf (board self) ->
  exists self1,
    update_board self = Returned self1 /\
    Forall Np.is_uint64 (stored_bitboards self1).
Proof.
  intros Hwf. exists (synced (board self)).
  split; [apply update_board_synced, Hwf |].
  unfold Engine_wf in Hwf.
  inversion Hwf as [| ? ? Hblack Hwf1]; subst.
  inversion Hwf1 as [| ? ? Hwhite _]; subst.
  unfold stored_bitboards, synced.
  cbn [black_pawn_bitboard black_rook_bitboard black_knight_bitboard
       black_bishop_bitboard black_queen_bitboard black_king_bitboard
       white_pawn_bitboard white_rook_bitboard white_knight_bitboard
       white_bishop_bitboard white_queen_bitboard white_king_bitboard
       white_knight_attacks_bitboard black_knight_attacks_bitboard
       white_bishop_attacks_bitboard black_bishop_attacks_bitboard
       white_rook_attacks_bitboard black_rook_attacks_bitboard
       white_queen_attacks_bitboard black_queen_attacks_bitboard
       white_king_attacks_bitboard black_king_attacks_bitboard].
  repeat (apply Forall_cons;
          [first [ apply land_uint64; assumption
                 | apply make_attack_uint64 ] |]).
  apply Forall_nil.
Qed.

Lemma update_board_stores_uint64_witness :
  Engine_wf (board stale_board) /\
  exists self1,
    update_board stale_board = Returned self1 /\
    Forall Np.is_uint64 (stored_bitboards self1).
Proof.
  split; [exact doubled_engine_wf |].
  apply (update_board_stores_uint64 stale_board doubled_engine_wf).
Defined.

Lemma member_empty_squares (self : Board) (j : Z) :
  member j (empty_squares self) <->
  on_board j /\ ~ member j (occupied_squares self).
Proof.
  unfold empty_squares, occupied_squares, member, on_board.
  rewrite testbit_inv.
  destruct (Z.testbit (Z.lor (white_pieces self) (black_pieces self)) j);
    cbn [negb]; rewrite ?andb_false_r, ?andb_true_r.
  - split; [discriminate | tauto].
  - rewrite andb_true_iff, Z.leb_le, Z.ltb_lt.
    split; [intros [? ?]; split; [lia | discriminate] | intros [? _]; lia].
Qed.

(** After synchronization the occupancy queries answer from the engine's
    masks: each colour's pieces are that colour's occupancy restricted to
    the squares holding some kind of piece, the occupied squares are the
    union of both, the empty squares are the squares of the board that are
    not occupied, and when the engine's two colours share no square neither
    do the adapter's. *)
Theorem synchronized_occupancy (self : Board) :
  Engine_wf (board self) ->
  exists self1,
    update_board self = Returned self1 /\
    white_pieces self1
    = Z.land (snd (occupied_co (board self))) (any_kind (board self)) /\
    black_pieces self1
    = Z.land (fst (occupied_co (board self))) (any_kind (board self)) /\
    occupied_squares self1
    = Z.land (Z.lor (snd (occupied_co (board self)))
                    (fst (occupied_co (board self))))
             (any_kind (board self)) /\
    (forall j, member j (empty_squares self1) <->
               on_board j /\ ~ member j (occupied_squares self1)) /\
    (Z.land (snd (occupied_co (board self))) (fst (occupied_co (board self))) = 0 ->
     Z.land (white_pieces self1) (black_pieces self1) = 0).
Proof.
  intros Hwf. exists (synced (board self)).
  split; [apply update_board_synced, Hwf |].
  set (e := board self).
  set (white := snd (occupied_co e)). set (black := fst (occupied_co e)).
  assert (Hw : white_pieces (synced e) = Z.land white (any_kind e)).
  { unfold white_pieces, synced, any_kind.
    cbn [white_pawn_bitboard white_rook_bitboard white_knight_bitboard
         white_bishop_bitboard white_queen_bitboard white_king_bitboard].
    fold white. rewrite !Z.land_lor_distr_r. reflexivity. }
  assert (Hb : black_pieces (synced e) = Z.land black (any_kind e)).
  { unfold black_pieces, synced, any_kind.
    cbn [black_pawn_bitboard black_rook_bitboard black_knight_bitboard
         black_bishop_bitboard black_queen_bitboard black_king_bitboard].
    fold black. rewrite !Z.land_lor_distr_r. reflexivity. }
  split; [exact Hw | split; [exact Hb | split; [| split]]].
  - unfold occupied_squares. rewrite Hw, Hb.
    symmetry. apply Z.land_lor_distr_l.
  - intros j. apply member_empty_squares.
  - intros Hdis. rewrite Hw, Hb. apply Z.bits_inj. intros j.
    rewrite Z.testbit_0_l, !Z.land_spec.
    assert (Hj : Z.testbit white j && Z.testbit black j = false).
    { rewrite <- Z.land_spec, Hdis. apply Z.testbit_0_l. }
    destruct (Z.testbit white j), (Z.testbit black j),
      (Z.testbit (any_kind e) j); (reflexivity || discriminate).
Qed.

Lemma synchronized_occupancy_witness :
  Engine_wf (board stale_board) /\
  exists self1,
    update_board stale_board = Returned self1 /\
    white_pieces self1
    = Z.land (snd (occupied_co (board stale_board)))
             (any_kind (board stale_board)).
Proof.
  split; [exact doubled_engine_wf |].
  destruct (synchronized_occupancy stale_board doubled_engine_wf)
    as [self1 [H1 [H2 _]]].
  exists self1. split; assumption.
Defined.

(** ** Pawn attacks, pawn by pawn *)

Lemma member_white_pawn_attacks (self : Board) (j : Z) :
  member j (white_pawn_attacks self) <->
  spec_white_pawn_attack (white_pawn_bitboard self) j.
Proof.
  assert (HA : Np.is_uint64 File.hexA)
    by (unfold Np.is_uint64; rewrite modulus_eq; vm_compute; split; congruence).
  assert (HH : Np.is_uint64 File.hexH)
    by (unfold Np.is_uint64; rewrite modulus_eq; vm_compute; split; congruence).
  unfold white_pawn_attacks, white_pawn_east_attacks, white_pawn_west_attacks,
    spec_white_pawn_attack.
  unfold member at 1. rewrite Z.lor_spec, orb_true_iff.
  fold (member j (Z.land (Np.shl (white_pawn_bitboard self) (Np.uint64 9))
                         (Np.inv (Np.uint64 File.hexA)))).
  fold (member j (Z.land (Np.shl (white_pawn_bitboard self) (Np.uint64 7))
                         (Np.inv (Np.uint64 File.hexH)))).
  rewrite (member_masked _ _ j 0 testbit_hexA HA).
  rewrite (member_masked _ _ j 7 testbit_hexH HH).
  unfold member, on_board. rewrite !testbit_shl_const by lia.
  destruct (Z.ltb_spec j 64); cbn [andb]; intuition (discriminate || lia).
Qed.

Lemma member_black_pawn_attacks (self : Board) (j : Z) :
  member j (black_pawn_attacks self) <->
  spec_black_pawn_attack (black_pawn_bitboard self) j.
Proof.
  assert (HA : Np.is_uint64 File.hexA)
    by (unfold Np.is_uint64; rewrite modulus_eq; vm_compute; split; congruence).
  assert (HH : Np.is_uint64 File.hexH)
    by (unfold Np.is_uint64; rewrite modulus_eq; vm_compute; split; congruence).
  unfold black_pawn_attacks, black_pawn_east_attacks, black_pawn_west_attacks,
    spec_black_pawn_attack.
  unfold member at 1. rewrite Z.lor_spec, orb_true_iff.
  fold (member j (Z.land (Np.shr (black_pawn_bitboard self) (Np.uint64 7))
                         (Np.inv (Np.uint64 File.hexA)))).
  fold (member j (Z.land (Np.shr (black_pawn_bitboard self) (Np.uint64 9))
                         (Np.inv (Np.uint64 File.hexH)))).
  rewrite (member_masked _ _ j 0 testbit_hexA HA).
  rewrite (member_masked _ _ j 7 testbit_hexH HH).
  unfold member, on_board.
  split.
  - intros [[Hb [Hm Hf]] | [Hb [Hm Hf]]];
      rewrite testbit_shr_const in Hm by lia; tauto.
  - intros [Hb [[Hm Hf] | [Hm Hf]]]; [left | right];
      rewrite testbit_shr_const by lia; tauto.
Qed.

Lemma member_nonneg (bb j : Z) : member j bb -> 0 <= j.
Proof.
  unfold member. intros Hm.
  destruct (Z.ltb_spec j 0) as [Hn | Hn]; [| exact Hn].
  rewrite Z.testbit_neg_r in Hm by assumption. discriminate.
Qed.

(** A square is attacked by the white pawns exactly when it is a square of
    the board one rank above a pawn and one file beside it, and by the
    black pawns exactly when it is one rank below a pawn and one file
    beside it: the shifts never carry an attack across the A and H files,
    nor onto the far side of the board. *)
Theorem pawn_attacks_geometry (self : Board) :
  Np.is_uint64 (white_pawn_bitboard self) ->
  Np.is_uint64 (black_pawn_bitboard self) ->
  (forall j, member j (white_pawn_attacks self) <->
             on_board j /\
             exists p, member p (white_pawn_bitboard self) /\
                       rank_of j = rank_of p + 1 /\ file_distance p j = 1) /\
  (forall j, member j (black_pawn_attacks self) <->
             on_board j /\
             exists p, member p (black_pawn_bitboard self) /\
                       rank_of j = rank_of p - 1 /\ file_distance p j = 1).
Proof.
  intros Hw Hb. split; intros j.
  - rewrite member_white_pawn_attacks. unfold spec_white_pawn_attack. split.
    + intros [Hj [[Hm Hf] | [Hm Hf]]]; (split; [exact Hj |]).
      * exists (j - 9). split; [exact Hm |].
        pose proof (member_nonneg _ _ Hm).
        unfold on_board, file_distance, file_of, rank_of in *.
        Z.div_mod_to_equations. lia.
      * exists (j - 7). split; [exact Hm |].
        pose proof (member_nonneg _ _ Hm).
        unfold on_board, file_distance, file_of, rank_of in *.
        Z.div_mod_to_equations. lia.
    + intros [Hj [p [Hm [Hr Hf]]]]. split; [exact Hj |].
      pose proof (member_on_board _ _ Hw Hm) as Hp.
      assert (Hjp : j = p + 9 \/ j = p + 7).
      { unfold on_board, file_distance, file_of, rank_of in *.
        Z.div_mod_to_equations. lia. }
      destruct Hjp as [-> | ->]; [left | right];
        (split; [replace (p + 9 - 9) with p by lia;
                 replace (p + 7 - 7) with p by lia; exact Hm |]);
        unfold on_board, file_distance, file_of, rank_of in *;
        Z.div_mod_to_equations; lia.
  - rewrite member_black_pawn_attacks. unfold spec_black_pawn_attack. split.
    + intros [Hj [[Hm Hf] | [Hm Hf]]]; (split; [exact Hj |]).
      * exists (j + 7). split; [exact Hm |].
        pose proof (member_on_board _ _ Hb Hm).
        unfold on_board, file_distance, file_of, rank_of in *.
        Z.div_mod_to_equations. lia.
      * exists (j + 9). split; [exact Hm |].
        pose proof (member_on_board _ _ Hb Hm).
        unfold on_board, file_distance, file_of, rank_of in *.
        Z.div_mod_to_equations. lia.
    + intros [Hj [p [Hm [Hr Hf]]]]. split; [exact Hj |].
      pose proof (member_on_board _ _ Hb Hm) as Hp.
      assert (Hjp : p = j + 7 \/ p = j + 9).
      { unfold on_board, file_distance, file_of, rank_of in *.
        Z.div_mod_to_equations. lia. }
      destruct Hjp as [-> | ->]; [left | right];
        (split; [exact Hm |]);
        unfold on_board, file_distance, file_of, rank_of in *;
        Z.div_mod_to_equations; lia.
Qed.

Lemma pawn_attacks_geometry_witness :
  Np.is_uint64 (white_pawn_bitboard two_pawns_board) /\
  Np.is_uint64 (black_pawn_bitboard two_pawns_board) /\
  member 12 (white_pawn_bitboard two_pawns_board) /\
  member 21 (white_pawn_attacks two_pawns_board) /\
  member 51 (black_pawn_bitboard two_pawns_board) /\
  member 42 (black_pawn_attacks two_pawns_board).
Proof.
  assert (Hw : Np.is_uint64 (white_pawn_bitboard two_pawns_board)).
  { unfold Np.is_uint64, two_pawns_board. cbn [white_pawn_bitboard].
    rewrite modulus_eq. lia. }
  assert (Hb : Np.is_uint64 (black_pawn_bitboard two_pawns_board)).
  { unfold Np.is_uint64, two_pawns_board. cbn [black_pawn_bitboard].
    rewrite modulus_eq. lia. }
  assert (H12 : member 12 (white_pawn_bitboard two_pawns_board))
    by reflexivity.
  assert (H51 : member 51 (black_pawn_bitboard two_pawns_board))
    by reflexivity.
  pose proof (pawn_attacks_geometry two_pawns_board Hw Hb) as H.
  destruct H as [Hwhite Hblack].
  split; [exact Hw | split; [exact Hb |]].
  split; [exact H12 | split; [| split; [exact H51 |]]].
  - apply (Hwhite 21). split; [unfold on_board; lia |].
    exists 12. split; [exact H12 | split; reflexivity].
  - apply (Hblack 42). split; [unfold on_board; lia |].
    exists 51. split; [exact H51 | split; reflexivity].
Defined.

(** ** Bitboards as arrays *)

Lemma byte_bits (bb sh i : Z) :
  0 <= sh < 64 -> 0 <= i < 8 ->
  Z.testbit (np_uint8 (Np.shr bb (Np.uint64 sh))) i = Z.testbit bb (sh + i).
Proof.
  intros Hsh Hi. unfold np_uint8. change 256 with (2 ^ 8).
  rewrite Z.mod_pow2_bits_low by lia.
  rewrite testbit_shr_const by lia. f_equal. lia.
Qed.

Lemma cell_bitboard_to_array (bb r f : Z) :
  0 <= r < 8 -> 0 <= f < 8 ->
  cell (bitboard_to_array bb) r f = Z.b2z (Z.testbit bb (8 * (7 - r) + f)).
Proof.
  intros Hr Hf.
  assert (Er : r = 0 \/ r = 1 \/ r = 2 \/ r = 3 \/ r = 4 \/ r = 5 \/ r = 6 \/ r = 7)
    by lia.
  assert (Ef : f = 0 \/ f = 1 \/ f = 2 \/ f = 3 \/ f = 4 \/ f = 5 \/ f = 6 \/ f = 7)
    by lia.
  clear Hr Hf.
  repeat (destruct Er as [-> | Er]); try subst r;
    repeat (destruct Ef as [-> | Ef]); try subst f;
    cbv [cell bitboard_to_array byte_shifts unpackbits_little reshape map
         flat_map app firstn skipn nth Z.to_nat Pos.to_nat Pos.iter_op
         Nat.add];
    rewrite byte_bits by lia; reflexivity.
Qed.

Lemma bitboard_to_array_shape (bb : Z) : well_shaped (bitboard_to_array bb).
Proof.
  unfold well_shaped.
  cbv [bitboard_to_array byte_shifts unpackbits_little reshape map flat_map
       app firstn skipn].
  split; [reflexivity |].
  repeat (apply Forall_cons; [reflexivity |]). apply Forall_nil.
Qed.

(** The array of a 64-bit bitboard has 8 rows of 8 entries, each 0 or 1;
    the entry in row [r] and column [f] is the bit of square
    [8 * (7 - r) + f]: row 0 is the eighth rank, and the files run left to
    right. *)
Theorem bitboard_to_array_cells (bit_board : Z) :
  Np.is_uint64 bit_board ->
  well_shaped (bitboard_to_array bit_board) /\
  (forall r f, 0 <= r < 8 -> 0 <= f < 8 ->
     cell (bitboard_to_array bit_board) r f
     = Z.b2z (Z.testbit bit_board (8 * (7 - r) + f))).
Proof.
  intros _. split; [apply bitboard_to_array_shape |].
  intros r f Hr Hf. apply cell_bitboard_to_array; assumption.
Qed.

Lemma bitboard_to_array_cells_witness :
  Np.is_uint64 5 /\
  cell (bitboard_to_array 5) 7 2 = Z.b2z (Z.testbit 5 (8 * (7 - 7) + 2)).
Proof.
  assert (H5 : Np.is_uint64 5) by (unfold Np.is_uint64; rewrite modulus_eq; lia).
  split; [exact H5 |].
  pose proof (bitboard_to_array_cells 5 H5) as H. destruct H as [_ H].
  apply H; lia.
Defined.

(** The conversion loses nothing: two 64-bit bitboards with the same array
    are equal. *)
Theorem bitboard_to_array_injective (a b : Z) :
  Np.is_uint64 a -> Np.is_uint64 b ->
  bitboard_to_array a = bitboard_to_array b -> a = b.
Proof.
  intros Ha Hb Heq. apply Z.bits_inj'. intros j Hj.
  destruct (Z.ltb_spec j 64) as [Hlt | Hge].
  - assert (Hc : cell (bitboard_to_array a) (7 - j / 8) (j mod 8)
                 = cell (bitboard_to_array b) (7 - j / 8) (j mod 8))
      by (rewrite Heq; reflexivity).
    rewrite !cell_bitboard_to_array in Hc
      by (Z.div_mod_to_equations; lia).
    replace (8 * (7 - (7 - j / 8)) + j mod 8) with j in Hc
      by (Z.div_mod_to_equations; lia).
    destruct (Z.testbit a j), (Z.testbit b j);
      (reflexivity || discriminate Hc).
  - now rewrite (testbit_high a j Ha Hge), (testbit_high b j Hb Hge).
Qed.

Lemma bitboard_to_array_injective_witness :
  Np.is_uint64 5 /\ bitboard_to_array 5 = bitboard_to_array 5 /\ 5 = 5.
Proof.
  assert (H5 : Np.is_uint64 5) by (unfold Np.is_uint64; rewrite modulus_eq; lia).
  split; [exact H5 | split; [reflexivity |]].
  apply (bitboard_to_array_injective 5 5 H5 H5). reflexivity.
Defined.

Lemma unpackbits_little_app (xs ys : list Z) :
  unpackbits_little (xs ++ ys) = unpackbits_little xs ++ unpackbits_little ys.
Proof. unfold unpackbits_little. apply flat_map_app. Qed.

Lemma unpackbits_little_length (xs : list Z) :
  length (unpackbits_little xs) = (8 * length xs)%nat.
Proof.
  unfold unpackbits_little.
  induction xs as [| x xs IH]; [reflexivity |].
  cbn [flat_map]. rewrite length_app, IH. cbn [length map]. lia.
Qed.

Lemma bitboards_to_array_map (bit_boards : list Z) :
  bitboards_to_array bit_boards = map bitboard_to_array bit_boards.
Proof.
  unfold bitboards_to_array. cbv zeta.
  set (bytes := fun bit_board : Z =>
                  map (fun shift => np_uint8 (Np.shr bit_board shift)) byte_shifts).
  assert (Hlen : forall l,
             length (unpackbits_little (concat (map bytes l)))
             = (64 * length l)%nat).
  { intros l. rewrite unpackbits_little_length.
    induction l as [| x l IH]; [reflexivity |].
    cbn [map concat]. rewrite length_app, Nat.mul_add_distr_l.
    cbn [length] in *. unfold bytes at 1. unfold byte_shifts.
    rewrite !length_map. cbn [length]. lia. }
  rewrite Hlen.
  replace (Nat.div (64 * length bit_boards) 64) with (length bit_boards)
    by (rewrite Nat.mul_comm, Nat.div_mul; [reflexivity | discriminate]).
  induction bit_boards as [| x l IH]; [reflexivity |].
  cbn [length map concat reshape_boards].
  rewrite unpackbits_little_app.
  assert (Hx : length (unpackbits_little (bytes x)) = 64%nat).
  { rewrite unpackbits_little_length. unfold bytes, byte_shifts.
    rewrite !length_map. reflexivity. }
  rewrite firstn_app, skipn_app, Hx, Nat.sub_diag.
  rewrite (firstn_all2 (unpackbits_little (bytes x))) by (rewrite Hx; lia).
  rewrite (skipn_all2 (unpackbits_little (bytes x))) by (rewrite Hx; lia).
  cbn [firstn skipn app]. rewrite app_nil_r. rewrite IH.
  reflexivity.
Qed.

(** Converting a list of 64-bit bitboards converts each of them, in order;
    an empty list gives an empty array. *)
Theorem bitboards_to_array_each (bit_boards : list Z) :
  Forall Np.is_uint64 bit_boards ->
  bitboards_to_array bit_boards = map bitboard_to_array bit_boards.
Proof.
  intros _. apply bitboards_to_array_map.
Qed.

Lemma bitboards_to_array_each_witness :
  Forall Np.is_uint64 [1; 2] /\
  bitboards_to_array [1; 2] = map bitboard_to_array [1; 2].
Proof.
  assert (H : Forall Np.is_uint64 [1; 2]).
  { repeat (apply Forall_cons;
            [unfold Np.is_uint64; rewrite modulus_eq; lia |]).
    apply Forall_nil. }
  split; [exact H |].
  apply (bitboards_to_array_each [1; 2] H).
Defined.

(** ** Printing *)

Lemma string_app_assoc (a b c : string) :
  ((a ++ b) ++ c = a ++ (b ++ c))%string.
Proof. induction a as [| ch a IH]; simpl; [reflexivity | now rewrite IH]. Qed.

Lemma string_app_empty_r (a : string) : (a ++ EmptyString = a)%string.
Proof. induction a as [| ch a IH]; simpl; [reflexivity | now rewrite IH]. Qed.

(** A loop whose every turn just writes a text writes the texts in order. *)
Lemma for_each_writes {B : Type} (xs : list B) (text : B -> string)
  (body : B -> py unit) :
  (forall x out, In x xs -> body x out = ((out ++ text x)%string, inr tt)) ->
  forall out,
    for_each xs body out = ((out ++ join (map text xs))%string, inr tt).
Proof.
  induction xs as [| x xs IH]; intros Hbody out.
  - cbn. now rewrite string_app_empty_r.
  - cbn [for_each map join fold_right]. unfold bind.
    rewrite (Hbody x out (or_introl eq_refl)).
    rewrite IH by (intros y o Hy; apply Hbody; right; exact Hy).
    fold (join (map text xs)). now rewrite string_app_assoc.
Qed.

Lemma in_range8 (x : Z) : In x range8 <-> 0 <= x < 8.
Proof. unfold range8. simpl. lia. Qed.

Lemma getitem_in_range {A : Type} (l : list A) (i : Z) (d : A) (out : string) :
  0 <= i -> (Z.to_nat i < length l)%nat ->
  getitem l i out = (out, inr (nth (Z.to_nat i) l d)).
Proof.
  intros Hi Hlen. unfold getitem.
  rewrite (nth_error_nth' l d Hlen). reflexivity.
Qed.

Lemma well_shaped_row {A : Type} (array : list (list A)) (r : Z) :
  well_shaped array -> 0 <= r < 8 ->
  (Z.to_nat r < length array)%nat /\
  length (nth (Z.to_nat r) array []) = 8%nat.
Proof.
  intros [Hlen Hrows] Hr.
  assert (Hn : (Z.to_nat r < length array)%nat) by lia.
  split; [exact Hn |].
  rewrite Forall_forall in Hrows. apply Hrows, nth_In, Hn.
Qed.

(** Printing the rows of an 8 by 8 table of strings. *)
Lemma print_rows (glyph : Z -> Z -> string) (cell_body : Z -> Z -> py unit) :
  (forall r f out, 0 <= r < 8 -> 0 <= f < 8 ->
     cell_body r f out = ((out ++ glyph r f ++ " ")%string, inr tt)) ->
  forall out,
    for_each range8
      (fun rank =>
         print_end (str (8 - rank)) " | " ;;
         for_each range8 (cell_body rank) ;;
         print "|")%py out
    = ((out ++ rows_text glyph)%string, inr tt).
Proof.
  intros Hcell out. unfold rows_text.
  apply (for_each_writes range8 (row_text glyph)).
  intros r o Hr. apply in_range8 in Hr.
  unfold bind, print, print_end at 1.
  rewrite (for_each_writes range8 (fun file => (glyph r file ++ " ")%string)).
  - unfold print_end, row_text. rewrite !string_app_assoc. reflexivity.
  - intros f o' Hf. apply in_range8 in Hf. apply Hcell; assumption.
Qed.

Lemma print_bitboard_shaped (bitboard : list (list Z)) (out : string) :
  well_shaped bitboard ->
  print_bitboard bitboard out
  = ((out ++ header_text
          ++ rows_text (fun r f => pawn_glyph (cell bitboard r f))
          ++ footer_text)%string,
     inr tt).
Proof.
  intros Hshape. unfold print_bitboard.
  unfold bind at 1. unfold print at 1, print_end at 1.
  unfold bind at 1. unfold print at 1, print_end at 1.
  unfold bind at 1.
  rewrite (print_rows (fun r f => pawn_glyph (cell bitboard r f))).
  - unfold print, print_end, header_text, footer_text.
    rewrite !string_app_assoc. reflexivity.
  - intros r f o Hr Hf. cbv zeta. unfold bind.
    destruct (well_shaped_row bitboard r Hshape Hr) as [Hlen Hrow].
    rewrite (getitem_in_range bitboard r [] o) by (lia || exact Hlen).
    rewrite (getitem_in_range _ f 0 o) by (rewrite ?Hrow; lia).
    fold (cell bitboard r f). unfold pawn_glyph, print_end.
    destruct (cell bitboard r f =? 1); reflexivity.
Qed.

(** For an 8 by 8 array [print_bitboard] raises nothing and writes the two
    header lines, eight rows labelled 8 down to 1 and the closing line; the
    row labelled [8 - r] shows, left to right, [p] where [array[r][f]] is 1
    and a dot elsewhere. *)
Theorem print_bitboard_text (bitboard : list (list Z)) (out : string) :
  well_shaped bitboard ->
  print_bitboard bitboard out
  = ((out ++ header_text
          ++ rows_text (fun r f => pawn_glyph (cell bitboard r f))
          ++ footer_text)%string,
     inr tt).
Proof.
  intros Hshape. apply print_bitboard_shaped, Hshape.
Qed.

Lemma print_bitboard_text_witness :
  well_shaped (bitboard_to_array 1) /\
  print_bitboard (bitboard_to_array 1) EmptyString
  = ((EmptyString ++ header_text
        ++ rows_text (fun r f => pawn_glyph (cell (bitboard_to_array 1) r f))
        ++ footer_text)%string,
     inr tt).
Proof.
  split; [apply bitboard_to_array_shape |].
  apply print_bitboard_text, bitboard_to_array_shape.
Defined.

Lemma join_map_ext {B : Type} (f g : B -> string) (xs : list B) :
  (forall x, In x xs -> f x = g x) -> join (map f xs) = join (map g xs).
Proof.
  intros H. f_equal. apply map_ext_in, H.
Qed.

Lemma rows_text_ext (g h : Z -> Z -> string) :
  (forall r f, 0 <= r < 8 -> 0 <= f < 8 -> g r f = h r f) ->
  rows_text g = rows_text h.
Proof.
  intros H. unfold rows_text. apply join_map_ext. intros r Hr.
  apply in_range8 in Hr. unfold row_text.
  rewrite (join_map_ext (fun file => (g r file ++ " ")%string)
             (fun file => (h r file ++ " ")%string) range8); [reflexivity |].
  intros f Hf. apply in_range8 in Hf.
  now rewrite (H r f Hr Hf).
Qed.

(** Dumping the array of a 64-bit bitboard shows square [8 * (7 - r) + f]
    in text row [r], column [f]: the eighth rank is printed first and each
    rank runs from file a to file h, with [p] on the squares of the
    bitboard. *)
Theorem print_bitboard_of_bitboard (bit_board : Z) (out : string) :
  Np.is_uint64 bit_board ->
  print_bitboard (bitboard_to_array bit_board) out
  = ((out ++ header_text
          ++ rows_text
               (fun r f =>
                  if Z.testbit bit_board (8 * (7 - r) + f)
                  then "p" else ".")
          ++ footer_text)%string,
     inr tt).
Proof.
  intros _.
  rewrite (print_bitboard_shaped _ out (bitboard_to_array_shape bit_board)).
  rewrite (rows_text_ext
             (fun r f => pawn_glyph (cell (bitboard_to_array bit_board) r f))
             (fun r f =>
                if Z.testbit bit_board (8 * (7 - r) + f)
                then "p"%string else "."%string)); [reflexivity |].
  intros r f Hr Hf.
  rewrite (cell_bitboard_to_array bit_board r f Hr Hf).
  destruct (Z.testbit bit_board (8 * (7 - r) + f)); reflexivity.
Qed.

Lemma print_bitboard_of_bitboard_witness :
  Np.is_uint64 5 /\
  snd (print_bitboard (bitboard_to_array 5) EmptyString) = inr tt.
Proof.
  assert (H5 : Np.is_uint64 5) by (unfold Np.is_uint64; rewrite modulus_eq; lia).
  split; [exact H5 |].
  rewrite (print_bitboard_of_bitboard 5 EmptyString H5).
  cbn [snd]. reflexivity.
Defined.






(** ** The combined dump *)

Lemma list_set_length {A : Type} (l : list A) (i : nat) (v : A) :
  length (list_set l i v) = length l.
Proof.
  revert i. induction l as [| a l IH]; intros [| i]; cbn; try reflexivity.
  now rewrite IH.
Qed.

Lemma nth_list_set {A : Type} (l : list A) (i n : nat) (v d : A) :
  (i < length l)%nat ->
  nth n (list_set l i v) d = if Nat.eqb n i then v else nth n l d.
Proof.
  revert i n. induction l as [| a l IH]; intros i n Hi; [cbn in Hi; lia |].
  destruct i as [| i], n as [| n]; cbn; try reflexivity.
  apply IH. cbn in Hi. lia.
Qed.

Lemma setitem2_shape (mb : list (list string)) (r f : Z) (v : string) :
  well_shaped mb -> 0 <= r < 8 -> well_shaped (setitem2 mb r f v).
Proof.
  intros Hs Hr. destruct (well_shaped_row mb r Hs Hr) as [Hn Hrow].
  destruct Hs as [Hlen Hrows]. unfold setitem2, well_shaped.
  rewrite list_set_length. split; [exact Hlen |].
  apply Forall_forall. intros row Hin.
  apply (In_nth _ _ []) in Hin. destruct Hin as [n [Hn' <-]].
  rewrite list_set_length in Hn'.
  rewrite nth_list_set by exact Hn.
  destruct (Nat.eqb n (Z.to_nat r)).
  - rewrite list_set_length. exact Hrow.
  - rewrite Forall_forall in Hrows. apply Hrows, nth_In, Hn'.
Qed.

Lemma scell_setitem2 (mb : list (list string)) (r f r0 f0 : Z) (v : string) :
  well_shaped mb -> 0 <= r < 8 -> 0 <= f < 8 -> 0 <= r0 < 8 -> 0 <= f0 < 8 ->
  scell (setitem2 mb r f v) r0 f0
  = if (r0 =? r) && (f0 =? f) then v else scell mb r0 f0.
Proof.
  intros Hs Hr Hf Hr0 Hf0.
  destruct (well_shaped_row mb r Hs Hr) as [Hn Hrow].
  unfold scell, setitem2. rewrite nth_list_set by exact Hn.
  destruct (Z.eqb_spec r0 r) as [-> | Hne].
  - rewrite Nat.eqb_refl. rewrite nth_list_set by (rewrite Hrow; lia).
    destruct (Z.eqb_spec f0 f) as [-> | Hnf].
    + now rewrite Nat.eqb_refl.
    + destruct (Nat.eqb_spec (Z.to_nat f0) (Z.to_nat f)); [lia | reflexivity].
  - destruct (Nat.eqb_spec (Z.to_nat r0) (Z.to_nat r)); [lia | reflexivity].
Qed.

(** A loop whose turns neither write nor raise is a fold. *)
Lemma fold_each_pure {A B : Type} (xs : list B) (body : A -> B -> py A)
  (g : A -> B -> A) (P : A -> Prop) :
  (forall acc x, P acc -> In x xs -> P (g acc x)) ->
  (forall acc x out, P acc -> In x xs -> body acc x out = (out, inr (g acc x))) ->
  forall acc out, P acc ->
    fold_each xs body acc out = (out, inr (fold_left g xs acc)).
Proof.
  induction xs as [| x xs IH]; intros Hinv Hbody acc out Hacc; [reflexivity |].
  cbn [fold_each fold_left]. unfold bind.
  rewrite (Hbody acc x out Hacc (or_introl eq_refl)).
  apply IH.
  - intros a y Ha Hy. apply Hinv; [exact Ha | right; exact Hy].
  - intros a y o Ha Hy. apply Hbody; [exact Ha | right; exact Hy].
  - apply Hinv; [exact Hacc | left; reflexivity].
Qed.

(** A loop whose turns either raise or leave the accumulator alone raises
    at the first turn that does, and otherwise returns the accumulator. *)
Lemma fold_each_guard {A B : Type} (xs : list B) (body : A -> B -> py A)
  (c : B -> bool) (e : exception) (acc : A) :
  (forall x out, In x xs ->
     body acc x out = if c x then (out, inl e) else (out, inr acc)) ->
  forall out,
    fold_each xs body acc out
    = if existsb c xs then (out, inl e) else (out, inr acc).
Proof.
  induction xs as [| x xs IH]; intros Hbody out; [reflexivity |].
  cbn [fold_each existsb]. unfold bind.
  rewrite (Hbody x out (or_introl eq_refl)).
  destruct (c x); [reflexivity |]. cbn [orb].
  apply IH. intros y o Hy. apply Hbody. right. exact Hy.
Qed.

Lemma dict_get_piece_symbols (key : Z) (out : string) :
  0 <= key ->
  dict_get piece_symbols key out
  = if 12 <=? key then (out, inl KeyError) else (out, inr (symbol_of key)).
Proof.
  intros Hk. unfold dict_get, symbol_of.
  destruct (Z.leb_spec 12 key) as [Hge | Hlt].
  - unfold piece_symbols. cbn [find fst].
    repeat match goal with
           | |- context [?a =? key] =>
               destruct (Z.eqb_spec a key); [lia |]
           end.
    reflexivity.
  - assert (Hc : key = 0 \/ key = 1 \/ key = 2 \/ key = 3 \/ key = 4 \/
                 key = 5 \/ key = 6 \/ key = 7 \/ key = 8 \/ key = 9 \/
                 key = 10 \/ key = 11) by lia.
    repeat (destruct Hc as [-> | Hc]); try subst key; reflexivity.
Qed.

Lemma existsb_false_in {B : Type} (c : B -> bool) (xs : list B) (x : B) :
  existsb c xs = false -> In x xs -> c x = false.
Proof.
  intros He Hin. destruct (c x) eqn:Hc; [| reflexivity].
  assert (Ht : existsb c xs = true) by (apply existsb_exists; eauto).
  congruence.
Qed.

Lemma has_piece_false (array : list (list Z)) (r f : Z) :
  has_piece array = false -> 0 <= r < 8 -> 0 <= f < 8 ->
  (cell array r f =? 1) = false.
Proof.
  intros Hh Hr Hf. unfold has_piece in Hh.
  apply (existsb_false_in _ _ r) in Hh; [| apply in_range8, Hr].
  apply (existsb_false_in _ _ f) in Hh; [exact Hh | apply in_range8, Hf].
Qed.

(** The three nested loops over one board whose key has a symbol. *)
Lemma overlay_named (key : Z) (array : list (list Z))
  (mb : list (list string)) (out : string) :
  well_shaped array -> well_shaped mb -> 0 <= key < 12 ->
  fold_each range8
    (fun main_board rank =>
       fold_each range8
         (fun main_board file =>
            row <- getitem array rank ;;
            piece <- getitem row file ;;
            if piece =? 1
            then symbol <- dict_get piece_symbols key ;;
                 ret (setitem2 main_board rank file symbol)
            else ret main_board)%py
         main_board)
    mb out
  = (out, inr (paint key array mb)).
Proof.
  intros Ha Hmb Hk. unfold paint.
  apply (fold_each_pure range8 _ _ well_shaped); [| | exact Hmb].
  - intros acc r Hacc Hr. apply in_range8 in Hr.
    revert acc Hacc. generalize range8. intros fs.
    induction fs as [| f fs IH]; intros acc Hacc; [exact Hacc |].
    cbn [fold_left]. apply IH.
    destruct (cell array r f =? 1); [| exact Hacc].
    apply setitem2_shape; assumption.
  - intros acc r o Hacc Hr. apply in_range8 in Hr.
    apply (fold_each_pure range8 _ _ well_shaped); [| | exact Hacc].
    + intros a f Ha' Hf. destruct (cell array r f =? 1); [| exact Ha'].
      apply setitem2_shape; assumption.
    + intros a f o' Ha' Hf. apply in_range8 in Hf. unfold bind.
      destruct (well_shaped_row array r Ha Hr) as [Hlen Hrow].
      rewrite (getitem_in_range array r [] o') by (lia || exact Hlen).
      rewrite (getitem_in_range _ f 0 o') by (rewrite ?Hrow; lia).
      fold (cell array r f).
      destruct (cell array r f =? 1); [| reflexivity].
      rewrite dict_get_piece_symbols by lia.
      destruct (Z.leb_spec 12 key); [lia | reflexivity].
Qed.

(** The three nested loops over one board whose key has no symbol. *)
Lemma overlay_unnamed (key : Z) (array : list (list Z))
  (mb : list (list string)) (out : string) :
  well_shaped array -> 12 <= key ->
  fold_each range8
    (fun main_board rank =>
       fold_each range8
         (fun main_board file =>
            row <- getitem array rank ;;
            piece <- getitem row file ;;
            if piece =? 1
            then symbol <- dict_get piece_symbols key ;;
                 ret (setitem2 main_board rank file symbol)
            else ret main_board)%py
         main_board)
    mb out
  = if has_piece array then (out, inl KeyError) else (out, inr mb).
Proof.
  intros Ha Hk. unfold has_piece.
  apply (fold_each_guard range8 _
           (fun rank => existsb (fun file => cell array rank file =? 1) range8)
           KeyError mb).
  intros r o Hr. apply in_range8 in Hr.
  apply (fold_each_guard range8 _ (fun file => cell array r file =? 1)
           KeyError mb).
  intros f o' Hf. apply in_range8 in Hf. unfold bind.
  destruct (well_shaped_row array r Ha Hr) as [Hlen Hrow].
  rewrite (getitem_in_range array r [] o') by (lia || exact Hlen).
  rewrite (getitem_in_range _ f 0 o') by (rewrite ?Hrow; lia).
  fold (cell array r f).
  destruct (cell array r f =? 1); [| reflexivity].
  rewrite dict_get_piece_symbols by lia.
  destruct (Z.leb_spec 12 key); [reflexivity | lia].
Qed.

Lemma existsb_pick (g : Z -> bool) (x0 : Z) :
  0 <= x0 < 8 -> existsb (fun x => (x0 =? x) && g x) range8 = g x0.
Proof.
  intros Hx.
  rewrite (existsb_pointwise _ (fun x => (x =? x0) && g x))
    by (intros x; now rewrite Z.eqb_sym).
  apply existsb_at.
  - unfold range8. repeat constructor; cbn; intuition lia.
  - apply in_range8, Hx.
Qed.

Lemma paint_row (c : Z -> bool) (v : string) (r r0 f0 : Z) (fs : list Z) :
  0 <= r < 8 -> 0 <= r0 < 8 -> 0 <= f0 < 8 ->
  (forall f, In f fs -> 0 <= f < 8) ->
  forall mb, well_shaped mb ->
    let mb' := fold_left
                 (fun mb f => if c f then setitem2 mb r f v else mb) fs mb in
    well_shaped mb' /\
    scell mb' r0 f0
    = if (r0 =? r) && existsb (fun f => (f0 =? f) && c f) fs
      then v else scell mb r0 f0.
Proof.
  intros Hr Hr0 Hf0. induction fs as [| f fs IH]; intros Hfs mb Hmb.
  - cbn. split; [exact Hmb |]. now rewrite andb_false_r.
  - cbn [fold_left existsb].
    assert (Hf : 0 <= f < 8) by (apply Hfs; left; reflexivity).
    assert (Hfs' : forall x, In x fs -> 0 <= x < 8)
      by (intros x Hx; apply Hfs; right; exact Hx).
    destruct (c f) eqn:Hc.
    + destruct (IH Hfs' (setitem2 mb r f v) (setitem2_shape mb r f v Hmb Hr))
        as [Hs He].
      split; [exact Hs |]. cbv zeta in He. rewrite He.
      rewrite (scell_setitem2 mb r f r0 f0 v Hmb Hr Hf Hr0 Hf0).
      rewrite andb_true_r.
      destruct (r0 =? r), (f0 =? f),
        (existsb (fun f1 => (f0 =? f1) && c f1) fs); reflexivity.
    + destruct (IH Hfs' mb Hmb) as [Hs He].
      split; [exact Hs |]. cbv zeta in He. rewrite He.
      rewrite andb_false_r. reflexivity.
Qed.

Lemma paint_rows (c : Z -> Z -> bool) (v : string) (r0 f0 : Z) (rs : list Z) :
  0 <= r0 < 8 -> 0 <= f0 < 8 ->
  (forall r, In r rs -> 0 <= r < 8) ->
  forall mb, well_shaped mb ->
    let mb' := fold_left
                 (fun mb r =>
                    fold_left
                      (fun mb f => if c r f then setitem2 mb r f v else mb)
                      range8 mb)
                 rs mb in
    well_shaped mb' /\
    scell mb' r0 f0
    = if existsb (fun r => (r0 =? r) &&
                           existsb (fun f => (f0 =? f) && c r f) range8) rs
      then v else scell mb r0 f0.
Proof.
  intros Hr0 Hf0. induction rs as [| r rs IH]; intros Hrs mb Hmb.
  - cbn. split; [exact Hmb | reflexivity].
  - cbn [fold_left existsb].
    assert (Hr : 0 <= r < 8) by (apply Hrs; left; reflexivity).
    assert (Hrs' : forall x, In x rs -> 0 <= x < 8)
      by (intros x Hx; apply Hrs; right; exact Hx).
    destruct (paint_row (c r) v r r0 f0 range8 Hr Hr0 Hf0
                (fun f Hf => proj1 (in_range8 f) Hf) mb Hmb) as [Hs1 He1].
    cbv zeta in Hs1, He1.
    destruct (IH Hrs' _ Hs1) as [Hs He].
    split; [exact Hs |]. cbv zeta in He. rewrite He, He1.
    destruct ((r0 =? r) && existsb (fun f => (f0 =? f) && c r f) range8),
      (existsb
         (fun r1 => (r0 =? r1) &&
                    existsb (fun f => (f0 =? f) && c r1 f) range8) rs);
      reflexivity.
Qed.

(** Painting a board changes the cells where the board has a 1, to the
    symbol of its key, and no other cell. *)
Lemma scell_paint (key : Z) (array : list (list Z)) (mb : list (list string))
  (r0 f0 : Z) :
  well_shaped mb -> 0 <= r0 < 8 -> 0 <= f0 < 8 ->
  well_shaped (paint key array mb) /\
  scell (paint key array mb) r0 f0
  = if cell array r0 f0 =? 1 then symbol_of key else scell mb r0 f0.
Proof.
  intros Hmb Hr0 Hf0. unfold paint.
  destruct (paint_rows (fun r f => cell array r f =? 1) (symbol_of key)
              r0 f0 range8 Hr0 Hf0
              (fun r Hr => proj1 (in_range8 r) Hr) mb Hmb) as [Hs He].
  cbv zeta in Hs, He. split; [exact Hs |]. rewrite He.
  rewrite (existsb_pick
             (fun r => existsb (fun f => (f0 =? f) && (cell array r f =? 1))
                               range8) r0 Hr0).
  rewrite (existsb_pick (fun f => cell array r0 f =? 1) f0 Hf0).
  reflexivity.
Qed.

Lemma paint_shape (key : Z) (array : list (list Z)) (mb : list (list string)) :
  well_shaped mb -> well_shaped (paint key array mb).
Proof.
  intros Hmb.
  apply (scell_paint key array mb 0 0 Hmb); lia.
Qed.

(** The loop over the boards: it raises [KeyError], having written
    nothing, when a board without a symbol has a piece, and otherwise
    paints the boards one over the other. *)
Lemma boards_loop (l : list (Z * list (list Z))) :
  Forall (fun p => 0 <= fst p /\ well_shaped (snd p)) l ->
  forall mb out, well_shaped mb ->
    fold_each l
      (fun main_board bit_board =>
         fold_each range8
           (fun main_board rank =>
              fold_each range8
                (fun main_board file =>
                   row <- getitem (snd bit_board) rank ;;
                   piece <- getitem row file ;;
                   if piece =? 1
                   then symbol <- dict_get piece_symbols (fst bit_board) ;;
                        ret (setitem2 main_board rank file symbol)
                   else ret main_board)%py
                main_board)
           main_board)
      mb out
    = if existsb (fun p => (12 <=? fst p) && has_piece (snd p)) l
      then (out, inl KeyError)
      else (out, inr (fold_left paint_step l mb)).
Proof.
  induction 1 as [| p l [Hk Hp] Hl IH]; intros mb out Hmb; [reflexivity |].
  cbn [fold_each existsb fold_left]. unfold bind at 1. unfold paint_step at 2.
  destruct (Z.leb_spec 12 (fst p)) as [Hge | Hlt]; cbn [andb].
  - rewrite (overlay_unnamed (fst p) (snd p) mb out Hp Hge).
    destruct (has_piece (snd p)); cbn [orb]; [reflexivity |].
    apply IH, Hmb.
  - rewrite (overlay_named (fst p) (snd p) mb out Hp Hmb) by lia.
    cbn [orb]. apply IH, paint_shape, Hmb.
Qed.

Lemma painted_cells (l : list (Z * list (list Z))) (r f : Z) :
  0 <= r < 8 -> 0 <= f < 8 ->
  existsb (fun p => (12 <=? fst p) && has_piece (snd p)) l = false ->
  forall mb, well_shaped mb ->
    well_shaped (fold_left paint_step l mb) /\
    scell (fold_left paint_step l mb) r f
    = fold_left
        (fun glyph bit_board =>
           if cell (snd bit_board) r f =? 1
           then symbol_of (fst bit_board) else glyph)
        l (scell mb r f).
Proof.
  intros Hr Hf. induction l as [| p l IH]; intros He mb Hmb.
  - cbn. split; [exact Hmb | reflexivity].
  - cbn [existsb] in He. apply orb_false_iff in He. destruct He as [Hp He].
    cbn [fold_left]. unfold paint_step at 2 4.
    destruct (Z.leb_spec 12 (fst p)) as [Hge | Hlt]; cbn [andb] in Hp.
    + rewrite (has_piece_false (snd p) r f Hp Hr Hf). apply IH; assumption.
    + destruct (scell_paint (fst p) (snd p) mb r f Hmb Hr Hf) as [Hs Hc].
      rewrite <- Hc. apply IH; assumption.
Qed.

Lemma enumerate_shapes (bitboards : list (list (list Z))) :
  Forall well_shaped bitboards ->
  Forall (fun p => 0 <= fst p /\ well_shaped (snd p)) (enumerate bitboards).
Proof.
  intros Hall. apply Forall_forall. intros [i B] Hin. unfold enumerate in Hin.
  cbn [fst snd]. split.
  - apply in_combine_l in Hin. apply in_map_iff in Hin.
    destruct Hin as [n [<- _]]. lia.
  - apply in_combine_r in Hin. rewrite Forall_forall in Hall. apply Hall, Hin.
Qed.

Lemma blank_board :
  well_shaped (repeat (repeat "."%string 8) 8) /\
  (forall r f, 0 <= r < 8 -> 0 <= f < 8 ->
     scell (repeat (repeat "."%string 8) 8) r f = "."%string).
Proof.
  split.
  - split; [reflexivity |]. cbn. repeat (apply Forall_cons; [reflexivity |]).
    apply Forall_nil.
  - intros r f Hr Hf.
    assert (Er : r = 0 \/ r = 1 \/ r = 2 \/ r = 3 \/ r = 4 \/ r = 5 \/
                 r = 6 \/ r = 7) by lia.
    assert (Ef : f = 0 \/ f = 1 \/ f = 2 \/ f = 3 \/ f = 4 \/ f = 5 \/
                 f = 6 \/ f = 7) by lia.
    clear Hr Hf.
    repeat (destruct Er as [-> | Er]); try subst r;
      repeat (destruct Ef as [-> | Ef]); try subst f; reflexivity.
Qed.

(** For a list of 8 by 8 arrays [print_entire_board] either raises
    [KeyError] before writing anything, when a board in position 12 or more
    has a piece (the dictionary names twelve boards), or writes the two
    header lines and eight rows and no closing line; each cell shows the
    symbol of the last board of the list with a piece there, a dot when no
    board has one. *)
Theorem print_entire_board_text (bitboards : list (list (list Z)))
  (out : string) :
  Forall well_shaped bitboards ->
  print_entire_board bitboards out
  = if has_unnamed_piece bitboards
    then (out, inl KeyError)
    else ((out ++ header_text ++ rows_text (top_symbol bitboards))%string,
          inr tt).
Proof.
  intros Hall. unfold print_entire_board. cbv zeta.
  destruct blank_board as [Hblank Hdots].
  unfold bind at 1.
  rewrite (boards_loop (enumerate bitboards) (enumerate_shapes _ Hall)
             _ out Hblank).
  unfold has_unnamed_piece.
  destruct (existsb (fun p => (12 <=? fst p) && has_piece (snd p))
                    (enumerate bitboards)) eqn:He; [reflexivity |].
  set (mb := fold_left paint_step (enumerate bitboards)
                       (repeat (repeat "."%string 8) 8)).
  assert (Hmb : well_shaped mb).
  { apply (painted_cells (enumerate bitboards) 0 0); (lia || assumption). }
  unfold bind at 1. unfold print at 1, print_end at 1.
  unfold bind at 1. unfold print at 1, print_end at 1.
  rewrite (print_rows (scell mb)).
  - rewrite (rows_text_ext (scell mb) (top_symbol bitboards)).
    + unfold header_text. rewrite !string_app_assoc. reflexivity.
    + intros r f Hr Hf. unfold mb, top_symbol.
      destruct (painted_cells (enumerate bitboards) r f Hr Hf He _ Hblank)
        as [_ Hc].
      rewrite Hc, (Hdots r f Hr Hf). reflexivity.
  - intros r f o Hr Hf. unfold bind.
    destruct (well_shaped_row mb r Hmb Hr) as [Hlen Hrow].
    rewrite (getitem_in_range mb r [] o) by (lia || exact Hlen).
    rewrite (getitem_in_range _ f EmptyString o) by (rewrite ?Hrow; lia).
    reflexivity.
Qed.

Lemma print_entire_board_text_witness :
  Forall well_shaped (bitboards_to_array [1; 2]) /\
  snd (print_entire_board (bitboards_to_array [1; 2]) EmptyString) = inr tt.
Proof.
  assert (H : Forall well_shaped (bitboards_to_array [1; 2])).
  { rewrite bitboards_to_array_map. cbn [map].
    repeat (apply Forall_cons; [apply bitboard_to_array_shape |]).
    apply Forall_nil. }
  split; [exact H |].
  rewrite (print_entire_board_text _ EmptyString H).
  vm_compute. reflexivity.
Defined.
